(** * personal-finance-advisor: the extraction and categorization pipeline

    A shallow embedding of the deterministic document processor
    (agents/document_processor.py), the merchant keyword database
    (utils/merchant_database.py) and the content analyzer
    (agents/content_analyzer.py), with the properties the specification
    states about them.

    Conventions of the embedding:
    - a Python [str] is a [string] of ASCII characters;
    - a Python [float] is a [pyfloat]: a rational (the number the float
      stands for, binary rounding is not represented), an infinity or NaN;
    - a transaction is a Python dict that the agents update in place: the
      dicts live in a [heap] indexed by object identity, and a Python list
      of transactions is a list of identities;
    - the language model is a function from the request to its reply, and
      every request issued is appended to a log;
    - dates are printed as the C library of Linux prints them: [%Y] is the
      year without padding. *)

From Stdlib Require Import String Ascii List Bool Arith ZArith QArith Qabs Lia.
From Stdlib Require Import DecimalString DecimalNat Qpower.
From stdpp Require Import gmap strings.

Open Scope string_scope.
Open Scope nat_scope.

(** ** Python strings *)

Module PyStr.

Definition code (c : ascii) : nat := nat_of_ascii c.

Definition in_range (lo hi : nat) (c : ascii) : bool :=
  (lo <=? code c) && (code c <=? hi).

(** [\d] *)
Definition is_digit (c : ascii) : bool := in_range 48 57 c.

Definition is_upper (c : ascii) : bool := in_range 65 90 c.
Definition is_lower (c : ascii) : bool := in_range 97 122 c.
Definition is_alpha (c : ascii) : bool := is_upper c || is_lower c.

(** [\w] *)
Definition is_word (c : ascii) : bool :=
  is_alpha c || is_digit c || Ascii.eqb c "_".

(** [\s], and the characters [str.strip()] removes: tab, newline,
    vertical tab, form feed, carriage return, the four separators
    0x1c..0x1f and the space. *)
Definition is_space (c : ascii) : bool :=
  in_range 9 13 c || in_range 28 32 c.

Definition one_of (cs : string) (c : ascii) : bool :=
  existsb (Ascii.eqb c) (list_ascii_of_string cs).

Definition lower_char (c : ascii) : ascii :=
  if is_upper c then ascii_of_nat (code c + 32) else c.

(** [s.lower()] *)
Fixpoint lower (s : string) : string :=
  match s with
  | EmptyString => EmptyString
  | String c s' => String (lower_char c) (lower s')
  end.

Fixpoint str_all (p : ascii -> bool) (s : string) : bool :=
  match s with
  | EmptyString => true
  | String c s' => p c && str_all p s'
  end.

Fixpoint lstrip (s : string) : string :=
  match s with
  | String c s' => if is_space c then lstrip s' else s
  | EmptyString => EmptyString
  end.

(** Removes trailing whitespace: a character is kept when something
    after it is kept or it is not whitespace itself. *)
Fixpoint rstrip (s : string) : string :=
  match s with
  | EmptyString => EmptyString
  | String c s' =>
      match rstrip s' with
      | EmptyString => if is_space c then EmptyString else String c EmptyString
      | r => String c r
      end
  end.

(** [s.strip()] *)
Definition strip (s : string) : string := rstrip (lstrip s).

(** [s.startswith(p)] *)
Fixpoint startswith (p s : string) : bool :=
  match p, s with
  | EmptyString, _ => true
  | String a p', String b s' => Ascii.eqb a b && startswith p' s'
  | String _ _, EmptyString => false
  end.

(** [k in s] *)
Fixpoint contains (k s : string) : bool :=
  startswith k s ||
  match s with
  | EmptyString => false
  | String _ s' => contains k s'
  end.

(** [x in [k1, k2, ...]] for a list of strings *)
Definition in_list (x : string) (l : list string) : bool :=
  existsb (String.eqb x) l.

(** [str(n)] for a natural number *)
Definition of_nat (n : nat) : string := NilEmpty.string_of_uint (Nat.to_uint n).
Definition of_N (n : N) : string := NilEmpty.string_of_uint (N.to_uint n).

End PyStr.

(** ** Regular expressions

    Every pattern of the program is a sequence of quantified character
    classes, some of them inside capture groups that are neither nested nor
    repeated. [Quant p lo hi greedy] is the class [p] repeated between [lo]
    and [hi] times ([None]: no upper bound); a greedy quantifier tries the
    longest repetition first, a lazy one the shortest, and the matcher
    backtracks in that order as Python's [re] does. *)

Module Re.
Import PyStr.

Record quant := Quant {
  q_class : ascii -> bool;
  q_min : nat;
  q_max : option nat;
  q_greedy : bool
}.

Inductive piece :=
| Plain (q : quant)
| Group (qs : list quant).

Definition chr (c : ascii) : quant := Quant (Ascii.eqb c) 1 (Some 1) true.
Definition cls (p : ascii -> bool) : quant := Quant p 1 (Some 1) true.
Definition opt (p : ascii -> bool) : quant := Quant p 0 (Some 1) true.
Definition star (p : ascii -> bool) : quant := Quant p 0 None true.
Definition plus (p : ascii -> bool) : quant := Quant p 1 None true.
Definition plus_lazy (p : ascii -> bool) : quant := Quant p 1 None false.
Definition star_lazy (p : ascii -> bool) : quant := Quant p 0 None false.
Definition rep (p : ascii -> bool) (lo : nat) (hi : option nat) : quant :=
  Quant p lo hi true.

(** All the ways to split [s] after a run of at most [hi] characters of
    class [p], shortest run first. *)
Fixpoint spans (p : ascii -> bool) (hi : option nat) (s : string)
  : list (string * string) :=
  (EmptyString, s) ::
  match s, hi with
  | String c s', None =>
      if p c then map (fun ar => (String c (fst ar), snd ar)) (spans p None s')
      else []
  | String c s', Some (S h) =>
      if p c then map (fun ar => (String c (fst ar), snd ar)) (spans p (Some h) s')
      else []
  | _, _ => []
  end.

(** The splits a quantifier allows, in the order the matcher tries them. *)
Definition candidates (q : quant) (s : string) : list (string * string) :=
  let l := List.filter (fun ar => q_min q <=? String.length (fst ar))
                  (spans (q_class q) (q_max q) s) in
  if q_greedy q then rev l else l.

Fixpoint first_some {A B : Type} (f : A -> option B) (l : list A) : option B :=
  match l with
  | [] => None
  | x :: l' =>
      match f x with
      | Some y => Some y
      | None => first_some f l'
      end
  end.

(** Matches [qs] at the start of [s]; the continuation receives the text
    consumed and the rest, and answers [None] to ask for the next
    alternative. *)
Fixpoint match_quants {R : Type} (qs : list quant) (s : string)
    (k : string -> string -> option R) : option R :=
  match qs with
  | [] => k EmptyString s
  | q :: qs' =>
      first_some
        (fun ar => match_quants qs' (snd ar) (fun b rest => k (fst ar ++ b) rest))
        (candidates q s)
  end.

Fixpoint match_pieces {R : Type} (ps : list piece) (s : string)
    (caps : list string) (k : list string -> string -> option R) : option R :=
  match ps with
  | [] => k caps s
  | Plain q :: ps' =>
      match_quants [q] s (fun _ rest => match_pieces ps' rest caps k)
  | Group qs :: ps' =>
      match_quants qs s (fun a rest => match_pieces ps' rest (caps ++ [a]) k)
  end.

(** [re.match(p, s)]: the captured groups of the first match at the start
    of [s]. *)
Definition re_match (ps : list piece) (s : string) : option (list string) :=
  match_pieces ps s [] (fun caps _ => Some caps).

(** [re.search(p, s)]: the leftmost match, [match.groups()]. *)
Fixpoint re_search (ps : list piece) (s : string) : option (list string) :=
  match re_match ps s with
  | Some g => Some g
  | None =>
      match s with
      | String _ s' => re_search ps s'
      | EmptyString => None
      end
  end.

(** [re.sub(p, repl, s)] for a pattern without groups that consumes at
    least one character (all the substituted patterns of the program
    do). [skip] counts the characters of the current match still to
    drop. *)
Fixpoint sub_from (qs : list quant) (repl : string) (skip : nat) (s : string)
  : string :=
  match s with
  | EmptyString => EmptyString
  | String c s' =>
      match skip with
      | S n => sub_from qs repl n s'
      | O =>
          match match_quants qs s (fun a _ => Some (String.length a)) with
          | Some (S n) => repl ++ sub_from qs repl n s'
          | _ => String c (sub_from qs repl 0 s')
          end
      end
  end.

Definition re_sub (qs : list quant) (repl s : string) : string :=
  sub_from qs repl 0 s.

End Re.

(** ** Python floats *)

Module PyFloat.
Import PyStr.

Inductive pyfloat :=
| Finite (q : Q)
| Inf (negative : bool)
| NaN.

Definition zero : pyfloat := Finite 0.
Definition one : pyfloat := Finite 1.

(** [abs(x)] *)
Definition fabs (x : pyfloat) : pyfloat :=
  match x with
  | Finite q => Finite (Qabs q)
  | Inf _ => Inf false
  | NaN => NaN
  end.

(** [x <= y]; every comparison with NaN is false. *)
Definition fle (x y : pyfloat) : bool :=
  match x, y with
  | NaN, _ | _, NaN => false
  | Inf true, _ => true
  | _, Inf false => true
  | Inf false, _ => false
  | _, Inf true => false
  | Finite a, Finite b => Qle_bool a b
  end.

(** [x >= y] *)
Definition fge (x y : pyfloat) : bool := fle y x.

Definition digit_value (c : ascii) : Z := Z.of_nat (code c - 48).

Fixpoint digits_value (acc : Z) (s : string) : Z :=
  match s with
  | EmptyString => acc
  | String c s' => digits_value (10 * acc + digit_value c) s'
  end.

Definition starts_with_digit (s : string) : bool :=
  match s with
  | String c _ => is_digit c
  | EmptyString => false
  end.

(** The digits of a [digitpart] at the start of [s] and the text after
    it; a single underscore may stand between two digits. *)
Fixpoint read_digits (after_digit : bool) (s : string) : string * string :=
  match s with
  | String c s' =>
      if is_digit c then
        let dr := read_digits true s' in (String c (fst dr), snd dr)
      else if Ascii.eqb c "_" && after_digit && starts_with_digit s' then
        read_digits false s'
      else (EmptyString, s)
  | EmptyString => (EmptyString, EmptyString)
  end.

(** [e] or [E], an optional sign and a digitpart; no exponent is
    exponent zero. *)
Definition read_exponent (s : string) : option (Z * string) :=
  match s with
  | String c s' =>
      if one_of "eE" c then
        let (neg, t) :=
          match s' with
          | String "-" t => (true, t)
          | String "+" t => (false, t)
          | _ => (false, s')
          end in
        match read_digits false t with
        | (EmptyString, _) => None
        | (ds, rest) =>
            let e := digits_value 0 ds in
            Some (if neg then (- e)%Z else e, rest)
        end
      else Some (0%Z, s)
  | EmptyString => Some (0%Z, s)
  end.

(** An unsigned decimal number: digits, an optional point and digits, an
    optional exponent, with a digit before or after the point. *)
Definition read_number (s : string) : option Q :=
  let (ip, r1) := read_digits false s in
  let (fp, r2) :=
    match r1 with
    | String "." r => read_digits false r
    | _ => (EmptyString, r1)
    end in
  match ip ++ fp with
  | EmptyString => None
  | ds =>
      match read_exponent r2 with
      | Some (e, EmptyString) =>
          Some (Qred (inject_Z (digits_value 0 ds)
                      * Qpower (10 # 1) (e - Z.of_nat (String.length fp))))
      | _ => None
      end
  end.

(** [float(s)]; [None] is the [ValueError]. *)
Definition float_of_string (s : string) : option pyfloat :=
  let t := strip s in
  let (neg, body) :=
    match t with
    | String "-" r => (true, r)
    | String "+" r => (false, r)
    | _ => (false, t)
    end in
  let lb := lower body in
  if String.eqb lb "inf" || String.eqb lb "infinity" then Some (Inf neg)
  else if String.eqb lb "nan" then Some NaN
  else
    match read_number body with
    | Some q => Some (Finite (if neg then Qopp q else q))
    | None => None
    end.

End PyFloat.

(** ** [datetime]: only the calendar date matters to the program *)

Module PyDate.
Import PyStr Re.

Record datetime := Datetime { year : N; month : N; day : N }.

Definition is_leap (y : N) : bool :=
  ((y mod 4 =? 0) && (negb (y mod 100 =? 0) || (y mod 400 =? 0)))%N.

Definition days_in_month (y m : N) : N :=
  match m with
  | 1 | 3 | 5 | 7 | 8 | 10 | 12 => 31
  | 4 | 6 | 9 | 11 => 30
  | 2 => if is_leap y then 29 else 28
  | _ => 0
  end%N.

(** What the [datetime] constructor accepts. *)
Definition valid_date (y m d : N) : bool :=
  ((1 <=? y) && (y <=? 9999) && (1 <=? m) && (m <=? 12)
   && (1 <=? d) && (d <=? days_in_month y m))%N.

Inductive directive :=
| Dir_Y | Dir_m | Dir_d | Dir_b
| Lit (c : ascii).

(** The directives of a format string; [None] for a directive the
    program does not use. *)
Fixpoint parse_format (fmt : string) : option (list directive) :=
  match fmt with
  | EmptyString => Some []
  | String "%" (String x rest) =>
      let d :=
        if Ascii.eqb x "Y" then Some Dir_Y
        else if Ascii.eqb x "m" then Some Dir_m
        else if Ascii.eqb x "d" then Some Dir_d
        else if Ascii.eqb x "b" then Some Dir_b
        else if Ascii.eqb x "%" then Some (Lit "%")
        else None in
      match d, parse_format rest with
      | Some d, Some ds => Some (d :: ds)
      | _, _ => None
      end
  | String "%" EmptyString => None
  | String c rest =>
      match parse_format rest with
      | Some ds => Some (Lit c :: ds)
      | None => None
      end
  end.

(** One alternative of a directive: a fixed sequence of classes. *)
Fixpoint take_classes (cs : list (ascii -> bool)) (s : string)
  : option (string * string) :=
  match cs, s with
  | [], _ => Some (EmptyString, s)
  | p :: cs', String c s' =>
      if p c then
        match take_classes cs' s' with
        | Some (a, r) => Some (String c a, r)
        | None => None
        end
      else None
  | _ :: _, EmptyString => None
  end.

Definition int_of (s : string) : N :=
  Z.to_N (PyFloat.digits_value 0 (lstrip s)).

Definition numeric_alternatives (alts : list (list (ascii -> bool))) (s : string)
  : list (N * string) :=
  flat_map (fun cs =>
              match take_classes cs s with
              | Some (a, r) => [(int_of a, r)]
              | None => []
              end) alts.

(** [%m]: 1[0-2] | 0[1-9] | [1-9] *)
Definition alts_m : list (list (ascii -> bool)) :=
  [ [one_of "1"; one_of "012"];
    [one_of "0"; in_range 49 57];
    [in_range 49 57] ].

(** [%d]: 3[0-1] | [1-2]\d | 0[1-9] | [1-9] | space [1-9] *)
Definition alts_d : list (list (ascii -> bool)) :=
  [ [one_of "3"; one_of "01"];
    [one_of "12"; is_digit];
    [one_of "0"; in_range 49 57];
    [in_range 49 57];
    [one_of " "; in_range 49 57] ].

(** [%Y]: \d\d\d\d *)
Definition alts_Y : list (list (ascii -> bool)) :=
  [ [is_digit; is_digit; is_digit; is_digit] ].

Definition month_abbr : list string :=
  ["jan"; "feb"; "mar"; "apr"; "may"; "jun";
   "jul"; "aug"; "sep"; "oct"; "nov"; "dec"].

Fixpoint abbr_alternatives (i : N) (names : list string) (s : string)
  : list (N * string) :=
  match names with
  | [] => []
  | n :: names' =>
      (if startswith n (lower (substring 0 (String.length n) s))
       then [(i, substring (String.length n) (String.length s) s)]
       else [])
      ++ abbr_alternatives (N.succ i) names' s
  end.

(** The ways a directive can match at the start of [s], in the order
    the compiled format tries them: the updated date and the rest. *)
Definition directive_alternatives (d : directive) (acc : datetime) (s : string)
  : list (datetime * string) :=
  match d with
  | Dir_Y => map (fun vr => (Datetime (fst vr) (month acc) (day acc), snd vr))
                 (numeric_alternatives alts_Y s)
  | Dir_m => map (fun vr => (Datetime (year acc) (fst vr) (day acc), snd vr))
                 (numeric_alternatives alts_m s)
  | Dir_d => map (fun vr => (Datetime (year acc) (month acc) (fst vr), snd vr))
                 (numeric_alternatives alts_d s)
  | Dir_b => map (fun vr => (Datetime (year acc) (fst vr) (day acc), snd vr))
                 (abbr_alternatives 1%N month_abbr s)
  | Lit c =>
      match s with
      | String c' s' =>
          if Ascii.eqb (lower_char c) (lower_char c') then [(acc, s')] else []
      | EmptyString => []
      end
  end.

Fixpoint match_directives (ds : list directive) (acc : datetime) (s : string)
  : option (datetime * string) :=
  match ds with
  | [] => Some (acc, s)
  | d :: ds' =>
      first_some (fun ar => match_directives ds' (fst ar) (snd ar))
                 (directive_alternatives d acc s)
  end.

(** [datetime.strptime(s, fmt)]; [None] is the [ValueError]: the format
    does not match, text remains after the match, or the date does not
    exist. Fields absent from the format default to 1900-01-01. *)
Definition strptime (s fmt : string) : option datetime :=
  match parse_format fmt with
  | None => None
  | Some ds =>
      match match_directives ds (Datetime 1900 1 1)%N s with
      | Some (d, EmptyString) =>
          if valid_date (year d) (month d) (day d) then Some d else None
      | _ => None
      end
  end.

Fixpoint zeros (n : nat) : string :=
  match n with
  | O => EmptyString
  | S n' => String "0" (zeros n')
  end.

(** A number in at least [w] digits, zero-padded. *)
Definition zfill (w : nat) (n : N) : string :=
  let s := of_N n in zeros (w - String.length s) ++ s.

(** [d.strftime('%Y-%m-%d')]. The C library formats the fields, and the
    one of Linux writes the year as it is, without padding: the year 999
    is written in three digits. The month and the day take two. *)
Definition strftime_Y_m_d (d : datetime) : string :=
  of_N (year d) ++ "-" ++ zfill 2 (month d) ++ "-" ++ zfill 2 (day d).

End PyDate.

(** ** utils/merchant_database.py *)

Module MerchantDatabase.
Import PyStr Re PyFloat.

(** [self.merchant_keywords]: a dict, iterated in insertion order. *)
Definition merchant_keywords : list (string * list string) :=
  [ ("food_dining",
     [ "starbucks"; "dunkin"; "dunkin donuts"; "coffee"; "cafe";
       "mcdonalds"; "burger king"; "subway"; "kfc"; "taco bell";
       "chipotle"; "panera"; "panda express"; "pizza hut"; "dominos";
       "restaurant"; "bistro"; "grill"; "kitchen"; "diner"; "eatery";
       "food truck"; "catering"; "bakery";
       "uber eats"; "doordash"; "grubhub"; "postmates"; "food delivery" ]);
    ("groceries",
     [ "walmart"; "target"; "costco"; "sams club"; "sam's club";
       "kroger"; "safeway"; "publix"; "wegmans"; "giant"; "stop shop";
       "whole foods"; "trader joe"; "aldi"; "food lion"; "harris teeter";
       "market"; "grocery"; "supermarket"; "supercenter"; "food store" ]);
    ("transportation",
     [ "shell"; "exxon"; "chevron"; "bp"; "mobil"; "citgo"; "arco";
       "gas station"; "fuel"; "gasoline"; "petrol";
       "uber"; "lyft"; "taxi"; "cab"; "rideshare";
       "metro"; "mta"; "transit"; "bus"; "train"; "subway";
       "parking"; "garage"; "meter";
       "airline"; "airport"; "flight"; "car rental"; "hertz"; "enterprise" ]);
    ("shopping",
     [ "amazon"; "ebay"; "etsy"; "best buy"; "apple store"; "microsoft";
       "home depot"; "lowes"; "macys"; "kohls"; "tj maxx"; "marshalls";
       "ross"; "old navy"; "gap"; "nike"; "adidas"; "mall"; "outlet" ]);
    ("bills_utilities",
     [ "electric"; "power"; "energy"; "utility"; "water"; "sewer";
       "gas bill"; "internet"; "cable"; "phone"; "wireless";
       "verizon"; "att"; "at&t"; "comcast"; "spectrum"; "xfinity";
       "municipal"; "city of"; "county of" ]);
    ("entertainment",
     [ "netflix"; "spotify"; "hulu"; "disney"; "amazon prime";
       "apple music"; "youtube"; "gaming"; "steam"; "playstation";
       "xbox"; "nintendo"; "movie"; "theater"; "cinema"; "concert" ]);
    ("healthcare",
     [ "cvs"; "walgreens"; "rite aid"; "pharmacy"; "medical";
       "doctor"; "dentist"; "hospital"; "clinic"; "health" ]);
    ("atm_cash",
     [ "atm"; "withdrawal"; "cash advance"; "cash back"; "cashout" ]);
    ("income",
     [ "direct deposit"; "salary"; "payroll"; "interest"; "dividend";
       "refund"; "tax refund"; "deposit"; "credit" ]);
    ("fees",
     [ "fee"; "charge"; "penalty"; "overdraft"; "maintenance";
       "service charge"; "foreign"; "atm fee" ]) ].

Definition _clean_description_for_matching (description : string) : string :=
  let desc := re_sub [cls (one_of "#*"); star is_word] EmptyString description in
  let desc := re_sub [rep is_digit 4 None] EmptyString desc in
  let desc := re_sub [plus is_space] " " desc in
  strip desc.

Definition _calculate_confidence (matched_keyword description : string) : pyfloat :=
  if in_list matched_keyword ["starbucks"; "walmart"; "amazon"; "netflix"] then
    Finite 0.95
  else if in_list matched_keyword ["gas station"; "grocery"; "pharmacy"] then
    Finite 0.90
  else if in_list matched_keyword ["restaurant"; "cafe"; "market"] then
    Finite 0.75
  else Finite 0.80.

(** The inner loop: the first keyword of one category found in the
    description. *)
Fixpoint match_keywords (category : string) (keywords : list string)
    (desc_clean : string) : option (string * pyfloat) :=
  match keywords with
  | [] => None
  | keyword :: keywords' =>
      if contains keyword desc_clean then
        Some (category, _calculate_confidence keyword desc_clean)
      else match_keywords category keywords' desc_clean
  end.

(** The outer loop over the categories. *)
Fixpoint match_categories (db : list (string * list string))
    (desc_clean : string) : option (string * pyfloat) :=
  match db with
  | [] => None
  | (category, keywords) :: db' =>
      match match_keywords category keywords desc_clean with
      | Some r => Some r
      | None => match_categories db' desc_clean
      end
  end.

Definition categorize_transaction (description : string) : string * pyfloat :=
  let desc_lower := strip (lower description) in
  let desc_clean := _clean_description_for_matching desc_lower in
  match match_categories merchant_keywords desc_clean with
  | Some r => r
  | None => ("uncategorized", zero)
  end.

End MerchantDatabase.

(** ** Transactions and the heap they live in *)

Import PyFloat.

(** The dict a transaction is. [transaction_id] is added after parsing and
    [reasoning] by the content analyzer: until then the key is absent. *)
Record Transaction := mkTransaction {
  date : string;
  description : string;
  amount : pyfloat;
  is_debit : bool;
  balance : pyfloat;
  category : string;
  confidence : pyfloat;
  source : string;
  original_line : string;
  pattern_used : string;
  transaction_id : option string;
  reasoning : option string
}.

Definition set_transaction_id (t : Transaction) (i : string) : Transaction :=
  mkTransaction (date t) (description t) (amount t) (is_debit t) (balance t)
    (category t) (confidence t) (source t) (original_line t) (pattern_used t)
    (Some i) (reasoning t).

(** [txn['category'] = c; txn['confidence'] = x; txn['source'] = s] *)
Definition set_categorization (t : Transaction) (c : string) (x : pyfloat)
    (s : string) : Transaction :=
  mkTransaction (date t) (description t) (amount t) (is_debit t) (balance t)
    c x s (original_line t) (pattern_used t) (transaction_id t) (reasoning t).

(** [txn['reasoning'] = r] *)
Definition set_reasoning (t : Transaction) (r : string) : Transaction :=
  mkTransaction (date t) (description t) (amount t) (is_debit t) (balance t)
    (category t) (confidence t) (source t) (original_line t) (pattern_used t)
    (transaction_id t) (Some r).

(** The identity of a dict object, and the state of every object. *)
Definition ref := nat.
Definition heap := ref -> Transaction.

Definition update (h : heap) (r : ref) (f : Transaction -> Transaction) : heap :=
  fun r' => if Nat.eqb r' r then f (h r') else h r'.

(** A heap holding the transactions of [l] at the identities 0, 1, ... *)
Definition heap_of (l : list Transaction) (default : Transaction) : heap :=
  fun r => nth r l default.

(** The keys no categorization stage is meant to touch. *)
Definition payload (t : Transaction)
  : string * string * pyfloat * bool * pyfloat * option string * string * string :=
  (date t, description t, amount t, is_debit t, balance t,
   transaction_id t, original_line t, pattern_used t).

(** ** agents/document_processor.py *)

Module DocumentProcessorAgent.
Import PyStr Re PyDate.

(** [pattern['groups']]: the number of the group holding each field; the
    balance key may be absent. *)
Record group_map := GroupMap {
  g_date : nat;
  g_description : nat;
  g_amount : nat;
  g_balance : option nat
}.

Record pattern := Pattern {
  regex : list piece;
  groups : group_map;
  name : string
}.

Definition digit_or_comma (c : ascii) : bool := is_digit c || one_of "," c.

(** [[^-+$\d]] and [[^$\d]] *)
Definition not_sign_dollar_digit (c : ascii) : bool :=
  negb (one_of "-+$" c || is_digit c).
Definition not_dollar_digit (c : ascii) : bool :=
  negb (one_of "$" c || is_digit c).

(** Group 3 of the first and third pattern: an optional sign, an
    optional dollar sign, one or more digits or commas, an optional point,
    any number of digits. *)
Definition signed_amount : list quant :=
  [opt (one_of "-+"); opt (one_of "$"); plus digit_or_comma;
   opt (one_of "."); star is_digit].

(** The balance group, and the amount group of the second pattern: the
    same without the sign and the dollar sign. *)
Definition unsigned_amount : list quant :=
  [plus digit_or_comma; opt (one_of "."); star is_digit].

(** Group 1: one or two digits, the separator, one or two digits, the
    separator, four digits. *)
Definition date_with (sep : ascii) : list quant :=
  [rep is_digit 1 (Some 2); chr sep; rep is_digit 1 (Some 2); chr sep;
   rep is_digit 4 (Some 4)].

Definition patterns : list pattern :=
  [ (* date with slashes, spaces, a lazy run of one or more characters
       other than sign, dollar and digit, spaces, signed amount, spaces,
       an optional dollar sign, balance *)
    Pattern
      [ Group (date_with "/"); Plain (plus is_space);
        Group [plus_lazy not_sign_dollar_digit]; Plain (plus is_space);
        Group signed_amount; Plain (plus is_space);
        Plain (opt (one_of "$")); Group unsigned_amount ]
      (GroupMap 1 2 3 (Some 4))
      "Chase Format";
    (* date with dashes, spaces, a lazy run of one or more characters
       other than dollar and digit, spaces, an optional dollar sign,
       unsigned amount, spaces, an optional dollar sign, balance *)
    Pattern
      [ Group (date_with "-"); Plain (plus is_space);
        Group [plus_lazy not_dollar_digit]; Plain (plus is_space);
        Plain (opt (one_of "$")); Group unsigned_amount; Plain (plus is_space);
        Plain (opt (one_of "$")); Group unsigned_amount ]
      (GroupMap 1 2 3 (Some 4))
      "Wells Fargo Format";
    (* as the first pattern, but the description starts with a letter
       and may end there *)
    Pattern
      [ Group (date_with "/"); Plain (plus is_space);
        Group [cls is_alpha; star_lazy not_sign_dollar_digit];
        Plain (plus is_space);
        Group signed_amount; Plain (plus is_space);
        Plain (opt (one_of "$")); Group unsigned_amount ]
      (GroupMap 1 2 3 (Some 4))
      "Generic Format" ].

Definition date_formats : list string :=
  ["%m/%d/%Y"; "%m-%d-%Y"; "%Y-%m-%d"; "%d-%b-%Y"].

(** The loop over the formats: the first one that parses. *)
Definition first_format (date_str : string) : option datetime :=
  first_some (strptime date_str) date_formats.

(** [now] is what [datetime.now()] returns. *)
Definition _parse_date (now : datetime) (date_str : string) : datetime :=
  match first_format date_str with
  | Some d => d
  | None => now
  end.

Definition _parse_amount (amount_str : string) : pyfloat :=
  let clean_amount := re_sub [cls (one_of "$,")] EmptyString amount_str in
  match float_of_string clean_amount with
  | Some x => x
  | None => zero
  end.

Definition debit_keywords : list string :=
  ["withdrawal"; "purchase"; "payment"; "fee"; "charge"].
Definition credit_keywords : list string :=
  ["deposit"; "interest"; "refund"; "credit"; "salary"].

(** [for keyword in keywords: if keyword in line_lower: return ...] *)
Fixpoint any_keyword_in (keywords : list string) (line_lower : string) : bool :=
  match keywords with
  | [] => false
  | keyword :: keywords' =>
      if contains keyword line_lower then true
      else any_keyword_in keywords' line_lower
  end.

Definition _is_debit_transaction (amount_str line : string) : bool :=
  if startswith "-" amount_str || startswith "+" amount_str then
    startswith "-" amount_str
  else
    let line_lower := lower line in
    if any_keyword_in debit_keywords line_lower then true
    else if any_keyword_in credit_keywords line_lower then false
    else true.

(** [groups[n - 1]] *)
Definition group (gs : list string) (n : nat) : string :=
  nth (n - 1) gs EmptyString.

Definition _extract_transaction_data (now : datetime) (gs : list string)
    (p : pattern) (original_line : string) : Transaction :=
  let group_map := groups p in
  let date_str := group gs (g_date group_map) in
  let parsed_date := _parse_date now date_str in
  let description := strip (group gs (g_description group_map)) in
  let description := re_sub [plus is_space] " " description in
  let description := re_sub [cls (one_of "#*"); star is_word] EmptyString description in
  let description := strip description in
  let amount_str := group gs (g_amount group_map) in
  let amount := _parse_amount amount_str in
  let is_debit := _is_debit_transaction amount_str original_line in
  let balance :=
    match g_balance group_map with
    | Some b =>
        if b <=? List.length gs then _parse_amount (group gs b) else zero
    | None => zero
    end in
  mkTransaction (strftime_Y_m_d parsed_date) description (fabs amount)
    is_debit balance "uncategorized" zero "deterministic"
    original_line (name p) None None.

(** Nothing in [_extract_transaction_data] raises (both field parsers
    catch their own errors), so the first pattern found by [re.search]
    decides. *)
Definition _parse_single_transaction (now : datetime) (line : string)
  : option Transaction :=
  first_some
    (fun p =>
       match re_search (regex p) line with
       | Some gs => Some (_extract_transaction_data now gs p line)
       | None => None
       end)
    patterns.

Definition _parse_transaction_lines (now : datetime)
    (transaction_lines : list string) : list Transaction :=
  fold_left
    (fun parsed_transactions line =>
       match _parse_single_transaction now line with
       | Some parsed =>
           (parsed_transactions ++
            [set_transaction_id parsed
               ("txn_" ++ of_nat (List.length parsed_transactions + 1))])%list
       | None => parsed_transactions
       end)
    transaction_lines [].

(** The body of the loop of [_apply_basic_categorization]. *)
Definition categorize_one (h : heap) (txn : ref) : heap :=
  let (category, confidence) :=
    MerchantDatabase.categorize_transaction (description (h txn)) in
  if negb (String.eqb category "uncategorized") then
    update h txn (fun t => set_categorization t category confidence "deterministic")
  else h.

(** Updates the transactions in place and returns the same list. *)
Definition _apply_basic_categorization (transactions : list ref) (h : heap)
  : list ref * heap :=
  (transactions, fold_left categorize_one transactions h).

End DocumentProcessorAgent.

(** ** A state monad for code that updates the agent as it goes *)

Module State.

Definition M (S A : Type) : Type := S -> A * S.

Definition ret {S A : Type} (a : A) : M S A := fun s => (a, s).

Definition bind {S A B : Type} (m : M S A) (f : A -> M S B) : M S B :=
  fun s => let (a, s') := m s in f a s'.

Definition gets {S A : Type} (f : S -> A) : M S A := fun s => (f s, s).

Definition modify {S : Type} (f : S -> S) : M S unit := fun s => (tt, f s).

Declare Scope state_scope.
Delimit Scope state_scope with state.

Notation "x <- c ;; k" := (bind c (fun x => k))
  (at level 100, c at next level, right associativity) : state_scope.
Notation "c ;;; k" := (bind c (fun _ => k))
  (at level 100, right associativity) : state_scope.

End State.

(** ** agents/content_analyzer.py *)

(** The Pydantic model of one entry of the reply. *)
Module TransactionCategory.
Record t := Make {
  transaction_id : string;
  category : string;
  confidence : pyfloat;
  reasoning : string
}.
End TransactionCategory.

Module ContentAnalyzerAgent.
Import PyStr State.

(** What [json.loads] returns. The members of an object are kept in the
    order of the text; as in the dict built from them, the last member
    with a given key is the one that counts. *)
#[warning="-register-all"] Inductive json :=
| JNull
| JBool (b : bool)
| JNum (x : pyfloat)
| JStr (s : string)
| JArr (items : list json)
| JObj (members : list (string * json)).

(** [d.get(key)] on a decoded object *)
Definition member (key : string) (members : list (string * json)) : option json :=
  fold_left (fun found kv => if String.eqb (fst kv) key then Some (snd kv) else found)
            members None.

(** What [self.llm.make_call] does, seen from the agent: it raises, it
    returns [None] or the empty string, it returns text that [json.loads]
    rejects, or it returns text that [json.loads] decodes. *)
Inductive llm_reply :=
| Raised
| NoResponse
| Undecodable
| Decoded (j : json).

(** One element of [transaction_data]. *)
Record summary := Summary {
  s_id : string;
  s_description : string;
  s_amount : pyfloat;
  s_is_debit : bool;
  s_date : string
}.

(** The two prompts of a call: the category vocabulary of the system
    prompt and the batch of the user prompt. *)
Record request := Request {
  vocabulary : list (string * string);
  batch : list summary
}.

(** How Pydantic converts a decoded value to the scalar type of a
    field: a parameter, the library decides it. *)
Record conversions := Conversions {
  to_str : json -> option string;
  to_float : json -> option pyfloat
}.

(** The conversions that accept a value of exactly the JSON type. *)
Definition exact : conversions :=
  Conversions
    (fun j => match j with JStr s => Some s | _ => None end)
    (fun j => match j with JNum x => Some x | _ => None end).

(** The agent: the transactions it can reach, its call counter, and the
    requests its language model has received, oldest first. *)
Record agent := Agent {
  objs : heap;
  llm_calls_made : nat;
  requests : list request
}.

Definition valid_categories : list (string * string) :=
  [ ("food_dining", "Restaurants, coffee shops, food delivery, dining out");
    ("groceries", "Grocery stores, supermarkets, food shopping");
    ("transportation", "Gas stations, rideshare, public transit, car expenses");
    ("shopping", "Retail purchases, online shopping, clothing, electronics");
    ("bills_utilities", "Electric, water, internet, phone bills, utilities");
    ("entertainment", "Streaming services, movies, games, events, recreation");
    ("healthcare", "Medical, dental, pharmacy, health-related expenses");
    ("income", "Salary deposits, interest, refunds, incoming transfers");
    ("fees", "Bank fees, penalties, service charges, maintenance fees");
    ("other", "Transactions that don't clearly fit other categories") ].

(** The construction of a [TransactionCategory] from one decoded entry:
    the four fields are required, other members are ignored, and
    [confidence] must satisfy [ge=0, le=1]. *)
Definition validate_entry (conv : conversions) (entry : json)
  : option TransactionCategory.t :=
  match entry with
  | JObj members =>
      match member "transaction_id" members, member "category" members,
            member "confidence" members, member "reasoning" members with
      | Some i, Some c, Some x, Some r =>
          match to_str conv i, to_str conv c, to_float conv x, to_str conv r with
          | Some i, Some c, Some x, Some r =>
              if fge x zero && fle x one
              then Some (TransactionCategory.Make i c x r)
              else None
          | _, _, _, _ => None
          end
      | _, _, _, _ => None
      end
  | _ => None
  end.

Fixpoint validate_entries (conv : conversions) (entries : list json)
  : option (list TransactionCategory.t) :=
  match entries with
  | [] => Some []
  | e :: entries' =>
      match validate_entry conv e, validate_entries conv entries' with
      | Some c, Some cs => Some (c :: cs)
      | _, _ => None
      end
  end.

(** The [categorizations] of the [BatchCategorizationResponse] built from
    the decoded reply; [None] when the construction raises. *)
Definition validate_response (conv : conversions) (decoded : json)
  : option (list TransactionCategory.t) :=
  match decoded with
  | JObj members =>
      match member "categorizations" members with
      | Some (JArr entries) => validate_entries conv entries
      | _ => None
      end
  | _ => None
  end.

(** [enumerate(l)] *)
Definition enumerate {A : Type} (l : list A) : list (nat * A) :=
  combine (seq 0 (List.length l)) l.

(** [f"txn_{i}"] *)
Definition txn_id (i : nat) : string := "txn_" ++ of_nat i.

(** [{cat.transaction_id: cat for cat in categorizations}] *)
Definition cat_lookup_of (categorizations : list TransactionCategory.t)
  : gmap string TransactionCategory.t :=
  fold_left (fun m cat => <[TransactionCategory.transaction_id cat := cat]> m)
            categorizations ∅.

Definition apply_entry (cat : TransactionCategory.t) (t : Transaction) : Transaction :=
  set_reasoning
    (set_categorization t (TransactionCategory.category cat)
       (TransactionCategory.confidence cat) "llm")
    (TransactionCategory.reasoning cat).

Definition incomplete (t : Transaction) : Transaction :=
  set_reasoning (set_categorization t "other" (Finite 0.5) "fallback")
                "LLM response incomplete".

Definition unavailable (t : Transaction) : Transaction :=
  set_reasoning (set_categorization t "other" (Finite 0.3) "fallback")
                "LLM unavailable".

Definition _apply_llm_categorization (transactions : list ref)
    (categorizations : list TransactionCategory.t) (h : heap) : heap :=
  let cat_lookup := cat_lookup_of categorizations in
  fold_left
    (fun h itxn =>
       match cat_lookup !! txn_id (fst itxn) with
       | Some cat => update h (snd itxn) (apply_entry cat)
       | None => update h (snd itxn) incomplete
       end)
    (enumerate transactions) h.

Definition _apply_fallback_categorization (transactions : list ref) (h : heap)
  : heap :=
  fold_left (fun h txn => update h txn unavailable) transactions h.

Definition on_objs (f : heap -> heap) : M agent unit :=
  modify (fun a => Agent (f (objs a)) (llm_calls_made a) (requests a)).

(** [self.llm.make_call(user_prompt, system_prompt)] *)
Definition make_call (llm : request -> llm_reply) (req : request)
  : M agent llm_reply :=
  fun a => (llm req, Agent (objs a) (llm_calls_made a) (requests a ++ [req])%list).

Definition transaction_data_of (h : heap) (transactions : list ref) : list summary :=
  map (fun itxn =>
         let txn := h (snd itxn) in
         Summary (txn_id (fst itxn)) (description txn) (amount txn)
                 (is_debit txn) (date txn))
      (enumerate transactions).

(** Both the [else] branch and the [except] clause end in the fallback;
    the updated list is the list that was passed in. *)
Definition _batch_categorize_with_llm (conv : conversions)
    (llm : request -> llm_reply) (transactions : list ref)
  : M agent (list ref) :=
  (transaction_data <- gets (fun a => transaction_data_of (objs a) transactions) ;;
   response <- make_call llm (Request valid_categories transaction_data) ;;
   match response with
   | Decoded decoded =>
       match validate_response conv decoded with
       | Some categorizations =>
           on_objs (_apply_llm_categorization transactions categorizations) ;;;
           ret transactions
       | None =>
           on_objs (_apply_fallback_categorization transactions) ;;;
           ret transactions
       end
   | Raised | NoResponse | Undecodable =>
       on_objs (_apply_fallback_categorization transactions) ;;;
       ret transactions
   end)%state.

Definition is_uncategorized (h : heap) (t : ref) : bool :=
  String.eqb (category (h t)) "uncategorized".

Definition process (conv : conversions) (llm : request -> llm_reply)
    (transactions : list ref) : M agent (list ref) :=
  (h <- gets objs ;;
   let already_categorized := List.filter (fun t => negb (is_uncategorized h t)) transactions in
   let needs_llm := List.filter (is_uncategorized h) transactions in
   match needs_llm with
   | [] => ret already_categorized
   | _ :: _ =>
       llm_categorized <- _batch_categorize_with_llm conv llm needs_llm ;;
       modify (fun a => Agent (objs a) (llm_calls_made a + 1) (requests a)) ;;;
       ret (already_categorized ++ llm_categorized)%list
   end)%state.

End ContentAnalyzerAgent.

(** ** agents/document_processor.py: the line filter *)

Module LineFilter.
Import PyStr Re.

(** The characters of a literal, one after the other. *)
Definition lit (word : string) : list quant :=
  map chr (list_ascii_of_string word).

(** [$]: the end of the text, or the newline that ends it. *)
Definition at_end (rest : string) : bool :=
  match rest with
  | EmptyString => true
  | String c r => Ascii.eqb c "010" && match r with EmptyString => true | _ => false end
  end.

(** A pattern of [skip_patterns]: [^(w1|w2|...)], each alternative tried
    in turn at the start of the line, or [^...$], the whole line. *)
Inductive skip_pattern :=
| StartsWith (alternatives : list (list quant))
| Whole (qs : list quant).

Definition skip_patterns : list skip_pattern :=
  [ StartsWith [lit "account"; lit "statement"; lit "balance"; lit "date";
                lit "description"; lit "amount"];
    StartsWith [(lit "page " ++ [plus is_digit])%list; lit "statement period";
                lit "issue date"];
    StartsWith [lit "previous balance"; lit "ending balance"; lit "current balance"];
    StartsWith [lit "note:"; lit "total"; lit "summary"];
    StartsWith [lit "paid in"; lit "paid out"; lit "detail"; lit "payment type"];
    Whole [star is_space];
    Whole [plus (one_of "-")];
    Whole [plus (one_of "=")] ].

(** [bool(re.search(pattern, s))] for a pattern anchored at the start. *)
Definition found (p : skip_pattern) (s : string) : bool :=
  match p with
  | StartsWith alternatives =>
      existsb (fun qs =>
                 match match_quants qs s (fun _ _ => Some tt) with
                 | Some _ => true
                 | None => false
                 end) alternatives
  | Whole qs =>
      match match_quants qs s (fun _ rest => if at_end rest then Some tt else None) with
      | Some _ => true
      | None => false
      end
  end.

Definition _is_header_or_footer (line : string) : bool :=
  let line_lower := lower line in
  existsb (fun pattern => found pattern line_lower) skip_patterns.

(** [bool(re.search(p, s))] *)
Definition searched (ps : list piece) (s : string) : bool :=
  match re_search ps s with
  | Some _ => true
  | None => false
  end.

(** One or two digits, a slash or a dash, one or two digits, a slash or a
    dash, four digits. *)
Definition date_shape : list piece :=
  [ Plain (rep is_digit 1 (Some 2)); Plain (cls (one_of "/-"));
    Plain (rep is_digit 1 (Some 2)); Plain (cls (one_of "/-"));
    Plain (rep is_digit 4 (Some 4)) ].

(** An optional dollar sign, one or more digits or commas, an optional
    point, any number of digits. *)
Definition amount_shape : list piece :=
  [ Plain (opt (one_of "$"));
    Plain (plus DocumentProcessorAgent.digit_or_comma);
    Plain (opt (one_of ".")); Plain (star is_digit) ].

(** Three or more letters. *)
Definition letters_shape : list piece := [ Plain (rep is_alpha 3 None) ].

Definition _looks_like_transaction (line : string) : bool :=
  let has_date := searched date_shape line in
  let has_amount := searched amount_shape line in
  let has_description := searched letters_shape line in
  has_date && has_amount && has_description.

(** [text.split('\n')]: [cur] is the part of the current line already
    read. *)
Fixpoint split_from (cur : string) (text : string) : list string :=
  match text with
  | EmptyString => [cur]
  | String c text' =>
      if Ascii.eqb c "010" then cur :: split_from EmptyString text'
      else split_from (cur ++ String c EmptyString) text'
  end.

Definition split_lines (text : string) : list string := split_from EmptyString text.

Definition _find_transaction_lines (text : string) : list string :=
  fold_left
    (fun potential_transactions line =>
       let line := strip line in
       if String.eqb line EmptyString then potential_transactions
       else if _is_header_or_footer line then potential_transactions
       else if _looks_like_transaction line then
         (potential_transactions ++ [line])%list
       else potential_transactions)
    (split_lines text) [].

End LineFilter.

(** ** agents/document_processor.py: the entry point *)

Module DocumentProcessing.
Import PyStr PyDate DocumentProcessorAgent LineFilter.

(** What [_extract_text_from_pdf] comes back with: the text of the pages,
    or an exception, of which [process] keeps the message. *)
Inductive extraction :=
| Raises (message : string)
| Text (raw_text : string).

Record parsing_stats := Stats {
  lines_found : nat;
  successfully_parsed : nat;
  parse_success_rate : pyfloat;
  categorized_deterministically : nat;
  needs_llm : nat
}.

(** The dict [process] returns: its keys depend on the branch taken. *)
Inductive result :=
| Failure (error : string)
| NoLines (raw_text message : string)
| Processed (transactions : list ref) (total_transactions : nat)
    (raw_transaction_lines : list string) (stats : parsing_stats).

(** [result['success']] and [result['transactions']] *)
Definition success (r : result) : bool :=
  match r with
  | Failure _ => false
  | NoLines _ _ | Processed _ _ _ _ => true
  end.

Definition transactions_of (r : result) : list ref :=
  match r with
  | Failure _ | NoLines _ _ => []
  | Processed transactions _ _ _ => transactions
  end.

(** [len(a) / len(b)], for a list [b] that is not empty *)
Definition ratio (a b : nat) : pyfloat := Finite (Z.of_nat a # Pos.of_nat b).

Definition is_categorized (h : heap) (t : ref) : bool :=
  negb (String.eqb (category (h t)) "uncategorized").

(** The parsed transactions are new dicts: they are the objects 0, 1, ...
    of the heap the call leaves, in which [unallocated] stands at every
    other identity. Nothing after the extraction raises. *)
Definition process (now : datetime) (unallocated : Transaction) (pdf : extraction)
  : result * heap :=
  match pdf with
  | Raises message => (Failure message, heap_of [] unallocated)
  | Text raw_text =>
      if String.eqb (strip raw_text) EmptyString then
        (Failure "No text in PDF", heap_of [] unallocated)
      else
        let transaction_lines := _find_transaction_lines raw_text in
        match transaction_lines with
        | [] =>
            (NoLines raw_text
               "No transaction lines found - might need different parsing approach",
             heap_of [] unallocated)
        | _ :: _ =>
            let parsed_transactions := _parse_transaction_lines now transaction_lines in
            let '(categorized_transactions, h) :=
              _apply_basic_categorization
                (seq 0 (List.length parsed_transactions))
                (heap_of parsed_transactions unallocated) in
            (Processed categorized_transactions
               (List.length categorized_transactions)
               transaction_lines
               (Stats (List.length transaction_lines)
                      (List.length parsed_transactions)
                      (ratio (List.length parsed_transactions)
                             (List.length transaction_lines))
                      (List.length (List.filter (is_categorized h)
                                      categorized_transactions))
                      (List.length
                         (List.filter
                            (fun t => String.eqb (category (h t)) "uncategorized")
                            categorized_transactions))),
             h)
        end
  end.

End DocumentProcessing.

(** ** agents/analysis_generator.py: the insights asked of the language model *)

Module AnalysisGeneratorAgent.
Import PyStr LineFilter.

(** What [self.llm.make_call] does when the agent calls it: it raises, or
    it returns [None] or a text. *)
Inductive call :=
| Raises
| Returns (response : option string).

(** The agent: its call counter, and the number of calls its language
    model has received. *)
Record agent := Agent {
  llm_calls_made : nat;
  calls_received : nat
}.

(** [[insight.strip() for insight in response.split('\n') if insight.strip()]] *)
Definition insight_lines (response : string) : list string :=
  map strip
      (List.filter (fun insight => negb (String.eqb (strip insight) EmptyString))
                   (split_lines response)).

(** The summary, the categories and the patterns go into the prompt and
    nowhere else: the function is given what the call does instead.
    [has_llm] is the truth value of [self.llm]. *)
Definition _generate_ai_insights (has_llm : bool) (outcome : call) (a : agent)
  : option (list string) * agent :=
  if negb has_llm then (None, a)
  else
    let a' := Agent (llm_calls_made a) (calls_received a + 1) in
    match outcome with
    | Returns (Some response) =>
        if negb (String.eqb response EmptyString)
        then (Some (firstn 5 (insight_lines response)), a')
        else (None, a')
    | Returns None | Raises => (None, a')
    end.

(** Step 5 of [process]: the insights are asked for when the caller wants
    them and there is a model; the call is counted when the list that
    comes back is not empty. *)
Definition ai_insights_step (generate_ai_insights has_llm : bool) (outcome : call)
    (a : agent) : option (list string) * agent :=
  if generate_ai_insights && has_llm then
    let (ai_insights, a') := _generate_ai_insights has_llm outcome a in
    match ai_insights with
    | Some (_ :: _) =>
        (ai_insights, Agent (llm_calls_made a' + 1) (calls_received a'))
    | Some [] | None => (ai_insights, a')
    end
  else (None, a).

End AnalysisGeneratorAgent.

(** * The vocabulary of the specification *)

Import PyStr Re PyDate.

(** ** Direction inference *)

Section DirectionRule.

(** The priority order of the specification, as a relation between the
    two inputs and the direction. *)
Definition has_sign (amount_str : string) : Prop :=
  exists c rest, amount_str = String c rest /\ (c = "-"%char \/ c = "+"%char).

Definition mentions (keywords : list string) (line : string) : Prop :=
  exists keyword, In keyword keywords /\ contains keyword (lower line) = true.

Inductive direction_rule (amount_str line : string) : bool -> Prop :=
| by_sign c rest :
    amount_str = String c rest -> c = "-"%char \/ c = "+"%char ->
    direction_rule amount_str line (Ascii.eqb c "-")
| by_debit_keyword :
    ~ has_sign amount_str ->
    mentions ["withdrawal"; "purchase"; "payment"; "fee"; "charge"] line ->
    direction_rule amount_str line true
| by_credit_keyword :
    ~ has_sign amount_str ->
    ~ mentions ["withdrawal"; "purchase"; "payment"; "fee"; "charge"] line ->
    mentions ["deposit"; "interest"; "refund"; "credit"; "salary"] line ->
    direction_rule amount_str line false
| by_default :
    ~ has_sign amount_str ->
    ~ mentions ["withdrawal"; "purchase"; "payment"; "fee"; "charge"] line ->
    ~ mentions ["deposit"; "interest"; "refund"; "credit"; "salary"] line ->
    direction_rule amount_str line true.

End DirectionRule.

(** ** Merchant categorization *)

Section CategorizerRule.
Import MerchantDatabase.

(** Every (category, keyword) pair in the order the two loops visit
    them. *)
Definition keyword_order : list (string * string) :=
  flat_map (fun ck => map (pair (fst ck)) (snd ck)) merchant_keywords.

(** The description the keywords are looked up in. *)
Definition cleaned (description : string) : string :=
  _clean_description_for_matching (strip (lower description)).

Definition misses (desc_clean : string) (ck : string * string) : Prop :=
  contains (snd ck) desc_clean = false.

(** The tiered confidence table. *)
Inductive tier_rule (keyword : string) : pyfloat -> Prop :=
| tier_brand :
    In keyword ["starbucks"; "walmart"; "amazon"; "netflix"] ->
    tier_rule keyword (Finite 0.95)
| tier_store_type :
    In keyword ["gas station"; "grocery"; "pharmacy"] ->
    tier_rule keyword (Finite 0.90)
| tier_generic :
    In keyword ["restaurant"; "cafe"; "market"] ->
    tier_rule keyword (Finite 0.75)
| tier_default :
    ~ In keyword ["starbucks"; "walmart"; "amazon"; "netflix";
                  "gas station"; "grocery"; "pharmacy";
                  "restaurant"; "cafe"; "market"] ->
    tier_rule keyword (Finite 0.80).

(** First match wins; no match is uncategorized with confidence 0.0. *)
Inductive categorizer_rule (desc_clean : string) : string * pyfloat -> Prop :=
| first_keyword pre category keyword post conf :
    keyword_order = (pre ++ (category, keyword) :: post)%list ->
    Forall (misses desc_clean) pre ->
    contains keyword desc_clean = true ->
    tier_rule keyword conf ->
    categorizer_rule desc_clean (category, conf)
| no_keyword :
    Forall (misses desc_clean) keyword_order ->
    categorizer_rule desc_clean ("uncategorized", Finite 0).

(** The test and the result of the two loops for one pair. *)
Definition hit (desc_clean : string) (ck : string * string) : bool :=
  contains (snd ck) desc_clean.

Definition result_of (desc_clean : string) (ck : string * string)
  : string * pyfloat :=
  (fst ck, _calculate_confidence (snd ck) desc_clean).

End CategorizerRule.

(** ** Normalized dates *)

Section IsoDate.

(** Reads a date in the form YYYY-MM-DD: four digits, a dash, two
    digits, a dash, two digits. Any other text is refused. *)
Definition iso_fields (s : string) : option (N * N * N) :=
  match s with
  | String y1 (String y2 (String y3 (String y4 (String "-"
      (String m1 (String m2 (String "-"
        (String d1 (String d2 EmptyString))))))))) =>
      if forallb is_digit [y1; y2; y3; y4; m1; m2; d1; d2] then
        Some (int_of (String y1 (String y2 (String y3 (String y4 EmptyString)))),
              int_of (String m1 (String m2 EmptyString)),
              int_of (String d1 (String d2 EmptyString)))
      else None
  | _ => None
  end.

(** [p] holds of every number below [n]. *)
Definition all_below (p : N -> bool) (n : N) : bool :=
  N.peano_rect (fun _ => bool) true (fun k acc => p k && acc) n.

(** [zfill 4 y] is four digits that read back as [y]. *)
Definition four_digits (y : N) : bool :=
  match zfill 4 y with
  | String a (String b (String c (String d EmptyString))) as s =>
      forallb is_digit [a; b; c; d] && N.eqb (int_of s) y
  | _ => false
  end.

Definition two_digits (n : N) : bool :=
  match zfill 2 n with
  | String a (String b EmptyString) as s =>
      forallb is_digit [a; b] && N.eqb (int_of s) n
  | _ => false
  end.

(** The text before the first dash, and the text after it when there is
    a dash. *)
Fixpoint before_dash (s : string) : string * option string :=
  match s with
  | EmptyString => (EmptyString, None)
  | String c s' =>
      if Ascii.eqb c "-" then (EmptyString, Some s')
      else let (a, r) := before_dash s' in (String c a, r)
  end.

(** Reads a date written as the year, a dash, two digits, a dash, two
    digits, where the year is one digit or more. Any other text is
    refused. *)
Definition year_month_day (s : string) : option (N * N * N) :=
  match before_dash s with
  | (String y0 y',
     Some (String m1 (String m2 (String "-"
             (String d1 (String d2 EmptyString)))))) =>
      if str_all is_digit (String y0 y') && forallb is_digit [m1; m2; d1; d2] then
        Some (int_of (String y0 y'),
              int_of (String m1 (String m2 EmptyString)),
              int_of (String d1 (String d2 EmptyString)))
      else None
  | _ => None
  end.

(** [str(y)] is one digit or more, reads back as [y], and is [zfill 4 y]
    from 1000 on and shorter than that below. *)
Definition plain_year (y : N) : bool :=
  match of_N y with
  | EmptyString => false
  | s =>
      str_all is_digit s && N.eqb (int_of s) y
      && (if (1000 <=? y)%N then String.eqb s (zfill 4 y)
          else String.length s <=? 3)
  end.

End IsoDate.

(** ** The content analyzer *)

Section AnalyzerVocabulary.
Import ContentAnalyzerAgent.

(** The transactions a batch sends to the language model. *)
Definition needs_llm_of (h : heap) (transactions : list ref) : list ref :=
  List.filter (is_uncategorized h) transactions.

(** The one request the agent issues for a batch. *)
Definition request_for (h : heap) (needs_llm : list ref) : request :=
  Request valid_categories (transaction_data_of h needs_llm).

(** The categorizations the agent accepts from a reply; [None] when the
    call fails: it raised, returned nothing, or its text is not a valid
    response. *)
Definition accepted (conv : conversions) (reply : llm_reply)
  : option (list TransactionCategory.t) :=
  match reply with
  | Decoded decoded => validate_response conv decoded
  | Raised | NoResponse | Undecodable => None
  end.

(** The categorization a transaction carries. *)
Definition categorized_as (t : Transaction) (c : string) (x : pyfloat) (s : string)
  : Prop :=
  category t = c /\ confidence t = x /\ source t = s.

(** The constraint [ge=0, le=1] on the confidence of an entry. *)
Definition in_unit_interval (cat : TransactionCategory.t) : Prop :=
  fge (TransactionCategory.confidence cat) zero = true
  /\ fle (TransactionCategory.confidence cat) one = true.

(** A decoded entry whose confidence converts to a number outside
    [0, 1]. *)
Definition confidence_out_of_range (conv : conversions) (entry : json) : Prop :=
  exists members v x,
    entry = JObj members
    /\ member "confidence" members = Some v
    /\ to_float conv v = Some x
    /\ fge x zero && fle x one = false.

(** A decoded entry with its four fields, as the agent accepts it. *)
Definition entry_of (conv : conversions) (entry : json) (cat : TransactionCategory.t)
  : Prop :=
  exists members i c x r,
    entry = JObj members
    /\ member "transaction_id" members = Some i
    /\ to_str conv i = Some (TransactionCategory.transaction_id cat)
    /\ member "category" members = Some c
    /\ to_str conv c = Some (TransactionCategory.category cat)
    /\ member "confidence" members = Some x
    /\ to_float conv x = Some (TransactionCategory.confidence cat)
    /\ member "reasoning" members = Some r
    /\ to_str conv r = Some (TransactionCategory.reasoning cat).

(** What the loop of [_apply_llm_categorization] writes at position [i]. *)
Definition write_of (cat_lookup : gmap string TransactionCategory.t)
    (itxn : nat * ref) : Transaction -> Transaction :=
  match cat_lookup !! txn_id (fst itxn) with
  | Some cat => apply_entry cat
  | None => incomplete
  end.

(** The heap a batch leaves behind. *)
Definition heap_after (conv : conversions) (llm : request -> llm_reply)
    (needs_llm : list ref) (h : heap) : heap :=
  match accepted conv (llm (request_for h needs_llm)) with
  | Some categorizations => _apply_llm_categorization needs_llm categorizations h
  | None => _apply_fallback_categorization needs_llm h
  end.

(** *** Sample data *)

Definition sample_unknown : Transaction :=
  mkTransaction "2024-02-01" "ACME HOLDINGS" (Finite 12.5) true (Finite 100)
    "uncategorized" zero "deterministic"
    "02/01/2024 ACME HOLDINGS -$12.50 $100.00" "Chase Format" (Some "txn_1") None.

Definition sample_coffee : Transaction :=
  mkTransaction "2024-02-02" "STARBUCKS STORE" (Finite 5.67) true (Finite 94.33)
    "food_dining" (Finite 0.95) "deterministic"
    "02/02/2024 STARBUCKS STORE -$5.67 $94.33" "Chase Format" (Some "txn_2") None.

Definition sample_transfer : Transaction :=
  mkTransaction "2024-02-03" "ZELLE TO J SMITH" (Finite 40) true (Finite 54.33)
    "uncategorized" zero "deterministic"
    "02/03/2024 ZELLE TO J SMITH -$40.00 $54.33" "Chase Format" (Some "txn_3") None.

(** Three transactions, at the identities 0, 1 and 2. *)
Definition sample_agent : agent :=
  Agent (heap_of [sample_unknown; sample_coffee; sample_transfer] sample_coffee) 0 [].

(** The same, after the content analyzer categorized the two unknown
    ones. *)
Definition sample_agent_done : agent :=
  Agent (heap_of [apply_entry (TransactionCategory.Make "txn_0" "other" (Finite 0.6) "unclear")
                    sample_unknown;
                  sample_coffee;
                  incomplete sample_transfer] sample_coffee) 1 [].

Definition sample_entry (i c : string) (x : Q) (r : string) : json :=
  JObj [("transaction_id", JStr i); ("category", JStr c);
        ("confidence", JNum (Finite x)); ("reasoning", JStr r)].

Definition sample_reply (entries : list json) : llm_reply :=
  Decoded (JObj [("categorizations", JArr entries)]).

(** A model that answers for the first transaction only, with the given
    category and confidence. *)
Definition sample_llm (c : string) (x : Q) : request -> llm_reply :=
  fun _ => sample_reply [sample_entry "txn_0" c x "a guess"].

End AnalyzerVocabulary.

(** ** Captured groups *)

Section GroupClasses.

(** The characters the amount groups of the three patterns can hold. *)
Definition amount_char (c : ascii) : bool := one_of "-+$,." c || is_digit c.

Definition any_char (c : ascii) : bool := true.

(** Every quantifier of [qs] ranges over characters of class [P]. *)
Definition quants_within (P : ascii -> bool) (qs : list quant) : Prop :=
  Forall (fun q => forall c, q_class q c = true -> P c = true) qs.

(** The groups of [ps], in order, range over the classes [Ps]. *)
Fixpoint groups_within (ps : list piece) (Ps : list (ascii -> bool)) : Prop :=
  match ps with
  | [] => Ps = []
  | Plain _ :: ps' => groups_within ps' Ps
  | Group qs :: ps' =>
      match Ps with
      | P :: Ps' => quants_within P qs /\ groups_within ps' Ps'
      | [] => False
      end
  end.

Definition nonnegative (x : pyfloat) : Prop := fge x zero = true.

End GroupClasses.

(** ** What a pattern matches *)

Section PatternMeaning.

Definition within_max (hi : option nat) (n : nat) : Prop :=
  match hi with
  | Some h => n <= h
  | None => True
  end.

(** The text [a] is a repetition the quantifier allows. *)
Definition quant_accepts (q : quant) (a : string) : Prop :=
  str_all (q_class q) a = true
  /\ q_min q <= String.length a
  /\ within_max (q_max q) (String.length a).

(** The text [a] is made of one repetition for each quantifier. *)
Fixpoint quants_accept (qs : list quant) (a : string) : Prop :=
  match qs with
  | [] => a = EmptyString
  | q :: qs' => exists a1 a2, a = a1 ++ a2 /\ quant_accepts q a1 /\ quants_accept qs' a2
  end.

(** The pattern [ps] matches at the start of [s], capturing [caps] and
    leaving [rest]. *)
Fixpoint matches (ps : list piece) (s : string) (caps : list string) (rest : string)
  : Prop :=
  match ps with
  | [] => caps = [] /\ rest = s
  | Plain q :: ps' =>
      exists a s', s = a ++ s' /\ quant_accepts q a /\ matches ps' s' caps rest
  | Group qs :: ps' =>
      exists a s' caps',
        s = a ++ s' /\ quants_accept qs a /\ caps = a :: caps'
        /\ matches ps' s' caps' rest
  end.

(** [t] is what is left of [s] from some position on. *)
Definition suffix_of (t s : string) : Prop := exists pre, s = pre ++ t.

End PatternMeaning.

(** ** The line filter *)

Section LineFilterVocabulary.

(** The character [c] occurs in [s]. *)
Definition has_char (P : ascii -> bool) (s : string) : Prop :=
  exists pre c post, s = pre ++ String c post /\ P c = true.

(** ["\n".join(lines)] *)
Fixpoint join_lines (lines : list string) : string :=
  match lines with
  | [] => EmptyString
  | [l] => l
  | l :: ls => l ++ String "010" (join_lines ls)
  end.

(** What [_find_transaction_lines] keeps of a stripped line. *)
Definition kept (line : string) : bool :=
  negb (String.eqb line EmptyString)
  && negb (LineFilter._is_header_or_footer line)
  && LineFilter._looks_like_transaction line.

Definition not_newline (c : ascii) : bool := negb (Ascii.eqb c "010").

End LineFilterVocabulary.

(** ** Headers and footers *)

Section HeaderVocabulary.

(** The phrases a header or footer line starts with. *)
Definition header_words : list string :=
  [ "account"; "statement"; "balance"; "date"; "description"; "amount";
    "statement period"; "issue date";
    "previous balance"; "ending balance"; "current balance";
    "note:"; "total"; "summary";
    "paid in"; "paid out"; "detail"; "payment type" ].

(** One or more [c] and nothing else, but for a final newline. *)
Definition run_of (c : ascii) (s : string) : Prop :=
  exists a,
    a <> EmptyString /\ str_all (Ascii.eqb c) a = true
    /\ (s = a \/ s = a ++ String "010" EmptyString).

Definition starts_clean (s : string) : Prop :=
  match s with
  | String c _ => is_space c = false
  | EmptyString => True
  end.

End HeaderVocabulary.

(** ** Parsed transactions *)

Section ParserVocabulary.

(** The line gives a transaction. *)
Definition parses (now : datetime) (line : string) : bool :=
  match DocumentProcessorAgent._parse_single_transaction now line with
  | Some _ => true
  | None => false
  end.

(** The characters a cleaned description can hold: no digit, no dollar
    sign, no hash, no star, and no whitespace other than the space. *)
Definition clean_char (c : ascii) : bool :=
  DocumentProcessorAgent.not_dollar_digit c
  && (negb (is_space c) || Ascii.eqb c " ")
  && negb (one_of "#*" c).

(** The characters of a balance group. *)
Definition balance_char (c : ascii) : bool := one_of ",." c || is_digit c.

(** The state a transaction leaves the parser in. *)
Definition fresh (t : Transaction) : Prop :=
  category t = "uncategorized" /\ confidence t = zero
  /\ source t = "deterministic" /\ reasoning t = None.

(** The date the parser makes of a date group: what the first of the four
    formats that reads the group reads, and the current date when none
    does. *)
Definition date_of_group (now : datetime) (g : string) (d : datetime) : Prop :=
  (exists pre fmt post,
      ["%m/%d/%Y"; "%m-%d-%Y"; "%Y-%m-%d"; "%d-%b-%Y"] = (pre ++ fmt :: post)%list
      /\ Forall (fun f => strptime g f = None) pre
      /\ strptime g fmt = Some d)
  \/ (Forall (fun f => strptime g f = None)
             ["%m/%d/%Y"; "%m-%d-%Y"; "%Y-%m-%d"; "%d-%b-%Y"]
      /\ d = now).

(** [len] of a match of [qs], for [re.sub]. *)
Definition match_length (qs : list quant) (s : string) : option nat :=
  match_quants qs s (fun a _ => Some (String.length a)).

End ParserVocabulary.

(** ** Keywords that hide other keywords *)

Section ShadowVocabulary.
Import MerchantDatabase.

(** The pair the two loops stop at. *)
Definition winner (description : string) : option (string * string) :=
  List.find (hit (cleaned description)) keyword_order.

(** The pairs met after a pair whose keyword is a part of theirs. *)
Fixpoint shadowed_from (earlier later : list (string * string))
  : list (string * string) :=
  match later with
  | [] => []
  | ck :: later' =>
      let rest := shadowed_from (earlier ++ [ck])%list later' in
      if existsb (fun ck' => contains (snd ck') (snd ck)) earlier
      then ck :: rest else rest
  end.

Definition shadowed : list (string * string) := shadowed_from [] keyword_order.

(** No pair twice. *)
Fixpoint distinct (l : list (string * string)) : bool :=
  match l with
  | [] => true
  | x :: l' =>
      negb (existsb (fun y => String.eqb (fst x) (fst y) && String.eqb (snd x) (snd y)) l')
      && distinct l'
  end.

(** What the merchant stage makes of one transaction. *)
Definition keyword_categorized (t : Transaction) : Transaction :=
  let (category, confidence) := categorize_transaction (description t) in
  if negb (String.eqb category "uncategorized")
  then set_categorization t category confidence "deterministic"
  else t.

End ShadowVocabulary.

(** ** The batch of the content analyzer *)

Section BatchVocabulary.
Import ContentAnalyzerAgent.

(** The entry the lookup dict keeps for an identifier: the last one the
    response has for it. *)
Definition entry_for (categorizations : list TransactionCategory.t) (k : string)
  : option TransactionCategory.t :=
  List.find (fun cat => String.eqb (TransactionCategory.transaction_id cat) k)
            (rev categorizations).

(** What a request tells of a transaction, and what a transaction has to
    tell. *)
Definition sent (s : summary) : string * pyfloat * bool * string :=
  (s_description s, s_amount s, s_is_debit s, s_date s).

Definition sent_of (t : Transaction) : string * pyfloat * bool * string :=
  (description t, amount t, is_debit t, date t).

(** The state the analyzer leaves a transaction of the batch in. *)
Definition analyzed (t : Transaction) : Prop :=
  (source t = "llm" \/ source t = "fallback")
  /\ reasoning t <> None
  /\ fge (confidence t) zero = true /\ fle (confidence t) one = true.

(** A model that answers twice for the second transaction of the batch,
    and once for an identifier the batch does not have. *)
Definition sample_llm_twice : request -> llm_reply :=
  fun _ => sample_reply [ sample_entry "txn_1" "shopping" 0.7 "first";
                          sample_entry "txn_3" "income" 0.9 "by its own number";
                          sample_entry "txn_1" "fees" 0.6 "second" ].

End BatchVocabulary.

(** ** The insights of the language model *)

Section InsightVocabulary.

(** An insight as the agent keeps it: a line of the response, without the
    whitespace around it, and not empty. *)
Definition insight (i : string) : Prop :=
  i <> EmptyString /\ strip i = i /\ str_all not_newline i = true.

End InsightVocabulary.

(** * Properties *)

(** ** The library models on known inputs *)

Section LibraryChecks.
Import PyFloat DocumentProcessorAgent.

Example strip_both_ends : strip "  ab c  " = "ab c".
Proof. reflexivity. Qed.

Example lower_letters_only : lower "AbC #1" = "abc #1".
Proof. reflexivity. Qed.

Example sub_collapses_spaces : re_sub [plus is_space] " " "a  b   c" = "a b c".
Proof. reflexivity. Qed.

Example sub_removes_codes :
  re_sub [cls (one_of "#*"); star is_word] EmptyString "BURGER KING #4521 *x9 end"
  = "BURGER KING   end".
Proof. reflexivity. Qed.

(** The lazy description group stops at the first place from which the
    rest of the pattern matches, and keeps its inner spaces. *)
Example search_first_pattern :
  re_search (regex (nth 0 patterns (Pattern [] (GroupMap 0 0 0 None) EmptyString)))
            "x 12/01/2024   DUNKIN   DONUTS -$4.50 $1,851.92 99"
  = Some ["12/01/2024"; "DUNKIN   DONUTS"; "-$4.50"; "1,851.92"].
Proof. vm_compute. reflexivity. Qed.

(** A greedy quantifier gives characters back when the rest fails. *)
Example search_gives_back :
  re_search [Group [plus is_digit]; Group [cls is_digit; chr "."]] "1234."
  = Some ["123"; "4."].
Proof. vm_compute. reflexivity. Qed.

Example float_of_decimals :
  map float_of_string ["4.50"; "-4.50"; "1851.92"; "1."; ".5"; " 12 "; "1e3"]
  = [Some (Finite (Qred 4.5)); Some (Finite (Qred (-4.5))); Some (Finite (Qred 1851.92));
     Some (Finite 1); Some (Finite (Qred 0.5)); Some (Finite 12); Some (Finite 1000)].
Proof. vm_compute. reflexivity. Qed.

Example float_of_other_text :
  map float_of_string [EmptyString; "-"; "."; "12a"; "1__0"; "nan"; "-INF"]
  = [None; None; None; None; None; Some NaN; Some (Inf true)].
Proof. vm_compute. reflexivity. Qed.

Example strptime_month_first :
  map (fun s => strptime s "%m/%d/%Y")
      ["02/01/2024"; "2/1/2024"; "13/01/2024"; "02/30/2024"; "02/29/2024"; "1/1/20245"]
  = [Some (Datetime 2024 2 1); Some (Datetime 2024 2 1); None; None;
     Some (Datetime 2024 2 29); None].
Proof. vm_compute. reflexivity. Qed.

Example strptime_month_name :
  map (fun s => strptime s "%d-%b-%Y") ["01-FEB-2024"; "1-feb-2024"; "31-Apr-2024"]
  = [Some (Datetime 2024 2 1); Some (Datetime 2024 2 1); None].
Proof. vm_compute. reflexivity. Qed.

(** A line in the second format; without a sign the direction comes from
    the keywords of the line. *)
Example wells_fargo_line :
  _parse_single_transaction (Datetime 2026 11 3) "03-01-2024 PAYROLL DEPOSIT $1,200.00 $2,136.68"
  = Some (mkTransaction "2024-03-01" "PAYROLL DEPOSIT" (Finite 1200) false
            (Finite (Qred 2136.68)) "uncategorized" zero "deterministic"
            "03-01-2024 PAYROLL DEPOSIT $1,200.00 $2,136.68" "Wells Fargo Format"
            None None).
Proof. vm_compute. reflexivity. Qed.

End LibraryChecks.

(** ** Direction inference *)

Section Direction.
Import DocumentProcessorAgent.

Lemma startswith_char (c : ascii) (s : string) :
  startswith (String c EmptyString) s = true <-> exists rest, s = String c rest.
Proof.
  destruct s as [|b s]; simpl.
  - split; [discriminate | intros [rest H]; discriminate].
  - rewrite andb_true_r. split.
    + intros H. apply Ascii.eqb_eq in H. subst b. eauto.
    + intros [rest H]. injection H as -> _. apply Ascii.eqb_refl.
Qed.

Lemma sign_test (amount_str : string) :
  startswith "-" amount_str || startswith "+" amount_str = true
  <-> has_sign amount_str.
Proof.
  rewrite orb_true_iff, !startswith_char. unfold has_sign. split.
  - intros [[rest ->] | [rest ->]]; eauto 6.
  - intros (c & rest & -> & [-> | ->]); eauto.
Qed.

Lemma any_keyword_in_spec (keywords : list string) (line : string) :
  any_keyword_in keywords (lower line) = true <-> mentions keywords line.
Proof.
  unfold mentions. induction keywords as [|k ks IH]; simpl.
  - split; [discriminate | intros (k & [] & _)].
  - destruct (contains k (lower line)) eqn:E.
    + split; [eauto | reflexivity].
    + rewrite IH. split.
      * intros (k' & Hin & Hc). eauto.
      * intros (k' & [<- | Hin] & Hc); [congruence | eauto].
Qed.

Lemma direction_rule_holds (amount_str line : string) :
  direction_rule amount_str line (_is_debit_transaction amount_str line).
Proof.
  unfold _is_debit_transaction.
  destruct (startswith "-" amount_str || startswith "+" amount_str) eqn:Hs.
  - apply sign_test in Hs. destruct Hs as (c & rest & -> & Hc).
    replace (startswith "-" (String c rest)) with (Ascii.eqb c "-").
    + eapply by_sign; eauto.
    + simpl. rewrite andb_true_r. apply Ascii.eqb_sym.
  - assert (Hn : ~ has_sign amount_str)
      by (rewrite <- sign_test, Hs; discriminate).
    fold debit_keywords credit_keywords.
    destruct (any_keyword_in debit_keywords (lower line)) eqn:Hd.
    + apply by_debit_keyword; [assumption|]. now apply any_keyword_in_spec.
    + assert (Hnd : ~ mentions debit_keywords line)
        by (rewrite <- any_keyword_in_spec, Hd; discriminate).
      destruct (any_keyword_in credit_keywords (lower line)) eqn:Hc.
      * apply by_credit_keyword; try assumption. now apply any_keyword_in_spec.
      * assert (Hnc : ~ mentions credit_keywords line)
          by (rewrite <- any_keyword_in_spec, Hc; discriminate).
        apply by_default; assumption.
Qed.

Lemma direction_rule_functional (amount_str line : string) (b1 b2 : bool) :
  direction_rule amount_str line b1 -> direction_rule amount_str line b2 -> b1 = b2.
Proof.
  intros H1 H2.
  destruct H1 as [c rest E Hc | | | ]; destruct H2 as [c' rest' E' Hc' | | | ];
    try reflexivity; try contradiction;
    try (exfalso; unfold has_sign in *; eauto 6; fail).
  congruence.
Qed.

End Direction.

(** C7. The direction of a transaction follows the priority order explicit
    sign, debit keyword, credit keyword, default debit: the value
    [_is_debit_transaction] returns is the one, and the only one, that the
    rule of the specification allows. *)
Theorem is_debit_follows_priority_order :
  forall (amount_str line : string) (b : bool),
    DocumentProcessorAgent._is_debit_transaction amount_str line = b
    <-> direction_rule amount_str line b.
Proof.
  intros amount_str line b. split.
  - intros <-. apply direction_rule_holds.
  - intros H. eapply direction_rule_functional; [apply direction_rule_holds | exact H].
Qed.

(** ** Merchant categorization *)

Section Categorizer.
Import MerchantDatabase.

Lemma find_app_first {A : Type} (f : A -> bool) (l1 l2 : list A) :
  List.find f (l1 ++ l2)%list =
  match List.find f l1 with
  | Some x => Some x
  | None => List.find f l2
  end.
Proof.
  induction l1 as [|x l1 IH]; simpl; [reflexivity|].
  destruct (f x); [reflexivity | exact IH].
Qed.

Lemma find_split {A : Type} (f : A -> bool) (l : list A) (x : A) :
  List.find f l = Some x ->
  exists pre post,
    l = (pre ++ x :: post)%list /\ Forall (fun y => f y = false) pre /\ f x = true.
Proof.
  induction l as [|y l IH]; simpl; [discriminate|].
  destruct (f y) eqn:E.
  - intros [= ->]. exists [], l. repeat split; [constructor | assumption].
  - intros H. destruct (IH H) as (pre & post & -> & Hpre & Hx).
    exists (y :: pre), post. repeat split; [constructor; assumption | assumption].
Qed.

Lemma find_none_all {A : Type} (f : A -> bool) (l : list A) :
  List.find f l = None -> Forall (fun y => f y = false) l.
Proof.
  induction l as [|y l IH]; simpl; [constructor|].
  destruct (f y) eqn:E; [discriminate|]. intros H. constructor; auto.
Qed.

(** A list has at most one first hit. *)
Lemma first_hit_unique {A : Type} (P : A -> Prop) (pre pre' post post' : list A)
    (x x' : A) :
  (pre ++ x :: post)%list = (pre' ++ x' :: post')%list ->
  Forall (fun y => ~ P y) pre -> P x ->
  Forall (fun y => ~ P y) pre' -> P x' ->
  x = x'.
Proof.
  revert pre'. induction pre as [|y pre IH]; intros [|y' pre'] E Hpre Hx Hpre' Hx';
    simpl in E; injection E as E1 E2; subst.
  - reflexivity.
  - inversion Hpre'; subst. contradiction.
  - inversion Hpre; subst. contradiction.
  - inversion Hpre; inversion Hpre'; subst. eapply IH; eauto.
Qed.

Lemma match_keywords_find (category : string) (keywords : list string) (d : string) :
  match_keywords category keywords d =
  option_map (result_of d) (List.find (hit d) (map (pair category) keywords)).
Proof.
  induction keywords as [|k ks IH]; simpl; [reflexivity|].
  unfold hit at 1. simpl. destruct (contains k d); [reflexivity | exact IH].
Qed.

Lemma match_categories_find (db : list (string * list string)) (d : string) :
  match_categories db d =
  option_map (result_of d)
    (List.find (hit d) (flat_map (fun ck => map (pair (fst ck)) (snd ck)) db)).
Proof.
  induction db as [|[c ks] db IH]; simpl; [reflexivity|].
  rewrite find_app_first, match_keywords_find.
  destruct (List.find (hit d) (map (pair c) ks)); simpl; [reflexivity | exact IH].
Qed.

Lemma in_list_In (x : string) (l : list string) :
  in_list x l = true <-> In x l.
Proof.
  unfold in_list. rewrite existsb_exists. split.
  - intros (y & Hy & E). apply String.eqb_eq in E. now subst.
  - intros H. exists x. split; [assumption | apply String.eqb_refl].
Qed.

Lemma tier_rule_holds (keyword d : string) :
  tier_rule keyword (_calculate_confidence keyword d).
Proof.
  unfold _calculate_confidence.
  destruct (in_list keyword ["starbucks"; "walmart"; "amazon"; "netflix"]) eqn:E1.
  { apply tier_brand. now apply in_list_In. }
  destruct (in_list keyword ["gas station"; "grocery"; "pharmacy"]) eqn:E2.
  { apply tier_store_type. now apply in_list_In. }
  destruct (in_list keyword ["restaurant"; "cafe"; "market"]) eqn:E3.
  { apply tier_generic. now apply in_list_In. }
  apply tier_default. intros H.
  change (In keyword (["starbucks"; "walmart"; "amazon"; "netflix"]
                      ++ ["gas station"; "grocery"; "pharmacy"]
                      ++ ["restaurant"; "cafe"; "market"])%list) in H.
  rewrite !in_app_iff, <- !in_list_In in H. rewrite E1, E2, E3 in H.
  intuition discriminate.
Qed.

Lemma tier_rule_functional (keyword : string) (x y : pyfloat) :
  tier_rule keyword x -> tier_rule keyword y -> x = y.
Proof.
  intros Hx Hy.
  destruct Hx as [H1|H1|H1|H1]; destruct Hy as [H2|H2|H2|H2];
    try reflexivity; exfalso; simpl in H1, H2;
    repeat match goal with
           | H : _ \/ _ |- _ => destruct H
           | H : False |- _ => destruct H
           | H : ~ _ |- _ => apply H; clear H
           end;
    subst; try discriminate; auto 12.
Qed.

Lemma categorizer_rule_holds (description : string) :
  categorizer_rule (cleaned description) (categorize_transaction description).
Proof.
  unfold categorize_transaction. fold (cleaned description).
  rewrite match_categories_find. fold keyword_order.
  destruct (List.find (hit (cleaned description)) keyword_order) as [[c k]|] eqn:E; simpl.
  - destruct (find_split _ _ _ E) as (pre & post & Hl & Hpre & Hx).
    eapply first_keyword; eauto. apply tier_rule_holds.
  - apply no_keyword. now apply find_none_all.
Qed.

Lemma categorizer_rule_functional (d : string) (r1 r2 : string * pyfloat) :
  categorizer_rule d r1 -> categorizer_rule d r2 -> r1 = r2.
Proof.
  assert (Hmiss : forall l, Forall (misses d) l ->
                            Forall (fun ck => ~ hit d ck = true) l).
  { intros l H. eapply List.Forall_impl; [|exact H].
    unfold misses, hit. intros ck ->. discriminate. }
  intros H1 H2.
  destruct H1 as [pre c k post x E Hpre Hk Hx | Hall];
    destruct H2 as [pre' c' k' post' x' E' Hpre' Hk' Hx' | Hall'].
  - rewrite E in E'.
    assert (Heq : (c, k) = (c', k')).
    { eapply (first_hit_unique (fun ck => hit d ck = true)); eauto. }
    injection Heq as -> ->. f_equal. eapply tier_rule_functional; eauto.
  - exfalso. rewrite E in Hall'. apply Forall_app in Hall' as [_ Hall'].
    inversion Hall' as [|? ? Hm _]; subst. unfold misses in Hm. simpl in Hm. congruence.
  - exfalso. rewrite E' in Hall. apply Forall_app in Hall as [_ Hall].
    inversion Hall as [|? ? Hm _]; subst. unfold misses in Hm. simpl in Hm. congruence.
  - reflexivity.
Qed.

End Categorizer.

(** C6. The merchant categorizer returns the category of the first keyword,
    in the order of the categories and of the keywords within each, that is
    a substring of the cleaned description, with the confidence of the
    tiered table (0.95 for the four brand keywords, 0.90 for the three
    store types, 0.75 for the three generic words, 0.80 otherwise), and
    ('uncategorized', 0.0) when no keyword matches; STARBUCKS STORE #1234
    is cleaned to starbucks store and is food_dining with confidence
    0.95. *)
Theorem categorizer_first_keyword_wins :
  (forall (description : string) (r : string * pyfloat),
      MerchantDatabase.categorize_transaction description = r
      <-> categorizer_rule (cleaned description) r)
  /\ cleaned "STARBUCKS STORE #1234" = "starbucks store"
  /\ MerchantDatabase.categorize_transaction "STARBUCKS STORE #1234"
     = ("food_dining", Finite 0.95).
Proof.
  split; [|split].
  - intros description r. split.
    + intros <-. apply categorizer_rule_holds.
    + intros H. eapply categorizer_rule_functional;
        [apply categorizer_rule_holds | exact H].
  - vm_compute. reflexivity.
  - vm_compute. reflexivity.
Qed.

(** ** The scenario line of the transaction parser *)

(** C5. The line of the scenario matches none of the three format patterns:
    the description groups exclude digits, so the store number 8901 has to
    be the amount and the balance group then meets the sign of -$4.50. The
    parser returns [None] and the line is dropped. *)
Theorem scenario_line_is_not_parsed :
  forall now : datetime,
    DocumentProcessorAgent._parse_single_transaction now
      "02/01/2024 DUNKIN DONUTS 8901 -$4.50 $1,851.92" = None.
Proof. intros now. vm_compute. reflexivity. Qed.

(** The same line without the store number gives the transaction of the
    scenario, through the first pattern. *)
Lemma scenario_line_without_store_number :
  forall now : datetime,
    DocumentProcessorAgent._parse_single_transaction now
      "02/01/2024 DUNKIN DONUTS -$4.50 $1,851.92"
    = Some (mkTransaction "2024-02-01" "DUNKIN DONUTS" (Finite (Qred 4.50)) true
              (Finite (Qred 1851.92)) "uncategorized" zero "deterministic"
              "02/01/2024 DUNKIN DONUTS -$4.50 $1,851.92" "Chase Format"
              None None).
Proof. intros now. vm_compute. reflexivity. Qed.

(** ** Normalized dates *)

Section Dates.
Import DocumentProcessorAgent.

Lemma append_nil_r (s : string) : s ++ EmptyString = s.
Proof.
  induction s as [|c s IH]; cbv [String.append]; fold String.append;
    [reflexivity | now rewrite IH].
Qed.

Lemma append_cons (c : ascii) (a b : string) : String c a ++ b = String c (a ++ b).
Proof. reflexivity. Qed.

Lemma append_nil_l (s : string) : EmptyString ++ s = s.
Proof. reflexivity. Qed.

Lemma append_assoc (a b c : string) : (a ++ b) ++ c = a ++ (b ++ c).
Proof.
  induction a as [|x a IH]; [reflexivity|].
  rewrite !append_cons. now rewrite IH.
Qed.

Lemma length_append (a b : string) :
  String.length (a ++ b) = String.length a + String.length b.
Proof.
  induction a as [|x a IH]; [reflexivity|].
  rewrite append_cons. simpl. now rewrite IH.
Qed.

Lemma first_some_split {A B : Type} (f : A -> option B) (l : list A) (y : B) :
  first_some f l = Some y ->
  exists pre x post,
    l = (pre ++ x :: post)%list /\ Forall (fun z => f z = None) pre /\ f x = Some y.
Proof.
  induction l as [|x l IH]; simpl; [discriminate|].
  destruct (f x) as [y'|] eqn:E.
  - intros [= ->]. exists [], x, l. repeat split; [constructor | assumption].
  - intros H. destruct (IH H) as (pre & x' & post & -> & Hpre & Hx).
    exists (x :: pre), x', post. repeat split; [constructor; assumption | assumption].
Qed.

Lemma first_some_none {A B : Type} (f : A -> option B) (l : list A) :
  first_some f l = None -> Forall (fun z => f z = None) l.
Proof.
  induction l as [|x l IH]; simpl; [constructor|].
  destruct (f x) eqn:E; [discriminate|]. intros H. constructor; auto.
Qed.

Lemma all_below_spec (p : N -> bool) (n : N) :
  all_below p n = true -> forall k, (k < n)%N -> p k = true.
Proof.
  unfold all_below. induction n as [|n IH] using N.peano_ind.
  - intros _ k Hk. lia.
  - rewrite N.peano_rect_succ. intros H k Hk.
    apply andb_true_iff in H as [Hn Hrest].
    destruct (N.eq_dec k n) as [->|Hne]; [assumption|].
    apply IH; [assumption | lia].
Qed.

Lemma four_digits_below_10000 : all_below four_digits 10000 = true.
Proof. vm_compute. reflexivity. Qed.

Lemma two_digits_below_100 : all_below two_digits 100 = true.
Proof. vm_compute. reflexivity. Qed.

Lemma zfill_4 (y : N) :
  (y < 10000)%N ->
  exists a b c d,
    zfill 4 y = String a (String b (String c (String d EmptyString)))
    /\ forallb is_digit [a; b; c; d] = true
    /\ int_of (String a (String b (String c (String d EmptyString)))) = y.
Proof.
  intros H. pose proof (all_below_spec _ _ four_digits_below_10000 y H) as Hp.
  unfold four_digits in Hp.
  destruct (zfill 4 y) as [|a [|b [|c [|d [|? ?]]]]]; try discriminate.
  apply andb_true_iff in Hp as [Hd He]. apply N.eqb_eq in He.
  exists a, b, c, d. auto.
Qed.

Lemma zfill_2 (n : N) :
  (n < 100)%N ->
  exists a b,
    zfill 2 n = String a (String b EmptyString)
    /\ forallb is_digit [a; b] = true
    /\ int_of (String a (String b EmptyString)) = n.
Proof.
  intros H. pose proof (all_below_spec _ _ two_digits_below_100 n H) as Hp.
  unfold two_digits in Hp.
  destruct (zfill 2 n) as [|a [|b [|? ?]]]; try discriminate.
  apply andb_true_iff in Hp as [Hd He]. apply N.eqb_eq in He.
  exists a, b. auto.
Qed.

Lemma days_in_month_le (y m : N) : (days_in_month y m <= 31)%N.
Proof.
  unfold days_in_month.
  repeat match goal with
         | |- context [match ?x with _ => _ end] => destruct x
         end; lia.
Qed.

Lemma valid_date_bounds (y m d : N) :
  valid_date y m d = true -> (y < 10000 /\ m < 100 /\ d < 100)%N.
Proof.
  unfold valid_date. rewrite !andb_true_iff, !N.leb_le.
  pose proof (days_in_month_le y m). lia.
Qed.

Lemma strptime_valid (s fmt : string) (d : datetime) :
  strptime s fmt = Some d -> valid_date (year d) (month d) (day d) = true.
Proof.
  unfold strptime. destruct (parse_format fmt) as [ds|]; [|discriminate].
  destruct (match_directives ds _ s) as [[d' [|? ?]]|]; try discriminate.
  destruct (valid_date (year d') (month d') (day d')) eqn:E; [|discriminate].
  intros [= <-]. exact E.
Qed.

Lemma plain_year_below_10000 : all_below plain_year 10000 = true.
Proof. vm_compute. reflexivity. Qed.

Lemma plain_year_spec (y : N) :
  (y < 10000)%N ->
  exists y0 y',
    of_N y = String y0 y'
    /\ str_all is_digit (String y0 y') = true
    /\ int_of (String y0 y') = y
    /\ ((1000 <= y)%N -> of_N y = zfill 4 y)
    /\ ((y < 1000)%N -> String.length (of_N y) <= 3).
Proof.
  intros H. pose proof (all_below_spec _ _ plain_year_below_10000 y H) as Hp.
  unfold plain_year in Hp. destruct (of_N y) as [|y0 y'] eqn:E; [discriminate|].
  apply andb_true_iff in Hp as [Hp Hlen]. apply andb_true_iff in Hp as [Hd Hi].
  apply N.eqb_eq in Hi. exists y0, y'. repeat split; try assumption.
  - intros Hy. apply N.leb_le in Hy. rewrite Hy in Hlen. now apply String.eqb_eq.
  - intros Hy. apply N.leb_gt in Hy. rewrite Hy in Hlen. now apply Nat.leb_le.
Qed.

Lemma digit_is_no_dash (c : ascii) : is_digit c = true -> Ascii.eqb c "-" = false.
Proof. destruct c as [[] [] [] [] [] [] [] []]; try discriminate; reflexivity. Qed.

Lemma before_dash_digits (a r : string) :
  str_all is_digit a = true -> before_dash (a ++ String "-" r) = (a, Some r).
Proof.
  induction a as [|c a IH]; [reflexivity|].
  simpl. intros H. apply andb_true_iff in H as [Hc Ha].
  change (String c a ++ String "-" r) with (String c (a ++ String "-" r)).
  cbn [before_dash]. now rewrite (digit_is_no_dash c Hc), (IH Ha).
Qed.

(** A date the constructor accepts is printed as its year, a dash, its
    month in two digits, a dash and its day in two digits, and reads back
    as itself. *)
Lemma strftime_reads_back (d : datetime) :
  valid_date (year d) (month d) (day d) = true ->
  year_month_day (strftime_Y_m_d d) = Some (year d, month d, day d).
Proof.
  intros Hv. apply valid_date_bounds in Hv as (Hy & Hm & Hd).
  destruct (plain_year_spec _ Hy) as (y0 & y' & Ey & Dy & Iy & _ & _).
  destruct (zfill_2 _ Hm) as (m1 & m2 & Em & Dm & Im).
  destruct (zfill_2 _ Hd) as (d1 & d2 & Ed & Dd & Id).
  unfold strftime_Y_m_d, year_month_day. rewrite Ey, Em, Ed.
  change ("-" ++ String m1 (String m2 EmptyString)
              ++ "-" ++ String d1 (String d2 EmptyString))
    with (String "-" (String m1 (String m2 (String "-"
            (String d1 (String d2 EmptyString)))))).
  rewrite (before_dash_digits _ _ Dy), Dy.
  cbn [forallb] in Dm, Dd |- *.
  repeat match goal with
         | H : _ && _ = true |- _ => apply andb_true_iff in H as [? ?]
         end.
  repeat match goal with
         | H : is_digit _ = true |- _ => rewrite H; clear H
         end.
  cbn [andb]. rewrite Iy, Im, Id. reflexivity.
Qed.

(** From the year 1000 on the text is YYYY-MM-DD. *)
Lemma strftime_iso (d : datetime) :
  valid_date (year d) (month d) (day d) = true ->
  (1000 <= year d)%N ->
  iso_fields (strftime_Y_m_d d) = Some (year d, month d, day d).
Proof.
  intros Hv H1000. apply valid_date_bounds in Hv as (Hy & Hm & Hd).
  destruct (plain_year_spec _ Hy) as (_ & _ & _ & _ & _ & Epad & _).
  destruct (zfill_4 _ Hy) as (y1 & y2 & y3 & y4 & Ey & Dy & Iy).
  destruct (zfill_2 _ Hm) as (m1 & m2 & Em & Dm & Im).
  destruct (zfill_2 _ Hd) as (d1 & d2 & Ed & Dd & Id).
  unfold strftime_Y_m_d. rewrite (Epad H1000), Ey, Em, Ed.
  cbv [String.append]. cbn [iso_fields].
  cbn [forallb] in Dy, Dm, Dd |- *.
  repeat match goal with
         | H : _ && _ = true |- _ => apply andb_true_iff in H as [? ?]
         end.
  repeat match goal with
         | H : is_digit _ = true |- _ => rewrite H; clear H
         end.
  cbn [andb]. rewrite Iy, Im, Id. reflexivity.
Qed.



End Dates.




(** ** Updating transactions in place *)

Section InPlace.

Lemma update_same (h : heap) (r : ref) (f : Transaction -> Transaction) :
  update h r f r = f (h r).
Proof. unfold update. now rewrite Nat.eqb_refl. Qed.

Lemma update_other (h : heap) (r r' : ref) (f : Transaction -> Transaction) :
  r' <> r -> update h r f r' = h r'.
Proof. intros H. unfold update. apply Nat.eqb_neq in H. now rewrite H. Qed.

Lemma payload_set_categorization (t : Transaction) c x s :
  payload (set_categorization t c x s) = payload t.
Proof. reflexivity. Qed.

Lemma payload_set_reasoning (t : Transaction) r :
  payload (set_reasoning t r) = payload t.
Proof. reflexivity. Qed.

Context {A : Type} (target : A -> ref) (write : A -> Transaction -> Transaction).

(** A loop that rewrites, for each element in turn, the transaction the
    element designates. *)
Local Abbreviation loop ys h :=
  (fold_left (fun h0 y0 => update h0 (target y0) (write y0)) ys h).

(** An object no element designates is left as it was. *)
Lemma loop_untouched (ys : list A) (h : heap) (r : ref) :
  (forall y, In y ys -> target y <> r) -> loop ys h r = h r.
Proof.
  revert h. induction ys as [|y ys IH]; intros h H; simpl; [reflexivity|].
  rewrite IH by (intros y' Hy'; apply H; now right).
  apply update_other. intros E. apply (H y); [now left | now symmetry].
Qed.

(** What every write to an object establishes holds of it in the end. *)
Lemma loop_last_write (Q : Transaction -> Prop) (ys : list A) (h : heap) (r : ref) :
  (exists y, In y ys /\ target y = r) ->
  (forall y t, In y ys -> target y = r -> Q (write y t)) ->
  Q (loop ys h r).
Proof.
  revert h. induction ys as [|y ys IH]; intros h (y0 & Hin & Ht) HQ.
  - destruct Hin.
  - simpl.
    destruct (existsb (fun y' => Nat.eqb (target y') r) ys) eqn:E.
    + apply existsb_exists in E as (y' & Hy' & E'). apply Nat.eqb_eq in E'.
      apply IH; [eauto|]. intros y1 t H1 H2. apply HQ; [now right | assumption].
    + assert (Hno : forall y', In y' ys -> target y' <> r).
      { intros y' Hy' Ey'.
        assert (Hex : existsb (fun y' => Nat.eqb (target y') r) ys = true).
        { apply existsb_exists. exists y'. split; [assumption | now apply Nat.eqb_eq]. }
        congruence. }
      rewrite loop_untouched by assumption.
      destruct Hin as [<- | Hin]; [|exfalso; eapply Hno; eauto].
      rewrite Ht, update_same. apply HQ; [now left | assumption].
Qed.

(** What every write preserves is preserved by the loop. *)
Lemma loop_preserves {B : Type} (view : Transaction -> B) (ys : list A) (h : heap)
    (r : ref) :
  (forall y t, view (write y t) = view t) ->
  view (loop ys h r) = view (h r).
Proof.
  intros Hw. revert h. induction ys as [|y ys IH]; intros h; simpl;
    [reflexivity|].
  rewrite IH. unfold update. destruct (Nat.eqb r (target y)); [apply Hw | reflexivity].
Qed.

End InPlace.

(** ** The content analyzer *)

Section Analyzer.
Import ContentAnalyzerAgent.

Lemma fold_left_pointwise {A B : Type} (f g : A -> B -> A) (l : list B) (a : A) :
  (forall a b, f a b = g a b) -> fold_left f l a = fold_left g l a.
Proof.
  intros H. revert a. induction l as [|b l IH]; intros a; simpl; [reflexivity|].
  now rewrite H, IH.
Qed.

Lemma llm_categorization_loop (transactions : list ref)
    (categorizations : list TransactionCategory.t) (h : heap) :
  _apply_llm_categorization transactions categorizations h
  = fold_left (fun h0 y0 => update h0 (snd y0) (write_of (cat_lookup_of categorizations) y0))
              (enumerate transactions) h.
Proof.
  unfold _apply_llm_categorization. apply fold_left_pointwise.
  intros h0 y0. unfold write_of.
  destruct (cat_lookup_of categorizations !! txn_id (fst y0)); reflexivity.
Qed.

Lemma fallback_categorization_loop (transactions : list ref) (h : heap) :
  _apply_fallback_categorization transactions h
  = fold_left (fun h0 y0 => update h0 (id y0) ((fun _ => unavailable) y0))
              transactions h.
Proof. reflexivity. Qed.

Lemma cat_lookup_from (cats : list TransactionCategory.t)
    (m : gmap string TransactionCategory.t) (k : string) (cat : TransactionCategory.t) :
  fold_left (fun m c => <[TransactionCategory.transaction_id c := c]> m) cats m !! k
  = Some cat ->
  m !! k = Some cat \/ (In cat cats /\ TransactionCategory.transaction_id cat = k).
Proof.
  revert m. induction cats as [|c cs IH]; intros m H; simpl in H; [now left|].
  apply IH in H as [H | [Hin Hk]].
  - destruct (decide (TransactionCategory.transaction_id c = k)) as [E | E].
    + rewrite E, lookup_insert_eq in H. injection H as <-.
      right. split; [now left | assumption].
    + rewrite lookup_insert_ne in H by assumption. now left.
  - right. split; [now right | assumption].
Qed.

(** An entry found in the lookup dict is an entry of the response with
    that identifier. *)
Lemma cat_lookup_sound (cats : list TransactionCategory.t) (k : string)
    (cat : TransactionCategory.t) :
  cat_lookup_of cats !! k = Some cat ->
  In cat cats /\ TransactionCategory.transaction_id cat = k.
Proof.
  intros H. apply cat_lookup_from in H as [H | H]; [|assumption].
  rewrite lookup_empty in H. discriminate.
Qed.

Lemma cat_lookup_absent (cats : list TransactionCategory.t) (k : string) :
  ~ In k (map TransactionCategory.transaction_id cats) ->
  cat_lookup_of cats !! k = None.
Proof.
  intros H. destruct (cat_lookup_of cats !! k) as [cat|] eqn:E; [|reflexivity].
  apply cat_lookup_sound in E as [Hin <-]. exfalso. apply H. now apply in_map.
Qed.

Lemma in_combine_seq {A : Type} (l : list A) (s i : nat) (x : A) :
  In (i, x) (combine (seq s (List.length l)) l) ->
  s <= i /\ nth_error l (i - s) = Some x.
Proof.
  revert s. induction l as [|y l IH]; intros s H; simpl in H; [destruct H|].
  destruct H as [[= <- <-] | H].
  - split; [lia|]. now rewrite Nat.sub_diag.
  - apply IH in H as [Hle Hn]. split; [lia|].
    replace (i - s) with (S (i - S s)) by lia. exact Hn.
Qed.

Lemma in_enumerate {A : Type} (l : list A) (i : nat) (x : A) :
  In (i, x) (enumerate l) -> nth_error l i = Some x.
Proof.
  intros H. apply in_combine_seq in H as [_ H]. now rewrite Nat.sub_0_r in H.
Qed.

Lemma enumerate_covers {A : Type} (l : list A) (x : A) :
  In x l -> exists i, In (i, x) (enumerate l).
Proof.
  unfold enumerate. generalize 0 as s.
  induction l as [|y l IH]; intros s H; [destruct H|].
  destruct H as [-> | H].
  - exists s. now left.
  - destruct (IH (S s) H) as [i Hi]. exists i. now right.
Qed.

Lemma snd_enumerate {A : Type} (l : list A) (y : nat * A) :
  In y (enumerate l) -> In (snd y) l.
Proof.
  destruct y as [i x]. intros H. apply in_enumerate in H.
  eapply nth_error_In; eauto.
Qed.

(** The batch call: the list comes back as it was passed, the heap is
    rewritten, and exactly one request joins the log. *)
Lemma batch_eq (conv : conversions) (llm : request -> llm_reply)
    (needs_llm : list ref) (a : agent) :
  _batch_categorize_with_llm conv llm needs_llm a
  = (needs_llm,
     Agent (heap_after conv llm needs_llm (objs a)) (llm_calls_made a)
           (requests a ++ [request_for (objs a) needs_llm])%list).
Proof.
  unfold _batch_categorize_with_llm, heap_after, accepted, request_for,
    State.bind, State.gets, State.ret, make_call, on_objs, State.modify.
  cbn [objs llm_calls_made requests].
  destruct (llm _) as [| | |decoded]; try reflexivity.
  destruct (validate_response conv decoded); reflexivity.
Qed.

Lemma process_eq (conv : conversions) (llm : request -> llm_reply)
    (transactions : list ref) (a : agent) :
  process conv llm transactions a
  = match needs_llm_of (objs a) transactions with
    | [] => (List.filter (fun t => negb (is_uncategorized (objs a) t)) transactions, a)
    | _ :: _ =>
        ((List.filter (fun t => negb (is_uncategorized (objs a) t)) transactions
          ++ needs_llm_of (objs a) transactions)%list,
         Agent (heap_after conv llm (needs_llm_of (objs a) transactions) (objs a))
               (llm_calls_made a + 1)
               (requests a
                ++ [request_for (objs a) (needs_llm_of (objs a) transactions)])%list)
    end.
Proof.
  unfold process, needs_llm_of, State.bind, State.gets, State.ret, State.modify.
  destruct (List.filter (is_uncategorized (objs a)) transactions) as [|r l] eqn:E;
    [reflexivity|].
  rewrite batch_eq. reflexivity.
Qed.

Lemma filter_none_keeps_all {A : Type} (p : A -> bool) (l : list A) :
  List.filter p l = [] -> List.filter (fun x => negb (p x)) l = l.
Proof.
  induction l as [|x l IH]; simpl; [reflexivity|].
  destruct (p x); simpl; [discriminate|]. intros H. now rewrite IH.
Qed.

Lemma partition_permutation {A : Type} (p : A -> bool) (l : list A) :
  Permutation l (List.filter (fun x => negb (p x)) l ++ List.filter p l)%list.
Proof.
  induction l as [|x l IH]; simpl; [constructor|].
  destruct (p x); simpl.
  - now apply Permutation_cons_app.
  - now constructor.
Qed.

(** The heap after a batch differs from the heap before only at the
    transactions of the batch. *)
Lemma heap_after_untouched conv llm (needs_llm : list ref) (h : heap) (r : ref) :
  ~ In r needs_llm -> heap_after conv llm needs_llm h r = h r.
Proof.
  intros H. unfold heap_after. destruct (accepted _ _) as [cats|].
  - rewrite llm_categorization_loop. apply loop_untouched.
    intros y Hy <-. apply H. now apply snd_enumerate.
  - rewrite fallback_categorization_loop. apply loop_untouched.
    intros y Hy <-. now apply H.
Qed.

Lemma heap_after_payload conv llm (needs_llm : list ref) (h : heap) (r : ref) :
  payload (heap_after conv llm needs_llm h r) = payload (h r).
Proof.
  unfold heap_after. destruct (accepted _ _) as [cats|].
  - rewrite llm_categorization_loop. apply loop_preserves.
    intros y t. unfold write_of. destruct (_ !! _); reflexivity.
  - rewrite fallback_categorization_loop. apply loop_preserves. reflexivity.
Qed.

End Analyzer.

Section AnalyzerClaims.
Import ContentAnalyzerAgent.

(** A failed call leaves every transaction of the batch with the
    wholesale default. *)
Lemma failed_call_falls_back conv llm (needs_llm : list ref) (h : heap) (r : ref) :
  accepted conv (llm (request_for h needs_llm)) = None ->
  In r needs_llm ->
  categorized_as (heap_after conv llm needs_llm h r) "other" (Finite 0.3) "fallback".
Proof.
  intros Hfail Hin. unfold heap_after. rewrite Hfail, fallback_categorization_loop.
  apply (loop_last_write id (fun _ => unavailable)
           (fun t => categorized_as t "other" (Finite 0.3) "fallback")).
  - exists r. split; [assumption | reflexivity].
  - intros y t _ _. repeat split.
Qed.

(** A transaction none of whose identifiers is in the accepted response
    gets the default of an incomplete response. *)
Lemma absent_entry_defaults conv llm (needs_llm : list ref) (h : heap) (r : ref)
    (cats : list TransactionCategory.t) :
  accepted conv (llm (request_for h needs_llm)) = Some cats ->
  In r needs_llm ->
  (forall i, nth_error needs_llm i = Some r ->
             ~ In (txn_id i) (map TransactionCategory.transaction_id cats)) ->
  categorized_as (heap_after conv llm needs_llm h r) "other" (Finite 0.5) "fallback".
Proof.
  intros Hok Hin Habs. unfold heap_after. rewrite Hok, llm_categorization_loop.
  apply (loop_last_write snd (write_of (cat_lookup_of cats))
           (fun t => categorized_as t "other" (Finite 0.5) "fallback")).
  - destruct (enumerate_covers _ _ Hin) as [i Hi]. exists (i, r). auto.
  - intros [i x] t Hy Hx. simpl in Hx. subst x. unfold write_of. simpl.
    rewrite cat_lookup_absent by (apply Habs; now apply in_enumerate).
    repeat split.
Qed.

(** Whatever the reply, a transaction of the batch ends with the category
    of an accepted entry or with the default category. *)
Lemma batch_category conv llm (needs_llm : list ref) (h : heap) (r : ref) :
  In r needs_llm ->
  category (heap_after conv llm needs_llm h r) = "other"
  \/ exists cats cat,
       accepted conv (llm (request_for h needs_llm)) = Some cats
       /\ In cat cats
       /\ category (heap_after conv llm needs_llm h r) = TransactionCategory.category cat.
Proof.
  intros Hin. unfold heap_after.
  destruct (accepted conv (llm (request_for h needs_llm))) as [cats|] eqn:E.
  - rewrite llm_categorization_loop.
    apply (loop_last_write snd (write_of (cat_lookup_of cats))
             (fun t => category t = "other"
                       \/ exists cats' cat, Some cats = Some cats' /\ In cat cats'
                                            /\ category t = TransactionCategory.category cat)).
    + destruct (enumerate_covers _ _ Hin) as [i Hi]. exists (i, r). auto.
    + intros [i x] t _ _. unfold write_of. simpl.
      destruct (cat_lookup_of cats !! txn_id i) as [cat|] eqn:El.
      * right. apply cat_lookup_sound in El as [Hc _]. exists cats, cat. auto.
      * now left.
  - left. rewrite fallback_categorization_loop.
    apply (loop_last_write id (fun _ => unavailable) (fun t => category t = "other")).
    + exists r. auto.
    + reflexivity.
Qed.

Lemma in_needs_llm (h : heap) (transactions : list ref) (r : ref) :
  In r (needs_llm_of h transactions)
  <-> In r transactions /\ category (h r) = "uncategorized".
Proof.
  unfold needs_llm_of, is_uncategorized. rewrite filter_In, String.eqb_eq. reflexivity.
Qed.

Lemma in_already_categorized (h : heap) (transactions : list ref) (r : ref) :
  In r (List.filter (fun t => negb (is_uncategorized h t)) transactions)
  <-> In r transactions /\ category (h r) <> "uncategorized".
Proof.
  unfold is_uncategorized. rewrite filter_In, negb_true_iff, String.eqb_neq. reflexivity.
Qed.

Lemma categorize_one_payload (h : heap) (txn r : ref) :
  payload (DocumentProcessorAgent.categorize_one h txn r) = payload (h r).
Proof.
  unfold DocumentProcessorAgent.categorize_one.
  destruct (MerchantDatabase.categorize_transaction _) as [c x].
  destruct (negb _); [|reflexivity].
  unfold update. destruct (Nat.eqb r txn); reflexivity.
Qed.

Lemma basic_categorization_payload (transactions : list ref) (h : heap) (r : ref) :
  payload (fold_left DocumentProcessorAgent.categorize_one transactions h r)
  = payload (h r).
Proof.
  revert h. induction transactions as [|t l IH]; intros h; simpl; [reflexivity|].
  rewrite IH. apply categorize_one_payload.
Qed.

(** The analyzer returns the transactions it was given, the categorized
    ones first. *)
Lemma process_returns_all conv llm (transactions : list ref) (a : agent) :
  Permutation transactions (fst (process conv llm transactions a)).
Proof.
  rewrite process_eq.
  pose proof (partition_permutation (is_uncategorized (objs a)) transactions) as Hperm.
  fold (needs_llm_of (objs a) transactions) in Hperm.
  destruct (needs_llm_of (objs a) transactions) as [|r0 l] eqn:E; simpl.
  - now rewrite app_nil_r in Hperm.
  - exact Hperm.
Qed.

Lemma process_heap conv llm (transactions : list ref) (a : agent) (r : ref) :
  objs (snd (process conv llm transactions a)) r
  = heap_after conv llm (needs_llm_of (objs a) transactions) (objs a) r.
Proof.
  rewrite process_eq.
  destruct (needs_llm_of (objs a) transactions) as [|r0 l] eqn:E; simpl.
  - symmetry. apply heap_after_untouched. intros [].
  - reflexivity.
Qed.

End AnalyzerClaims.

(** C1. With no uncategorized transaction in the batch the content
    analyzer sends nothing to the language model and returns the batch as it
    is, over an unchanged heap; with one or more it sends exactly one
    request, which carries the whole batch, whatever the model answers. *)
Theorem one_call_per_batch :
  forall conv llm (transactions : list ref) (a : ContentAnalyzerAgent.agent),
    let needs_llm := needs_llm_of (ContentAnalyzerAgent.objs a) transactions in
    let result := ContentAnalyzerAgent.process conv llm transactions a in
    (needs_llm = [] ->
       ContentAnalyzerAgent.requests (snd result) = ContentAnalyzerAgent.requests a
       /\ ContentAnalyzerAgent.llm_calls_made (snd result)
          = ContentAnalyzerAgent.llm_calls_made a
       /\ fst result = transactions
       /\ forall r, ContentAnalyzerAgent.objs (snd result) r
                    = ContentAnalyzerAgent.objs a r)
    /\ (needs_llm <> [] ->
       ContentAnalyzerAgent.requests (snd result)
       = (ContentAnalyzerAgent.requests a
          ++ [request_for (ContentAnalyzerAgent.objs a) needs_llm])%list
       /\ ContentAnalyzerAgent.llm_calls_made (snd result)
          = ContentAnalyzerAgent.llm_calls_made a + 1
       /\ List.length (ContentAnalyzerAgent.batch
                         (request_for (ContentAnalyzerAgent.objs a) needs_llm))
          = List.length needs_llm).
Proof.
  intros conv llm transactions a needs_llm result. subst result.
  rewrite process_eq. fold needs_llm. split.
  - intros E. rewrite E. simpl. repeat split.
    now apply filter_none_keeps_all.
  - intros Hne. destruct needs_llm as [|r l] eqn:E; [contradiction|].
    simpl. repeat split.
    unfold ContentAnalyzerAgent.transaction_data_of, ContentAnalyzerAgent.enumerate.
    now rewrite length_map, length_combine, length_seq, Nat.min_id.
Qed.

Lemma one_call_per_batch_witness :
  (needs_llm_of (ContentAnalyzerAgent.objs sample_agent_done) [0; 1; 2] = []
   /\ ContentAnalyzerAgent.requests
        (snd (ContentAnalyzerAgent.process ContentAnalyzerAgent.exact
                (fun _ => ContentAnalyzerAgent.Raised) [0; 1; 2] sample_agent_done))
      = [])
  /\ (needs_llm_of (ContentAnalyzerAgent.objs sample_agent) [0; 1; 2] <> []
      /\ List.length
           (ContentAnalyzerAgent.requests
              (snd (ContentAnalyzerAgent.process ContentAnalyzerAgent.exact
                      (fun _ => ContentAnalyzerAgent.Raised) [0; 1; 2] sample_agent)))
         = 1).
Proof.
  split.
  - assert (H : needs_llm_of (ContentAnalyzerAgent.objs sample_agent_done) [0; 1; 2] = [])
      by reflexivity.
    split; [exact H|].
    exact (proj1 (proj1 (one_call_per_batch ContentAnalyzerAgent.exact
                           (fun _ => ContentAnalyzerAgent.Raised) [0; 1; 2]
                           sample_agent_done) H)).
  - assert (H : needs_llm_of (ContentAnalyzerAgent.objs sample_agent) [0; 1; 2] <> [])
      by (vm_compute; discriminate).
    split; [exact H|].
    rewrite (proj1 (proj2 (one_call_per_batch ContentAnalyzerAgent.exact
                             (fun _ => ContentAnalyzerAgent.Raised) [0; 1; 2]
                             sample_agent) H)).
    reflexivity.
Defined.

(** C10. The merchant categorization stage and the content analyzer leave
    the date, description, amount, direction, balance, identifier, original
    line and pattern of every transaction as they were: they write the
    category, the confidence, the source and the reasoning only, whatever
    the language model replies; and they return the transactions they were
    given. *)
Theorem categorization_stages_frame :
  (forall (transactions : list ref) (h : heap),
      fst (DocumentProcessorAgent._apply_basic_categorization transactions h)
      = transactions
      /\ forall r,
           payload (snd (DocumentProcessorAgent._apply_basic_categorization
                           transactions h) r)
           = payload (h r))
  /\ (forall (transactions : list ref) categorizations (h : heap) (r : ref),
      payload (ContentAnalyzerAgent._apply_llm_categorization
                 transactions categorizations h r)
      = payload (h r))
  /\ (forall (transactions : list ref) (h : heap) (r : ref),
      payload (ContentAnalyzerAgent._apply_fallback_categorization transactions h r)
      = payload (h r))
  /\ (forall conv llm (transactions : list ref) (a : ContentAnalyzerAgent.agent),
      Permutation transactions
        (fst (ContentAnalyzerAgent.process conv llm transactions a))
      /\ forall r,
           payload (ContentAnalyzerAgent.objs
                      (snd (ContentAnalyzerAgent.process conv llm transactions a)) r)
           = payload (ContentAnalyzerAgent.objs a r)).
Proof.
  split; [|split; [|split]].
  - intros transactions h. split; [reflexivity|].
    intros r. apply basic_categorization_payload.
  - intros transactions cats h r. rewrite llm_categorization_loop.
    apply loop_preserves. intros y t. unfold write_of.
    destruct (_ !! _); reflexivity.
  - intros transactions h r. rewrite fallback_categorization_loop.
    apply loop_preserves. reflexivity.
  - intros conv llm transactions a. split.
    + apply process_returns_all.
    + intros r. rewrite process_heap. apply heap_after_payload.
Qed.

(** C4. When the call fails (it raises, returns nothing, or its text is not
    a valid response) every transaction of the batch sent to the model gets
    category other, confidence 0.3 and source fallback, and the analyzer
    still returns all the transactions it was given; when the response is
    accepted, a transaction of the batch that the response does not mention
    gets category other, confidence 0.5 and source fallback. *)
Theorem fallback_on_failure_and_on_gaps :
  forall conv llm (transactions : list ref) (a : ContentAnalyzerAgent.agent),
    let h := ContentAnalyzerAgent.objs a in
    let needs_llm := needs_llm_of h transactions in
    let reply := llm (request_for h needs_llm) in
    let result := ContentAnalyzerAgent.process conv llm transactions a in
    (accepted conv reply = None ->
       Permutation transactions (fst result)
       /\ forall r, In r needs_llm ->
            categorized_as (ContentAnalyzerAgent.objs (snd result) r)
                           "other" (Finite 0.3) "fallback")
    /\ (forall cats, accepted conv reply = Some cats ->
        forall r, In r needs_llm ->
          (forall i, nth_error needs_llm i = Some r ->
                     ~ In (ContentAnalyzerAgent.txn_id i)
                          (map TransactionCategory.transaction_id cats)) ->
          categorized_as (ContentAnalyzerAgent.objs (snd result) r)
                         "other" (Finite 0.5) "fallback").
Proof.
  intros conv llm transactions a h needs_llm reply result.
  assert (Hobjs : forall r,
            ContentAnalyzerAgent.objs (snd result) r = heap_after conv llm needs_llm h r)
    by (intros r; apply process_heap).
  split.
  - intros Hfail. split.
    + apply process_returns_all.
    + intros r Hin. rewrite Hobjs. now apply failed_call_falls_back.
  - intros cats Hok r Hin Habs. rewrite Hobjs.
    eapply absent_entry_defaults; eauto.
Qed.

Lemma fallback_on_failure_and_on_gaps_witness :
  (accepted ContentAnalyzerAgent.exact ContentAnalyzerAgent.Raised = None
   /\ categorized_as
        (ContentAnalyzerAgent.objs
           (snd (ContentAnalyzerAgent.process ContentAnalyzerAgent.exact
                   (fun _ => ContentAnalyzerAgent.Raised) [0; 1; 2] sample_agent)) 2)
        "other" (Finite 0.3) "fallback")
  /\ (accepted ContentAnalyzerAgent.exact
        (sample_llm "shopping" 0.8
           (request_for (ContentAnalyzerAgent.objs sample_agent) [0; 2]))
      = Some [TransactionCategory.Make "txn_0" "shopping" (Finite 0.8) "a guess"]
      /\ categorized_as
           (ContentAnalyzerAgent.objs
              (snd (ContentAnalyzerAgent.process ContentAnalyzerAgent.exact
                      (sample_llm "shopping" 0.8) [0; 1; 2] sample_agent)) 2)
           "other" (Finite 0.5) "fallback").
Proof.
  split.
  - split; [reflexivity|].
    apply (proj1 (fallback_on_failure_and_on_gaps ContentAnalyzerAgent.exact
                    (fun _ => ContentAnalyzerAgent.Raised) [0; 1; 2] sample_agent)).
    + reflexivity.
    + vm_compute. auto.
  - split; [reflexivity|].
    apply (proj2 (fallback_on_failure_and_on_gaps ContentAnalyzerAgent.exact
                    (sample_llm "shopping" 0.8) [0; 1; 2] sample_agent)
             [TransactionCategory.Make "txn_0" "shopping" (Finite 0.8) "a guess"]).
    + reflexivity.
    + vm_compute. auto.
    + intros [|[|i]] Hi; vm_compute in Hi; try discriminate.
      * vm_compute. intros [H | []]. discriminate.
      * destruct i; discriminate.
Defined.

(** C2, as stated, fails: the category of an accepted entry is any text,
    the sentinel included, and it is applied as it comes. *)
Lemma uncategorized_reply_counterexample :
  In 0 (fst (ContentAnalyzerAgent.process ContentAnalyzerAgent.exact
               (sample_llm "uncategorized" 0.9) [0; 1] sample_agent))
  /\ category
       (ContentAnalyzerAgent.objs
          (snd (ContentAnalyzerAgent.process ContentAnalyzerAgent.exact
                  (sample_llm "uncategorized" 0.9) [0; 1] sample_agent)) 0)
     = "uncategorized".
Proof. split; [vm_compute; auto | vm_compute; reflexivity]. Qed.

(** C2, amended. Whatever the language model does, as long as no entry of
    an accepted response carries the category uncategorized itself, every
    transaction the content analyzer returns has a category other than
    uncategorized. *)
Theorem output_is_categorized :
  forall conv llm (transactions : list ref) (a : ContentAnalyzerAgent.agent),
    (forall cats,
        accepted conv
          (llm (request_for (ContentAnalyzerAgent.objs a)
                  (needs_llm_of (ContentAnalyzerAgent.objs a) transactions)))
        = Some cats ->
        Forall (fun cat => TransactionCategory.category cat <> "uncategorized") cats) ->
    forall r,
      In r (fst (ContentAnalyzerAgent.process conv llm transactions a)) ->
      category (ContentAnalyzerAgent.objs
                  (snd (ContentAnalyzerAgent.process conv llm transactions a)) r)
      <> "uncategorized".
Proof.
  intros conv llm transactions a Hcats r Hin.
  apply (Permutation_in r (Permutation_sym (process_returns_all conv llm transactions a)))
    in Hin.
  rewrite process_heap.
  destruct (String.eqb (category (ContentAnalyzerAgent.objs a r)) "uncategorized") eqn:E.
  - apply String.eqb_eq in E.
    assert (Hneeds : In r (needs_llm_of (ContentAnalyzerAgent.objs a) transactions))
      by (apply in_needs_llm; auto).
    destruct (batch_category conv llm _ (ContentAnalyzerAgent.objs a) r Hneeds)
      as [-> | (cats & cat & Hok & Hcat & ->)]; [discriminate|].
    specialize (Hcats cats Hok). rewrite List.Forall_forall in Hcats. now apply Hcats.
  - apply String.eqb_neq in E.
    rewrite heap_after_untouched; [assumption|].
    intros Hneeds. apply in_needs_llm in Hneeds as [_ Hu]. contradiction.
Qed.

Lemma output_is_categorized_witness :
  (forall cats,
      accepted ContentAnalyzerAgent.exact
        (sample_llm "shopping" 0.8
           (request_for (ContentAnalyzerAgent.objs sample_agent)
              (needs_llm_of (ContentAnalyzerAgent.objs sample_agent) [0; 1; 2])))
      = Some cats ->
      Forall (fun cat => TransactionCategory.category cat <> "uncategorized") cats)
  /\ forall r,
       In r (fst (ContentAnalyzerAgent.process ContentAnalyzerAgent.exact
                    (sample_llm "shopping" 0.8) [0; 1; 2] sample_agent)) ->
       category (ContentAnalyzerAgent.objs
                   (snd (ContentAnalyzerAgent.process ContentAnalyzerAgent.exact
                           (sample_llm "shopping" 0.8) [0; 1; 2] sample_agent)) r)
       <> "uncategorized".
Proof.
  assert (H : forall cats,
      accepted ContentAnalyzerAgent.exact
        (sample_llm "shopping" 0.8
           (request_for (ContentAnalyzerAgent.objs sample_agent)
              (needs_llm_of (ContentAnalyzerAgent.objs sample_agent) [0; 1; 2])))
      = Some cats ->
      Forall (fun cat => TransactionCategory.category cat <> "uncategorized") cats).
  { intros cats Hc. vm_compute in Hc. injection Hc as <-.
    constructor; [discriminate | constructor]. }
  split; [exact H|].
  exact (output_is_categorized ContentAnalyzerAgent.exact (sample_llm "shopping" 0.8)
           [0; 1; 2] sample_agent H).
Defined.

(** ** Validation of the response *)

Section Validation.
Import ContentAnalyzerAgent.

Lemma validate_entry_sound conv (entry : json) (cat : TransactionCategory.t) :
  validate_entry conv entry = Some cat ->
  entry_of conv entry cat /\ in_unit_interval cat.
Proof.
  unfold validate_entry. destruct entry as [| | | | |members]; try discriminate.
  destruct (member "transaction_id" members) as [i|] eqn:Ei; [|discriminate].
  destruct (member "category" members) as [c|] eqn:Ec; [|discriminate].
  destruct (member "confidence" members) as [x|] eqn:Ex; [|discriminate].
  destruct (member "reasoning" members) as [r|] eqn:Er; [|discriminate].
  destruct (to_str conv i) as [i'|] eqn:Ci; [|discriminate].
  destruct (to_str conv c) as [c'|] eqn:Cc; [|discriminate].
  destruct (to_float conv x) as [x'|] eqn:Cx; [|discriminate].
  destruct (to_str conv r) as [r'|] eqn:Cr; [|discriminate].
  destruct (fge x' zero && fle x' one) eqn:Hrange; [|discriminate].
  intros [= <-]. apply andb_true_iff in Hrange. split.
  - exists members, i, c, x, r. simpl. repeat split; assumption.
  - exact Hrange.
Qed.

Lemma validate_entry_out_of_range conv (entry : json) :
  confidence_out_of_range conv entry -> validate_entry conv entry = None.
Proof.
  intros (members & v & x & -> & Hv & Hx & Hrange). unfold validate_entry.
  rewrite Hv.
  destruct (member "transaction_id" members) as [i|]; [|reflexivity].
  destruct (member "category" members) as [c|]; [|reflexivity].
  destruct (member "reasoning" members) as [r|]; [|reflexivity].
  rewrite Hx.
  destruct (to_str conv i); [|reflexivity].
  destruct (to_str conv c); [|reflexivity].
  destruct (to_str conv r); [|reflexivity].
  now rewrite Hrange.
Qed.

Lemma validate_entries_sound conv (entries : list json)
    (cats : list TransactionCategory.t) :
  validate_entries conv entries = Some cats ->
  Forall2 (entry_of conv) entries cats /\ Forall in_unit_interval cats.
Proof.
  revert cats. induction entries as [|e entries IH]; intros cats; simpl.
  - intros [= <-]. split; constructor.
  - destruct (validate_entry conv e) as [c|] eqn:Ee; [|discriminate].
    destruct (validate_entries conv entries) as [cs|]; [|discriminate].
    intros [= <-]. apply validate_entry_sound in Ee as [He Hr].
    destruct (IH cs eq_refl) as [H2 Hall]. split; constructor; assumption.
Qed.

Lemma validate_entries_rejects conv (entries : list json) (e : json) :
  In e entries -> validate_entry conv e = None -> validate_entries conv entries = None.
Proof.
  induction entries as [|e' entries IH]; intros Hin He; [destruct Hin|].
  simpl. destruct Hin as [-> | Hin].
  - now rewrite He.
  - rewrite (IH Hin He). destruct (validate_entry conv e'); reflexivity.
Qed.

End Validation.

(** C3, as stated, fails: a category outside the vocabulary is accepted
    and applied. *)
Lemma category_outside_vocabulary_counterexample :
  in_list "pets" (map fst ContentAnalyzerAgent.valid_categories) = false
  /\ accepted ContentAnalyzerAgent.exact
       (sample_llm "pets" 0.9
          (request_for (ContentAnalyzerAgent.objs sample_agent) [0]))
     = Some [TransactionCategory.Make "txn_0" "pets" (Finite 0.9) "a guess"]
  /\ categorized_as
       (ContentAnalyzerAgent.objs
          (snd (ContentAnalyzerAgent.process ContentAnalyzerAgent.exact
                  (sample_llm "pets" 0.9) [0] sample_agent)) 0)
       "pets" (Finite 0.9) "llm".
Proof. repeat split; vm_compute; reflexivity. Qed.

(** C3, amended. An accepted response is a list of entries, each with an
    identifier, a category, a confidence between 0 and 1 and a reasoning;
    the category is any text, it is not compared with the vocabulary. A
    response with an entry whose confidence is outside [0, 1] is rejected as
    a whole, and the whole batch then gets the default of a failed call:
    none of its entries is applied. *)
Theorem response_schema :
  forall conv : ContentAnalyzerAgent.conversions,
    (forall decoded cats,
        ContentAnalyzerAgent.validate_response conv decoded = Some cats ->
        exists members entries,
          decoded = ContentAnalyzerAgent.JObj members
          /\ ContentAnalyzerAgent.member "categorizations" members
             = Some (ContentAnalyzerAgent.JArr entries)
          /\ Forall2 (entry_of conv) entries cats
          /\ Forall in_unit_interval cats)
    /\ (forall members entries e,
        ContentAnalyzerAgent.member "categorizations" members
        = Some (ContentAnalyzerAgent.JArr entries) ->
        In e entries ->
        confidence_out_of_range conv e ->
        ContentAnalyzerAgent.validate_response conv (ContentAnalyzerAgent.JObj members)
        = None)
    /\ (forall llm (transactions : list ref) (a : ContentAnalyzerAgent.agent)
               members entries e,
        llm (request_for (ContentAnalyzerAgent.objs a)
               (needs_llm_of (ContentAnalyzerAgent.objs a) transactions))
        = ContentAnalyzerAgent.Decoded (ContentAnalyzerAgent.JObj members) ->
        ContentAnalyzerAgent.member "categorizations" members
        = Some (ContentAnalyzerAgent.JArr entries) ->
        In e entries ->
        confidence_out_of_range conv e ->
        forall r,
          In r (needs_llm_of (ContentAnalyzerAgent.objs a) transactions) ->
          categorized_as
            (ContentAnalyzerAgent.objs
               (snd (ContentAnalyzerAgent.process conv llm transactions a)) r)
            "other" (Finite 0.3) "fallback").
Proof.
  intros conv.
  assert (Hreject : forall members entries e,
            ContentAnalyzerAgent.member "categorizations" members
            = Some (ContentAnalyzerAgent.JArr entries) ->
            In e entries ->
            confidence_out_of_range conv e ->
            ContentAnalyzerAgent.validate_response conv
              (ContentAnalyzerAgent.JObj members) = None).
  { intros members entries e Hm Hin Hout. simpl. rewrite Hm.
    eapply validate_entries_rejects; eauto using validate_entry_out_of_range. }
  split; [|split].
  - intros decoded cats H. unfold ContentAnalyzerAgent.validate_response in H.
    destruct decoded as [| | | | |members]; try discriminate.
    destruct (ContentAnalyzerAgent.member "categorizations" members)
      as [[| | | |entries|]|] eqn:Em; try discriminate.
    apply validate_entries_sound in H as [H2 Hall].
    exists members, entries. auto.
  - exact Hreject.
  - intros llm transactions a members entries e Hreply Hm Hin Hout r Hr.
    rewrite process_heap. apply failed_call_falls_back; [|assumption].
    rewrite Hreply. simpl. eapply Hreject; eauto.
Qed.

Lemma response_schema_witness :
  (ContentAnalyzerAgent.validate_response ContentAnalyzerAgent.exact
     (ContentAnalyzerAgent.JObj
        [("categorizations",
          ContentAnalyzerAgent.JArr [sample_entry "txn_0" "shopping" 0.8 "a guess"])])
   = Some [TransactionCategory.Make "txn_0" "shopping" (Finite 0.8) "a guess"]
   /\ in_unit_interval
        (TransactionCategory.Make "txn_0" "shopping" (Finite 0.8) "a guess"))
  /\ (confidence_out_of_range ContentAnalyzerAgent.exact
        (sample_entry "txn_0" "shopping" 1.5 "a guess")
      /\ categorized_as
           (ContentAnalyzerAgent.objs
              (snd (ContentAnalyzerAgent.process ContentAnalyzerAgent.exact
                      (sample_llm "shopping" 1.5) [0; 1; 2] sample_agent)) 0)
           "other" (Finite 0.3) "fallback").
Proof.
  split.
  - assert (H : ContentAnalyzerAgent.validate_response ContentAnalyzerAgent.exact
       (ContentAnalyzerAgent.JObj
          [("categorizations",
            ContentAnalyzerAgent.JArr [sample_entry "txn_0" "shopping" 0.8 "a guess"])])
     = Some [TransactionCategory.Make "txn_0" "shopping" (Finite 0.8) "a guess"])
      by reflexivity.
    split; [exact H|].
    destruct (proj1 (response_schema ContentAnalyzerAgent.exact) _ _ H)
      as (members & entries & _ & _ & _ & Hall).
    inversion Hall; assumption.
  - assert (H : confidence_out_of_range ContentAnalyzerAgent.exact
                  (sample_entry "txn_0" "shopping" 1.5 "a guess")).
    { eexists _, _, _. repeat split. }
    split; [exact H|].
    apply (proj2 (proj2 (response_schema ContentAnalyzerAgent.exact))
             (sample_llm "shopping" 1.5) [0; 1; 2] sample_agent
             [("categorizations",
               ContentAnalyzerAgent.JArr [sample_entry "txn_0" "shopping" 1.5 "a guess"])]
             [sample_entry "txn_0" "shopping" 1.5 "a guess"]
             (sample_entry "txn_0" "shopping" 1.5 "a guess")).
    + reflexivity.
    + reflexivity.
    + now left.
    + exact H.
    + vm_compute. auto.
Defined.

(** ** What the groups of a match can hold *)

Section Groups.

Lemma str_all_app (P : ascii -> bool) (a b : string) :
  str_all P (a ++ b) = str_all P a && str_all P b.
Proof.
  induction a as [|c a IH]; simpl; [reflexivity|].
  cbv [String.append]. fold String.append. simpl. now rewrite IH, andb_assoc.
Qed.

Lemma str_all_impl (P Q : ascii -> bool) (s : string) :
  (forall c, P c = true -> Q c = true) -> str_all P s = true -> str_all Q s = true.
Proof.
  intros H. induction s as [|c s IH]; simpl; [reflexivity|].
  rewrite !andb_true_iff. intros [Hc Hs]. auto.
Qed.

Lemma spans_class (p : ascii -> bool) (hi : option nat) (s a r : string) :
  In (a, r) (spans p hi s) -> str_all p a = true.
Proof.
  revert hi a r. induction s as [|c s IH]; intros hi a r H.
  - destruct hi as [[|h]|]; simpl in H; destruct H as [[= <- <-] | []]; reflexivity.
  - assert (Hmap : forall hi',
              In (a, r) (map (fun ar => (String c (fst ar), snd ar)) (spans p hi' s)) ->
              p c = true -> str_all p a = true).
    { intros hi' Hin Hc. apply in_map_iff in Hin as ([a' r'] & [= <- <-] & Hin).
      simpl. rewrite Hc. simpl. eapply IH; eauto. }
    destruct hi as [[|h]|]; simpl in H; destruct H as [[= <- <-] | H];
      try reflexivity; try destruct H;
      destruct (p c) eqn:Hc; try destruct H; eauto.
Qed.

Lemma candidates_class (q : quant) (s : string) (ar : string * string) :
  In ar (candidates q s) -> str_all (q_class q) (fst ar) = true.
Proof.
  unfold candidates. intros H.
  assert (Hin : In ar (spans (q_class q) (q_max q) s)).
  { destruct (q_greedy q); [apply in_rev in H|]; apply filter_In in H; tauto. }
  destruct ar as [a r]. eapply spans_class; eauto.
Qed.

Lemma first_some_in {A B : Type} (f : A -> option B) (l : list A) (y : B) :
  first_some f l = Some y -> exists x, In x l /\ f x = Some y.
Proof.
  intros H. apply first_some_split in H as (pre & x & post & -> & _ & Hx).
  exists x. split; [apply in_elt | assumption].
Qed.

(** The text a sequence of quantifiers consumes is made of characters of
    their classes. *)
Lemma match_quants_class {R : Type} (P : ascii -> bool) (qs : list quant) (s : string)
    (k : string -> string -> option R) (r : R) :
  quants_within P qs ->
  match_quants qs s k = Some r ->
  exists a rest, k a rest = Some r /\ str_all P a = true.
Proof.
  intros Hqs. revert s k. induction Hqs as [|q qs Hq Hqs IH]; intros s k H; simpl in H.
  - exists EmptyString, s. auto.
  - apply first_some_in in H as ([a0 r0] & Hin & H). simpl in H.
    apply IH in H as (b & rest & Hk & Hb).
    exists (a0 ++ b), rest. split; [assumption|].
    rewrite str_all_app, Hb, andb_true_r.
    apply candidates_class in Hin. simpl in Hin.
    eapply str_all_impl; eauto.
Qed.

Lemma match_pieces_classes {R : Type} (ps : list piece) (Ps : list (ascii -> bool))
    (s : string) (caps : list string) (k : list string -> string -> option R) (r : R) :
  groups_within ps Ps ->
  match_pieces ps s caps k = Some r ->
  exists caps' rest,
    k (caps ++ caps')%list rest = Some r
    /\ Forall2 (fun P a => str_all P a = true) Ps caps'.
Proof.
  revert Ps s caps k. induction ps as [|[q|qs] ps IH]; intros Ps s caps k Hw H;
    cbn [match_pieces groups_within] in *.
  - subst Ps. exists [], s. rewrite app_nil_r. split; [assumption | constructor].
  - apply (match_quants_class any_char) in H as (a & rest & H & _).
    + eapply IH; eauto.
    + constructor; [reflexivity | constructor].
  - destruct Ps as [|P Ps]; [contradiction|]. destruct Hw as [Hqs Hw].
    apply (match_quants_class P) in H as (a & rest & H & Ha); [|assumption].
    destruct (IH _ _ _ _ Hw H) as (caps' & rest' & Hk & Hcaps).
    exists (a :: caps'), rest'. split.
    + now rewrite <- app_assoc in Hk.
    + constructor; assumption.
Qed.

Lemma re_search_classes (ps : list piece) (Ps : list (ascii -> bool)) (s : string)
    (gs : list string) :
  groups_within ps Ps ->
  re_search ps s = Some gs ->
  Forall2 (fun P a => str_all P a = true) Ps gs.
Proof.
  intros Hw. induction s as [|c s IH]; simpl; intros H.
  - destruct (re_match ps EmptyString) as [g|] eqn:E; [|discriminate].
    injection H as ->. unfold re_match in E.
    apply (match_pieces_classes _ _ _ _ _ _ Hw) in E as (caps' & rest & [= <-] & Hc).
    exact Hc.
  - destruct (re_match ps (String c s)) as [g|] eqn:E; [|auto].
    injection H as ->. unfold re_match in E.
    apply (match_pieces_classes _ _ _ _ _ _ Hw) in E as (caps' & rest & [= <-] & Hc).
    exact Hc.
Qed.

End Groups.

(** ** Amounts *)

Section Amounts.
Import DocumentProcessorAgent.

Ltac by_cases_on_char :=
  let c := fresh "c" in
  intros c; destruct c as [[] [] [] [] [] [] [] []]; vm_compute;
  let H := fresh in intros H; first [reflexivity | discriminate H].

Lemma signed_amount_within : quants_within amount_char signed_amount.
Proof. repeat constructor; by_cases_on_char. Qed.

Lemma unsigned_amount_within : quants_within amount_char unsigned_amount.
Proof. repeat constructor; by_cases_on_char. Qed.

Lemma anything_within (qs : list quant) : quants_within any_char qs.
Proof. induction qs; constructor; auto. Qed.

(** In each of the three patterns the third group is an amount. *)
Lemma patterns_amount_group (p : pattern) :
  In p patterns ->
  g_amount (groups p) = 3
  /\ groups_within (regex p) [any_char; any_char; amount_char; any_char].
Proof.
  intros [<- | [<- | [<- | []]]]; (split; [reflexivity|]);
    cbn [regex groups_within];
    repeat split;
    auto using anything_within, signed_amount_within, unsigned_amount_within.
Qed.

Lemma sub_from_keeps_class (P : ascii -> bool) (qs : list quant) (skip : nat)
    (s : string) :
  str_all P s = true -> str_all P (sub_from qs EmptyString skip s) = true.
Proof.
  revert skip. induction s as [|c s IH]; intros skip H; simpl; [reflexivity|].
  simpl in H. apply andb_true_iff in H as [Hc Hs].
  destruct skip as [|n]; [|auto].
  destruct (match_quants qs (String c s) _) as [[|n]|].
  - simpl. rewrite Hc. simpl. auto.
  - cbv [String.append]. auto.
  - simpl. rewrite Hc. simpl. auto.
Qed.

Lemma lstrip_keeps_class (P : ascii -> bool) (s : string) :
  str_all P s = true -> str_all P (lstrip s) = true.
Proof.
  induction s as [|c s IH]; simpl; [reflexivity|].
  intros H. destruct (is_space c); [|exact H].
  apply andb_true_iff in H as [_ Hs]. auto.
Qed.

Lemma rstrip_keeps_class (P : ascii -> bool) (s : string) :
  str_all P s = true -> str_all P (rstrip s) = true.
Proof.
  induction s as [|c s IH]; simpl; [reflexivity|].
  intros H. apply andb_true_iff in H as [Hc Hs]. specialize (IH Hs).
  destruct (rstrip s) as [|c' r].
  - destruct (is_space c); simpl; [reflexivity | now rewrite Hc].
  - simpl in *. now rewrite Hc.
Qed.

Lemma amount_char_not_n : forall c, amount_char c = true -> lower_char c <> "n"%char.
Proof.
  intros c; destruct c as [[] [] [] [] [] [] [] []]; vm_compute;
    intros H; first [discriminate H | intros E; discriminate E].
Qed.

(** Text made of signs, dollar signs, commas, points and digits is never
    read as NaN. *)
Lemma float_of_amount_text (s : string) :
  str_all amount_char s = true -> float_of_string s <> Some NaN.
Proof.
  intros H. unfold float_of_string.
  assert (Hstrip : str_all amount_char (strip s) = true)
    by (apply rstrip_keeps_class, lstrip_keeps_class, H).
  set (t := strip s) in *.
  set (nb := match t with
             | String "-" r => (true, r)
             | String "+" r => (false, r)
             | _ => (false, t)
             end).
  assert (Hbody : str_all amount_char (snd nb) = true).
  { subst nb. destruct t as [|c r]; [reflexivity|].
    assert (Hr : str_all amount_char r = true)
      by (simpl in Hstrip; apply andb_true_iff in Hstrip; tauto).
    destruct c as [[] [] [] [] [] [] [] []]; simpl; solve [exact Hr | exact Hstrip]. }
  destruct nb as [neg body]. simpl in Hbody.
  destruct (String.eqb (lower body) "inf" || String.eqb (lower body) "infinity");
    [discriminate|].
  destruct (String.eqb (lower body) "nan") eqn:En.
  - exfalso. apply String.eqb_eq in En.
    destruct body as [|c body]; [discriminate|].
    simpl in En, Hbody. injection En as Ec _.
    apply andb_true_iff in Hbody as [Hc _].
    exact (amount_char_not_n c Hc Ec).
  - destruct (read_number body); discriminate.
Qed.

Lemma parse_amount_not_nan (s : string) :
  str_all amount_char s = true -> _parse_amount s <> NaN.
Proof.
  intros H. unfold _parse_amount.
  pose proof (float_of_amount_text (re_sub [cls (one_of "$,")] EmptyString s)) as Hf.
  destruct (float_of_string _) as [x|].
  - intros ->. apply Hf; [|reflexivity]. now apply sub_from_keeps_class.
  - discriminate.
Qed.

Lemma fabs_nonnegative (x : pyfloat) : x <> NaN -> nonnegative (fabs x).
Proof.
  unfold nonnegative, fge. destruct x as [q|b|]; intros H; simpl.
  - apply Qle_bool_iff, Qabs_nonneg.
  - reflexivity.
  - contradiction.
Qed.

(** A parsed line comes from a match of one of the patterns, and its
    amount and direction from the third group of that match. *)
Lemma parsed_from_match (now : datetime) (line : string) (t : Transaction) :
  _parse_single_transaction now line = Some t ->
  exists p gs amount_str,
    In p patterns
    /\ re_search (regex p) line = Some gs
    /\ amount_str = group gs 3
    /\ str_all amount_char amount_str = true
    /\ amount t = fabs (_parse_amount amount_str)
    /\ is_debit t = _is_debit_transaction amount_str line.
Proof.
  unfold _parse_single_transaction. intros H.
  apply first_some_in in H as (p & Hp & H).
  destruct (re_search (regex p) line) as [gs|] eqn:E; [|discriminate].
  injection H as <-.
  destruct (patterns_amount_group p Hp) as [Hg Hw].
  pose proof (re_search_classes _ _ _ _ Hw E) as Hc.
  exists p, gs, (group gs 3). unfold _extract_transaction_data. rewrite Hg.
  repeat split; try assumption.
  inversion Hc as [|? g1 ? l1 _ Hc1]; subst.
  inversion Hc1 as [|? g2 ? l2 _ Hc2]; subst.
  inversion Hc2 as [|? g3 ? l3 H3 _]; subst.
  exact H3.
Qed.

Lemma parse_lines_invariant (Q : Transaction -> Prop) (now : datetime)
    (transaction_lines : list string) :
  (forall line t, _parse_single_transaction now line = Some t ->
                  forall i, Q (set_transaction_id t i)) ->
  Forall Q (_parse_transaction_lines now transaction_lines).
Proof.
  intros HQ. unfold _parse_transaction_lines.
  assert (Hgen : forall acc, Forall Q acc ->
            Forall Q (fold_left
              (fun parsed_transactions line =>
                 match _parse_single_transaction now line with
                 | Some parsed =>
                     (parsed_transactions ++
                      [set_transaction_id parsed
                         ("txn_" ++ of_nat (List.length parsed_transactions + 1))])%list
                 | None => parsed_transactions
                 end) transaction_lines acc)).
  { induction transaction_lines as [|line lines IH]; intros acc Hacc; simpl;
      [assumption|].
    apply IH. destruct (_parse_single_transaction now line) as [t|] eqn:E;
      [|assumption].
    apply Forall_app. split; [assumption|]. constructor; [|constructor].
    eapply HQ; eauto. }
  apply Hgen. constructor.
Qed.

End Amounts.

(** C9. Every transaction the parser produces has an amount that is not
    negative: the amount is the absolute value of what the amount group of
    the match reads as, a group that holds signs, dollar signs, commas,
    points and digits only, and the sign of the group goes to [is_debit]. *)
Theorem parsed_amount_is_nonnegative :
  forall now : datetime,
    (forall line t,
        DocumentProcessorAgent._parse_single_transaction now line = Some t ->
        nonnegative (amount t)
        /\ exists p gs,
             In p DocumentProcessorAgent.patterns
             /\ re_search (DocumentProcessorAgent.regex p) line = Some gs
             /\ amount t
                = fabs (DocumentProcessorAgent._parse_amount
                          (DocumentProcessorAgent.group gs 3))
             /\ is_debit t
                = DocumentProcessorAgent._is_debit_transaction
                    (DocumentProcessorAgent.group gs 3) line)
    /\ forall transaction_lines,
         Forall (fun t => nonnegative (amount t))
                (DocumentProcessorAgent._parse_transaction_lines now transaction_lines).
Proof.
  intros now.
  assert (Hone : forall line t,
            DocumentProcessorAgent._parse_single_transaction now line = Some t ->
            nonnegative (amount t)).
  { intros line t H.
    apply parsed_from_match in H as (p & gs & s & _ & _ & _ & Hs & -> & _).
    apply fabs_nonnegative. now apply parse_amount_not_nan. }
  split.
  - intros line t H. split; [eauto|].
    apply parsed_from_match in H as (p & gs & s & Hp & Hm & -> & _ & Ha & Hd).
    exists p, gs. auto.
  - intros transaction_lines. apply parse_lines_invariant.
    intros line t H i. simpl. eauto.
Qed.

Lemma parsed_amount_is_nonnegative_witness :
  DocumentProcessorAgent._parse_single_transaction (Datetime 2026 11 3)
    "02/01/2024 DUNKIN DONUTS -$4.50 $1,851.92"
  = Some (mkTransaction "2024-02-01" "DUNKIN DONUTS" (Finite (Qred 4.50)) true
            (Finite (Qred 1851.92)) "uncategorized" zero "deterministic"
            "02/01/2024 DUNKIN DONUTS -$4.50 $1,851.92" "Chase Format" None None)
  /\ nonnegative (Finite (Qred 4.50)).
Proof.
  assert (H : DocumentProcessorAgent._parse_single_transaction (Datetime 2026 11 3)
                "02/01/2024 DUNKIN DONUTS -$4.50 $1,851.92"
              = Some (mkTransaction "2024-02-01" "DUNKIN DONUTS" (Finite (Qred 4.50))
                        true (Finite (Qred 1851.92)) "uncategorized" zero
                        "deterministic" "02/01/2024 DUNKIN DONUTS -$4.50 $1,851.92"
                        "Chase Format" None None))
    by (vm_compute; reflexivity).
  split; [exact H|].
  exact (proj1 (proj1 (parsed_amount_is_nonnegative (Datetime 2026 11 3)) _ _ H)).
Defined.

(** * Further properties *)

(** ** The matcher finds a match exactly when there is one *)

Section MatcherAdequacy.

Lemma spans_iff (p : ascii -> bool) (hi : option nat) (s a r : string) :
  In (a, r) (spans p hi s)
  <-> s = a ++ r /\ str_all p a = true /\ within_max hi (String.length a).
Proof.
  revert hi a r. induction s as [|c s IH]; intros hi a r.
  - assert (E : spans p hi EmptyString = [(EmptyString, EmptyString)])
      by (destruct hi as [[|h]|]; reflexivity).
    rewrite E. simpl. split.
    + intros [[= <- <-] | []]. repeat split. destruct hi; simpl; [lia | exact I].
    + intros (Hs & _ & _). destruct a; [|discriminate].
      rewrite append_nil_l in Hs. subst r. now left.
  - assert (Hstep : forall hi',
              In (a, r) (map (fun ar => (String c (fst ar), snd ar)) (spans p hi' s))
              <-> exists a', a = String c a'
                             /\ s = a' ++ r /\ str_all p a' = true
                             /\ within_max hi' (String.length a')).
    { intros hi'. rewrite in_map_iff. split.
      - intros ([a' r'] & [= <- <-] & Hin). apply IH in Hin. eauto.
      - intros (a' & -> & H). exists (a', r). split; [reflexivity | now apply IH]. }
    split.
    + intros H. simpl in H. destruct H as [[= <- <-] | H].
      * repeat split. destruct hi; simpl; [lia | exact I].
      * destruct hi as [[|h]|]; try destruct H;
          destruct (p c) eqn:Hc; try destruct H;
          apply Hstep in H as (a' & -> & -> & Ha & Hm);
          rewrite append_cons; simpl; rewrite Hc; repeat split; try assumption;
          simpl in *; lia.
    + intros (Hs & Ha & Hm). destruct a as [|x a'].
      * rewrite append_nil_l in Hs. subst r. simpl. now left.
      * rewrite append_cons in Hs. injection Hs as <- ->.
        simpl in Ha. apply andb_true_iff in Ha as [Hc Ha].
        simpl. right.
        destruct hi as [[|h]|]; simpl in Hm; try lia; rewrite Hc;
          apply Hstep; exists a'; repeat split; try assumption; simpl; lia.
Qed.

Lemma candidates_iff (q : quant) (s a r : string) :
  In (a, r) (candidates q s) <-> s = a ++ r /\ quant_accepts q a.
Proof.
  unfold candidates, quant_accepts.
  assert (H : In (a, r) (List.filter (fun ar => q_min q <=? String.length (fst ar))
                           (spans (q_class q) (q_max q) s))
              <-> s = a ++ r /\ str_all (q_class q) a = true
                  /\ q_min q <= String.length a
                  /\ within_max (q_max q) (String.length a)).
  { rewrite filter_In, spans_iff. simpl. rewrite Nat.leb_le. tauto. }
  destruct (q_greedy q); [rewrite <- in_rev|]; exact H.
Qed.

Lemma first_some_is_some {A B : Type} (f : A -> option B) (l : list A) :
  (exists y, first_some f l = Some y) <-> exists x, In x l /\ exists y, f x = Some y.
Proof.
  induction l as [|x l IH]; simpl.
  - split; [intros [y H]; discriminate | intros (x & [] & _)].
  - destruct (f x) as [y|] eqn:E.
    + split; eauto.
    + rewrite IH. split.
      * intros (x' & Hin & Hy). eauto.
      * intros (x' & [<- | Hin] & y & Hy); [congruence | eauto].
Qed.

(** Soundness, with the result of the continuation. *)
Lemma match_quants_sound {R : Type} (qs : list quant) (s : string)
    (k : string -> string -> option R) (r : R) :
  match_quants qs s k = Some r ->
  exists a rest, s = a ++ rest /\ quants_accept qs a /\ k a rest = Some r.
Proof.
  revert s k. induction qs as [|q qs IH]; intros s k H; simpl in H.
  - exists EmptyString, s. repeat split. assumption.
  - apply first_some_in in H as ([a1 s1] & Hin & H). simpl in H.
    apply candidates_iff in Hin as [-> Hq].
    apply IH in H as (a2 & rest & -> & Hqs & Hk).
    exists (a1 ++ a2), rest. rewrite append_assoc. repeat split; [|assumption].
    simpl. eauto.
Qed.

(** Completeness: a match the continuation accepts is not missed. *)
Lemma match_quants_complete {R : Type} (qs : list quant) (s a rest : string)
    (k : string -> string -> option R) :
  s = a ++ rest -> quants_accept qs a -> (exists r, k a rest = Some r) ->
  exists r, match_quants qs s k = Some r.
Proof.
  revert s a k. induction qs as [|q qs IH]; intros s a k Hs Ha Hk; simpl in *.
  - subst a. rewrite append_nil_l in Hs. now subst s.
  - destruct Ha as (a1 & a2 & -> & Hq & Hqs).
    apply first_some_is_some. exists (a1, a2 ++ rest). split.
    + apply candidates_iff. split; [now rewrite <- append_assoc | assumption].
    + simpl. eapply IH; eauto.
Qed.

Lemma match_pieces_sound {R : Type} (ps : list piece) (s : string) (caps0 : list string)
    (k : list string -> string -> option R) (r : R) :
  match_pieces ps s caps0 k = Some r ->
  exists caps rest, matches ps s caps rest /\ k (caps0 ++ caps)%list rest = Some r.
Proof.
  revert s caps0 k. induction ps as [|[q|qs] ps IH]; intros s caps0 k H;
    cbn [match_pieces matches] in *.
  - exists [], s. rewrite app_nil_r. auto.
  - apply match_quants_sound in H as (a & s' & -> & Ha & H).
    apply IH in H as (caps & rest & Hm & Hk).
    exists caps, rest. split; [|assumption].
    exists a, s'. split; [reflexivity|]. split; [|assumption].
    simpl in Ha. destruct Ha as (a1 & a2 & -> & Hq & ->). now rewrite append_nil_r.
  - apply match_quants_sound in H as (a & s' & -> & Ha & H).
    apply IH in H as (caps & rest & Hm & Hk).
    exists (a :: caps), rest. split.
    + exists a, s', caps. auto.
    + now rewrite <- app_assoc in Hk.
Qed.

Lemma match_pieces_complete {R : Type} (ps : list piece) (s : string)
    (caps0 caps : list string) (rest : string) (k : list string -> string -> option R) :
  matches ps s caps rest -> (exists r, k (caps0 ++ caps)%list rest = Some r) ->
  exists r, match_pieces ps s caps0 k = Some r.
Proof.
  revert s caps0 caps k. induction ps as [|[q|qs] ps IH]; intros s caps0 caps k Hm Hk;
    cbn [match_pieces matches] in *.
  - destruct Hm as [-> ->]. now rewrite app_nil_r in Hk.
  - destruct Hm as (a & s' & -> & Hq & Hm).
    eapply (match_quants_complete [q]); [reflexivity | |].
    + simpl. exists a, EmptyString. now rewrite append_nil_r.
    + eapply IH; eauto.
  - destruct Hm as (a & s' & caps' & -> & Hq & -> & Hm).
    eapply match_quants_complete; [reflexivity | exact Hq |].
    eapply IH; [exact Hm|]. now rewrite <- app_assoc.
Qed.

Lemma re_match_sound (ps : list piece) (s : string) (g : list string) :
  re_match ps s = Some g -> exists rest, matches ps s g rest.
Proof.
  unfold re_match. intros H.
  apply match_pieces_sound in H as (caps & rest & Hm & [= <-]). eauto.
Qed.

Lemma re_match_complete (ps : list piece) (s : string) (caps : list string)
    (rest : string) :
  matches ps s caps rest -> exists g, re_match ps s = Some g.
Proof.
  intros H. unfold re_match. eapply match_pieces_complete; eauto.
Qed.

Lemma re_search_sound (ps : list piece) (s : string) (g : list string) :
  re_search ps s = Some g ->
  exists t rest, suffix_of t s /\ matches ps t g rest.
Proof.
  induction s as [|c s IH]; simpl; intros H.
  - destruct (re_match ps EmptyString) as [g'|] eqn:E; [|discriminate].
    injection H as ->. apply re_match_sound in E as [rest Hm].
    exists EmptyString, rest. split; [exists EmptyString; reflexivity | assumption].
  - destruct (re_match ps (String c s)) as [g'|] eqn:E.
    + injection H as ->. apply re_match_sound in E as [rest Hm].
      exists (String c s), rest. split; [exists EmptyString; reflexivity | assumption].
    + apply IH in H as (t & rest & [pre ->] & Hm).
      exists t, rest. split; [exists (String c pre); reflexivity | assumption].
Qed.

Lemma re_search_complete (ps : list piece) (s t : string) (caps : list string)
    (rest : string) :
  suffix_of t s -> matches ps t caps rest -> exists g, re_search ps s = Some g.
Proof.
  intros [pre ->] Hm. induction pre as [|c pre IH].
  - rewrite append_nil_l. destruct (re_match_complete _ _ _ _ Hm) as [g Hg].
    exists g. destruct t; simpl; now rewrite Hg.
  - rewrite append_cons. simpl.
    destruct (re_match ps (String c (pre ++ t))) as [g|]; eauto.
Qed.

End MatcherAdequacy.

(** ** The line filter *)

Section LineFilterFacts.
Import LineFilter.

Lemma searched_iff (ps : list piece) (s : string) :
  searched ps s = true
  <-> exists t caps rest, suffix_of t s /\ matches ps t caps rest.
Proof.
  unfold searched. split.
  - destruct (re_search ps s) as [g|] eqn:E; [|discriminate]. intros _.
    apply re_search_sound in E as (t & rest & Hs & Hm). eauto.
  - intros (t & caps & rest & Hs & Hm).
    destruct (re_search_complete _ _ _ _ _ Hs Hm) as [g ->]. reflexivity.
Qed.

Lemma accepts_empty (q : quant) : q_min q = 0 -> quant_accepts q EmptyString.
Proof.
  intros H. unfold quant_accepts. simpl. rewrite H.
  repeat split; [lia | destruct (q_max q); simpl; [lia | exact I]].
Qed.

Lemma accepts_nonempty (q : quant) (a : string) :
  quant_accepts q a -> 1 <= q_min q ->
  exists c a', a = String c a' /\ q_class q c = true.
Proof.
  intros (Hall & Hmin & _) H1. destruct a as [|c a']; simpl in *; [lia|].
  apply andb_true_iff in Hall as [Hc _]. eauto.
Qed.

(** The amount test asks for no more than one digit or comma. *)
Lemma amount_shape_at (c : ascii) (s : string) :
  DocumentProcessorAgent.digit_or_comma c = true ->
  matches amount_shape (String c s) [] s.
Proof.
  intros Hc. unfold amount_shape. cbn [matches].
  exists EmptyString, (String c s). split; [reflexivity|].
  split; [now apply accepts_empty|].
  exists (String c EmptyString), s. split; [reflexivity|]. split.
  { unfold quant_accepts. simpl. rewrite Hc. repeat split; lia. }
  exists EmptyString, s. split; [reflexivity|]. split; [now apply accepts_empty|].
  exists EmptyString, s. split; [reflexivity|]. split; [now apply accepts_empty|].
  split; reflexivity.
Qed.

Lemma has_amount_iff (line : string) :
  searched amount_shape line = true
  <-> has_char DocumentProcessorAgent.digit_or_comma line.
Proof.
  rewrite searched_iff. split.
  - intros (t & caps & rest & [pre ->] & Hm). unfold amount_shape in Hm.
    cbn [matches] in Hm.
    destruct Hm as (a0 & s0 & -> & H0 & a1 & s1 & -> & H1 & _).
    apply accepts_nonempty in H1 as (c & a' & -> & Hc); [|simpl; lia].
    exists (pre ++ a0), c, (a' ++ s1). split; [|exact Hc].
    now rewrite append_assoc.
  - intros (pre & c & post & -> & Hc).
    exists (String c post), [], post. split; [now exists pre|].
    now apply amount_shape_at.
Qed.

Lemma date_has_digit (line : string) :
  searched date_shape line = true -> has_char is_digit line.
Proof.
  rewrite searched_iff. intros (t & caps & rest & [pre ->] & Hm).
  unfold date_shape in Hm. cbn [matches] in Hm.
  destruct Hm as (a0 & s0 & -> & H0 & _).
  apply accepts_nonempty in H0 as (c & a' & -> & Hc); [|simpl; lia].
  exists pre, c, (a' ++ s0). split; [reflexivity | exact Hc].
Qed.

End LineFilterFacts.

(** X1. A line with a date shape always passes the amount test: the amount
    pattern is satisfied by any single digit or comma, so
    [_looks_like_transaction] asks for a date shape and three letters in a
    row and nothing else. *)
Theorem looks_like_transaction_ignores_amount :
  forall line : string,
    (LineFilter.searched LineFilter.amount_shape line = true
     <-> has_char DocumentProcessorAgent.digit_or_comma line)
    /\ LineFilter._looks_like_transaction line
       = LineFilter.searched LineFilter.date_shape line
         && LineFilter.searched LineFilter.letters_shape line.
Proof.
  intros line. split; [apply has_amount_iff|].
  unfold LineFilter._looks_like_transaction.
  destruct (LineFilter.searched LineFilter.date_shape line) eqn:Hd; [|reflexivity].
  apply date_has_digit in Hd as (pre & c & post & E & Hc).
  assert (Ha : LineFilter.searched LineFilter.amount_shape line = true).
  { apply has_amount_iff. exists pre, c, post. split; [assumption|].
    unfold DocumentProcessorAgent.digit_or_comma. now rewrite Hc. }
  now rewrite Ha.
Qed.

(** A dated line without any amount is kept. *)
Example dated_line_without_amount :
  LineFilter._find_transaction_lines "02/01/2024 HELLO" = ["02/01/2024 HELLO"].
Proof. vm_compute. reflexivity. Qed.

(** ** Headers and footers *)

Section HeaderFacts.
Import LineFilter.

Lemma startswith_iff (p s : string) :
  startswith p s = true <-> exists rest, s = p ++ rest.
Proof.
  revert s. induction p as [|a p IH]; intros s; simpl.
  - split; [eauto | reflexivity].
  - destruct s as [|b s].
    + split; [discriminate | intros [rest H]; discriminate].
    + rewrite andb_true_iff, IH, Ascii.eqb_eq. split.
      * intros [-> [rest ->]]. eauto.
      * intros [rest H]. rewrite append_cons in H. injection H as -> ->. eauto.
Qed.

Lemma chr_accepts (c : ascii) (a : string) :
  quant_accepts (chr c) a <-> a = String c EmptyString.
Proof.
  unfold quant_accepts. simpl. split.
  - intros (Hall & Hmin & Hmax). destruct a as [|x [|y a]]; simpl in *; try lia.
    rewrite andb_true_r in Hall. apply Ascii.eqb_eq in Hall. now subst.
  - intros ->. simpl. rewrite Ascii.eqb_refl. repeat split; lia.
Qed.

Lemma lit_accepts (w a : string) : quants_accept (lit w) a <-> a = w.
Proof.
  revert a. induction w as [|c w IH]; intros a.
  - reflexivity.
  - change (lit (String c w)) with (chr c :: lit w). simpl. split.
    + intros (a1 & a2 & -> & H1 & H2). apply chr_accepts in H1. apply IH in H2.
      now subst.
    + intros ->. exists (String c EmptyString), w.
      split; [reflexivity|]. split; [now apply chr_accepts | now apply IH].
Qed.

Lemma quants_accept_app (qs1 qs2 : list quant) (a : string) :
  quants_accept (qs1 ++ qs2)%list a
  <-> exists a1 a2, a = a1 ++ a2 /\ quants_accept qs1 a1 /\ quants_accept qs2 a2.
Proof.
  revert a. induction qs1 as [|q qs1 IH]; intros a; simpl.
  - split.
    + intros H. exists EmptyString, a. auto.
    + intros (a1 & a2 & -> & -> & H). exact H.
  - split.
    + intros (b1 & b2 & -> & Hq & H). apply IH in H as (c1 & c2 & -> & H1 & H2).
      exists (b1 ++ c1), c2. rewrite append_assoc.
      split; [reflexivity|]. split; [|assumption]. eauto.
    + intros (a1 & a2 & -> & (b1 & b2 & -> & Hq & H1) & H2).
      exists b1, (b2 ++ a2). rewrite append_assoc.
      split; [reflexivity|]. split; [assumption|].
      apply IH. eauto.
Qed.

Lemma quants_total_iff (qs : list quant) (s : string) :
  match match_quants qs s (fun _ _ => Some tt) with Some _ => true | None => false end
  = true
  <-> exists a rest, s = a ++ rest /\ quants_accept qs a.
Proof.
  split.
  - destruct (match_quants qs s _) as [r|] eqn:E; [|discriminate]. intros _.
    apply match_quants_sound in E as (a & rest & Hs & Ha & _). eauto.
  - intros (a & rest & Hs & Ha).
    destruct (match_quants_complete qs s a rest (fun _ _ => Some tt) Hs Ha) as [r ->];
      eauto.
Qed.

Lemma found_word (w s : string) :
  match match_quants (lit w) s (fun _ _ => Some tt) with Some _ => true | None => false end
  = true
  <-> startswith w s = true.
Proof.
  rewrite quants_total_iff, startswith_iff. split.
  - intros (a & rest & -> & Ha). apply lit_accepts in Ha. subst. eauto.
  - intros [rest ->]. exists w, rest. split; [reflexivity | now apply lit_accepts].
Qed.

Lemma found_words (ws : list string) (s : string) :
  found (StartsWith (map lit ws)) s = true
  <-> exists w, In w ws /\ startswith w s = true.
Proof.
  simpl. rewrite existsb_exists. split.
  - intros (qs & Hin & H). apply in_map_iff in Hin as (w & <- & Hw).
    exists w. split; [assumption | now apply found_word].
  - intros (w & Hw & H). exists (lit w). split; [now apply in_map | now apply found_word].
Qed.

Lemma single_accepts (q : quant) (a : string) :
  quants_accept [q] a <-> quant_accepts q a.
Proof.
  simpl. split.
  - intros (a1 & a2 & -> & H & ->). now rewrite append_nil_r.
  - intros H. exists a, EmptyString. now rewrite append_nil_r.
Qed.

Lemma found_page (s : string) :
  match match_quants (lit "page " ++ [plus is_digit])%list s (fun _ _ => Some tt) with
  | Some _ => true
  | None => false
  end = true
  <-> exists d rest, s = "page " ++ String d rest /\ is_digit d = true.
Proof.
  rewrite quants_total_iff. split.
  - intros (a & rest & -> & Ha).
    apply quants_accept_app in Ha as (a1 & a2 & -> & H1 & H2).
    apply lit_accepts in H1. subst a1.
    simpl in H2. destruct H2 as (b1 & b2 & -> & Hq & ->).
    apply accepts_nonempty in Hq as (d & b' & -> & Hd); [|simpl; lia].
    exists d, (b' ++ rest). split; [|exact Hd].
    now rewrite append_nil_r, append_assoc.
  - intros (d & rest & -> & Hd). exists ("page " ++ String d EmptyString), rest. split.
    + now rewrite append_assoc.
    + apply quants_accept_app. exists "page ", (String d EmptyString).
      split; [reflexivity|]. split; [now apply lit_accepts|].
      apply single_accepts. unfold quant_accepts. simpl. rewrite Hd.
      repeat split; lia.
Qed.

Lemma whole_iff (qs : list quant) (s : string) :
  found (Whole qs) s = true
  <-> exists a rest, s = a ++ rest /\ quants_accept qs a /\ at_end rest = true.
Proof.
  simpl. split.
  - destruct (match_quants qs s _) as [r|] eqn:E; [|discriminate]. intros _.
    apply match_quants_sound in E as (a & rest & Hs & Ha & Hk).
    exists a, rest. repeat split; try assumption.
    destruct (at_end rest); [reflexivity | discriminate].
  - intros (a & rest & Hs & Ha & He).
    destruct (match_quants_complete qs s a rest
                (fun _ rest => if at_end rest then Some tt else None) Hs Ha) as [r ->];
      [rewrite He; eauto | reflexivity].
Qed.

Lemma at_end_iff (rest : string) :
  at_end rest = true <-> rest = EmptyString \/ rest = String "010" EmptyString.
Proof.
  destruct rest as [|c [|d r]]; simpl.
  - split; auto.
  - rewrite andb_true_r, Ascii.eqb_eq. split.
    + intros ->. now right.
    + intros [H | [= ->]]; [discriminate | reflexivity].
  - rewrite andb_false_r. split; [discriminate | intros [H | H]; discriminate].
Qed.

Lemma found_blank (s : string) :
  found (Whole [star is_space]) s = true <-> str_all is_space s = true.
Proof.
  rewrite whole_iff. split.
  - intros (a & rest & -> & Ha & He). apply single_accepts in Ha as (Ha & _).
    simpl in Ha. rewrite str_all_app, Ha. simpl.
    apply at_end_iff in He as [-> | ->]; reflexivity.
  - intros H. exists s, EmptyString. rewrite append_nil_r.
    split; [reflexivity|]. split; [|reflexivity].
    apply single_accepts. unfold quant_accepts. simpl. repeat split; [assumption | lia].
Qed.

Lemma found_run (c : ascii) (s : string) :
  found (Whole [plus (one_of (String c EmptyString))]) s = true <-> run_of c s.
Proof.
  assert (Hcls : forall x, one_of (String c EmptyString) x = Ascii.eqb c x).
  { intros x. unfold one_of. simpl. now rewrite orb_false_r, Ascii.eqb_sym. }
  assert (Hall : forall a, str_all (one_of (String c EmptyString)) a = str_all (Ascii.eqb c) a).
  { induction a as [|x a IH]; simpl; [reflexivity | now rewrite Hcls, IH]. }
  rewrite whole_iff. unfold run_of. split.
  - intros (a & rest & -> & Ha & He). apply single_accepts in Ha as (Ha & Hmin & _).
    simpl in Ha, Hmin. exists a. rewrite <- Hall.
    split; [intros ->; simpl in Hmin; lia|]. split; [assumption|].
    apply at_end_iff in He as [-> | ->]; [left; apply append_nil_r | now right].
  - intros (a & Hne & Ha & Hs).
    assert (Hq : quants_accept [plus (one_of (String c EmptyString))] a).
    { apply single_accepts. unfold quant_accepts. simpl. rewrite Hall.
      repeat split; [assumption|]. destruct a; [contradiction | simpl; lia]. }
    destruct Hs as [-> | ->].
    + exists a, EmptyString. rewrite append_nil_r. auto.
    + exists a, (String "010" EmptyString). auto.
Qed.

Lemma header_iff (line : string) :
  _is_header_or_footer line = true
  <-> (exists w, In w header_words /\ startswith w (lower line) = true)
      \/ (exists d rest, lower line = "page " ++ String d rest /\ is_digit d = true)
      \/ str_all is_space (lower line) = true
      \/ run_of "-" (lower line)
      \/ run_of "=" (lower line).
Proof.
  unfold _is_header_or_footer, skip_patterns. cbn [existsb].
  rewrite orb_false_r, !orb_true_iff.
  rewrite (found_words ["account"; "statement"; "balance"; "date"; "description"; "amount"]).
  rewrite (found_words ["previous balance"; "ending balance"; "current balance"]).
  rewrite (found_words ["note:"; "total"; "summary"]).
  rewrite (found_words ["paid in"; "paid out"; "detail"; "payment type"]).
  rewrite found_blank, (found_run "-"), (found_run "=").
  assert (H2 : found (StartsWith [(lit "page " ++ [plus is_digit])%list;
                                  lit "statement period"; lit "issue date"]) (lower line)
               = true
               <-> (exists d rest, lower line = "page " ++ String d rest /\ is_digit d = true)
                   \/ exists w, In w ["statement period"; "issue date"]
                                /\ startswith w (lower line) = true).
  { rewrite <- (found_words ["statement period"; "issue date"]).
    cbn [found existsb map]. rewrite orb_true_iff, found_page. reflexivity. }
  rewrite H2. unfold header_words. split.
  - intros [(w & Hw & H) | [[H | (w & Hw & H)] | [(w & Hw & H) | [(w & Hw & H)
            | [(w & Hw & H) | [H | [H | H]]]]]]];
      try (left; exists w; split; [simpl in *; tauto | assumption]); tauto.
  - intros [(w & Hw & H) | [H | [H | [H | H]]]]; try tauto.
    simpl in Hw.
    repeat match goal with
           | Hw : _ \/ _ |- _ => destruct Hw as [<- | Hw]
           | Hw : False |- _ => destruct Hw
           end;
      first [ left; eexists; split; [|exact H]; simpl; tauto
            | right; left; right; eexists; split; [|exact H]; simpl; tauto
            | right; right; left; eexists; split; [|exact H]; simpl; tauto
            | right; right; right; left; eexists; split; [|exact H]; simpl; tauto
            | right; right; right; right; left; eexists; split; [|exact H]; simpl; tauto ].
Qed.

Lemma lower_char_idem (c : ascii) : lower_char (lower_char c) = lower_char c.
Proof. destruct c as [[] [] [] [] [] [] [] []]; reflexivity. Qed.

Lemma lower_idem (s : string) : lower (lower s) = lower s.
Proof.
  induction s as [|c s IH]; simpl; [reflexivity | now rewrite lower_char_idem, IH].
Qed.

Lemma digit_line_not_header (c : ascii) (s : string) :
  is_digit c = true -> _is_header_or_footer (String c s) = false.
Proof.
  destruct c as [[] [] [] [] [] [] [] []]; intros H; vm_compute in H;
    try discriminate H; vm_compute; reflexivity.
Qed.

End HeaderFacts.

(** X2. A line is taken for a header or footer exactly when, in lower
    case, it starts with one of the eighteen phrases or with page, a space
    and a digit, or is made of whitespace only, or is a run of dashes or of
    equals signs (a final newline apart). The phrases are prefixes, not
    words, and the test does not depend on the case of the letters. *)
Theorem header_or_footer_lines :
  forall line : string,
    (LineFilter._is_header_or_footer line = true
     <-> (exists w, In w header_words /\ startswith w (lower line) = true)
         \/ (exists d rest, lower line = "page " ++ String d rest /\ is_digit d = true)
         \/ str_all is_space (lower line) = true
         \/ run_of "-" (lower line)
         \/ run_of "=" (lower line))
    /\ LineFilter._is_header_or_footer (lower line) = LineFilter._is_header_or_footer line.
Proof.
  intros line. split; [apply header_iff|].
  unfold LineFilter._is_header_or_footer. now rewrite lower_idem.
Qed.

(** X3. A line that starts with a digit, as a line that starts with its
    date does, is never taken for a header or footer. *)
Theorem dated_lines_are_not_headers :
  forall (c : ascii) (rest : string),
    is_digit c = true -> LineFilter._is_header_or_footer (String c rest) = false.
Proof. intros c rest H. now apply digit_line_not_header. Qed.

Lemma dated_lines_are_not_headers_witness :
  is_digit "0" = true
  /\ LineFilter._is_header_or_footer "02/01/2024 TOTAL WINE -$4.50 $1,851.92" = false.
Proof.
  split; [reflexivity|].
  exact (dated_lines_are_not_headers "0" "2/01/2024 TOTAL WINE -$4.50 $1,851.92" eq_refl).
Defined.

(** ** Stripping, splitting and joining *)

Section Lines.
Import LineFilter.

Lemma lstrip_starts_clean (s : string) : starts_clean (lstrip s).
Proof.
  induction s as [|c s IH]; simpl; [exact I|].
  destruct (is_space c) eqn:E; [exact IH | exact E].
Qed.

Lemma lstrip_clean (s : string) : starts_clean s -> lstrip s = s.
Proof. destruct s as [|c s]; simpl; [reflexivity | now intros ->]. Qed.

Lemma rstrip_starts_clean (s : string) : starts_clean s -> starts_clean (rstrip s).
Proof.
  destruct s as [|c s]; simpl; [auto|]. intros H.
  destruct (rstrip s); [rewrite H|]; exact H.
Qed.

Lemma rstrip_idem (s : string) : rstrip (rstrip s) = rstrip s.
Proof.
  induction s as [|c s IH]; simpl; [reflexivity|].
  destruct (rstrip s) as [|d r] eqn:E.
  - destruct (is_space c) eqn:Hc; simpl; [reflexivity | now rewrite Hc].
  - simpl in IH |- *. destruct (rstrip r) as [|d' r'] eqn:Er.
    + destruct (is_space d); [discriminate IH | now rewrite IH].
    + now rewrite IH.
Qed.

(** [strip] does nothing to a stripped text. *)
Lemma strip_idem (s : string) : strip (strip s) = strip s.
Proof.
  unfold strip.
  rewrite (lstrip_clean (rstrip (lstrip s)))
    by apply rstrip_starts_clean, lstrip_starts_clean.
  apply rstrip_idem.
Qed.

Lemma strip_keeps_class (P : ascii -> bool) (s : string) :
  str_all P s = true -> str_all P (strip s) = true.
Proof. intros H. now apply rstrip_keeps_class, lstrip_keeps_class. Qed.

Lemma split_from_lines (cur text : string) :
  str_all not_newline cur = true ->
  Forall (fun l => str_all not_newline l = true) (split_from cur text).
Proof.
  revert cur. induction text as [|c text IH]; intros cur H; simpl.
  - constructor; [assumption | constructor].
  - destruct (Ascii.eqb c "010") eqn:E.
    + constructor; [assumption | now apply IH].
    + apply IH. rewrite str_all_app, H. simpl. unfold not_newline. now rewrite E.
Qed.

Lemma split_from_line (cur l rest : string) :
  str_all not_newline l = true ->
  split_from cur (l ++ rest) = split_from (cur ++ l) rest.
Proof.
  revert cur. induction l as [|c l IH]; intros cur H.
  - now rewrite append_nil_l, append_nil_r.
  - simpl in H. apply andb_true_iff in H as [Hc Hl].
    rewrite append_cons. simpl. unfold not_newline in Hc.
    apply negb_true_iff in Hc. rewrite Hc, (IH _ Hl), append_assoc. reflexivity.
Qed.

(** Splitting what was joined gives the lines back. *)
Lemma split_join (lines : list string) :
  lines <> [] ->
  Forall (fun l => str_all not_newline l = true) lines ->
  split_lines (join_lines lines) = lines.
Proof.
  unfold split_lines. induction lines as [|l ls IH]; intros Hne Hall; [contradiction|].
  inversion Hall as [|? ? Hl Hls]; subst.
  destruct ls as [|l' ls].
  - simpl. rewrite <- (append_nil_r l) at 1.
    rewrite (split_from_line EmptyString l EmptyString Hl). reflexivity.
  - change (join_lines (l :: l' :: ls)) with (l ++ String "010" (join_lines (l' :: ls))).
    rewrite (split_from_line EmptyString l _ Hl), append_nil_l.
    change (split_from l (String "010" (join_lines (l' :: ls))))
      with (l :: split_from EmptyString (join_lines (l' :: ls))).
    rewrite IH; [reflexivity | discriminate | assumption].
Qed.

Lemma find_lines_from (lines acc : list string) :
  fold_left
    (fun potential_transactions line =>
       let line := strip line in
       if String.eqb line EmptyString then potential_transactions
       else if _is_header_or_footer line then potential_transactions
       else if _looks_like_transaction line then
         (potential_transactions ++ [line])%list
       else potential_transactions)
    lines acc
  = (acc ++ List.filter kept (map strip lines))%list.
Proof.
  revert acc. induction lines as [|l ls IH]; intros acc; simpl.
  - now rewrite app_nil_r.
  - rewrite IH. unfold kept at 2.
    destruct (String.eqb (strip l) EmptyString); simpl; [reflexivity|].
    destruct (_is_header_or_footer (strip l)); simpl; [reflexivity|].
    destruct (_looks_like_transaction (strip l)); simpl; [|reflexivity].
    now rewrite <- app_assoc.
Qed.

(** The lines found are the stripped lines of the text that pass the three
    tests, in the order of the text. *)
Lemma find_lines_filter (text : string) :
  _find_transaction_lines text = List.filter kept (map strip (split_lines text)).
Proof. unfold _find_transaction_lines. now rewrite find_lines_from. Qed.

Lemma found_lines_are_clean (text : string) :
  Forall (fun l => kept l = true /\ strip l = l /\ str_all not_newline l = true)
         (_find_transaction_lines text).
Proof.
  rewrite find_lines_filter. apply List.Forall_forall. intros l Hl.
  apply filter_In in Hl as [Hin Hk]. apply in_map_iff in Hin as (l0 & <- & Hin).
  split; [assumption|]. split; [apply strip_idem|].
  apply strip_keeps_class.
  pose proof (split_from_lines EmptyString text eq_refl) as Hall.
  rewrite List.Forall_forall in Hall. now apply Hall.
Qed.

Lemma filter_all {A : Type} (p : A -> bool) (l : list A) :
  Forall (fun x => p x = true) l -> List.filter p l = l.
Proof.
  induction 1 as [|x l Hx Hl IH]; simpl; [reflexivity|]. now rewrite Hx, IH.
Qed.

Lemma map_fixed {A : Type} (f : A -> A) (l : list A) :
  Forall (fun x => f x = x) l -> map f l = l.
Proof.
  induction 1 as [|x l Hx Hl IH]; simpl; [reflexivity|]. now rewrite Hx, IH.
Qed.

End Lines.

(** X4. The lines the filter finds are stripped, hold no newline and pass
    the three tests, so filtering them again changes nothing: joined by
    newlines and given back to [_find_transaction_lines], the lines found
    in a text come out as they are, in the same order. *)
Theorem find_transaction_lines_is_idempotent :
  forall text : string,
    Forall (fun l => strip l = l /\ l <> EmptyString
                     /\ LineFilter._is_header_or_footer l = false
                     /\ LineFilter._looks_like_transaction l = true)
           (LineFilter._find_transaction_lines text)
    /\ LineFilter._find_transaction_lines
         (join_lines (LineFilter._find_transaction_lines text))
       = LineFilter._find_transaction_lines text.
Proof.
  intros text. pose proof (found_lines_are_clean text) as Hclean.
  rewrite List.Forall_forall in Hclean. split.
  - apply List.Forall_forall. intros l Hl. destruct (Hclean l Hl) as (Hk & Hs & _).
    unfold kept in Hk. rewrite !andb_true_iff, !negb_true_iff in Hk.
    destruct Hk as [[Hne Hh] Hl']. apply String.eqb_neq in Hne. auto.
  - set (out := LineFilter._find_transaction_lines text) in *.
    rewrite find_lines_filter. destruct out as [|l ls] eqn:E; [reflexivity|].
    rewrite split_join.
    + rewrite map_fixed, filter_all; [reflexivity | |];
        apply List.Forall_forall; intros x Hx; now apply Hclean.
    + discriminate.
    + apply List.Forall_forall. intros x Hx. now apply Hclean.
Qed.

(** ** What the parser returns *)

Section ParserFacts.
Import DocumentProcessorAgent.

Ltac char_cases :=
  let c := fresh "c" in
  intros c; destruct c as [[] [] [] [] [] [] [] []]; vm_compute;
  let H := fresh in intros H; first [reflexivity | discriminate H].

Lemma alpha_is_description_char :
  forall c, is_alpha c = true -> not_sign_dollar_digit c = true.
Proof. char_cases. Qed.

Lemma description_char_no_dollar_digit :
  forall c, not_sign_dollar_digit c = true -> not_dollar_digit c = true.
Proof. char_cases. Qed.

Lemma alpha_no_dollar_digit : forall c, is_alpha c = true -> not_dollar_digit c = true.
Proof. char_cases. Qed.

(** Whatever the description group of the third pattern accepts, the one
    of the first pattern accepts. *)
Lemma generic_description_is_chase (a : string) :
  quants_accept [cls is_alpha; star_lazy not_sign_dollar_digit] a ->
  quants_accept [plus_lazy not_sign_dollar_digit] a.
Proof.
  simpl. intros (a1 & a2 & -> & (H1 & Hmin & _) & (b1 & b2 & -> & (H2 & _) & ->)).
  simpl in *. exists (a1 ++ b1), EmptyString.
  rewrite !append_nil_r. split; [reflexivity|]. split; [|reflexivity].
  unfold quant_accepts. simpl. rewrite str_all_app, H2, andb_true_r.
  split; [apply (str_all_impl is_alpha); [apply alpha_is_description_char | exact H1]|].
  split; [rewrite length_append; lia | exact I].
Qed.

Lemma generic_match_is_chase (t : string) (caps : list string) (rest : string) :
  matches (regex (Pattern
      [ Group (date_with "/"); Plain (plus is_space);
        Group [cls is_alpha; star_lazy not_sign_dollar_digit];
        Plain (plus is_space);
        Group signed_amount; Plain (plus is_space);
        Plain (opt (one_of "$")); Group unsigned_amount ]
      (GroupMap 1 2 3 (Some 4)) "Generic Format")) t caps rest ->
  matches (regex (Pattern
      [ Group (date_with "/"); Plain (plus is_space);
        Group [plus_lazy not_sign_dollar_digit]; Plain (plus is_space);
        Group signed_amount; Plain (plus is_space);
        Plain (opt (one_of "$")); Group unsigned_amount ]
      (GroupMap 1 2 3 (Some 4)) "Chase Format")) t caps rest.
Proof.
  cbn [regex matches].
  intros (a1 & s1 & c1 & -> & H1 & -> & a2 & s2 & -> & H2
          & a3 & s3 & c3 & -> & H3 & -> & Hrest).
  exists a1. do 2 eexists. split; [reflexivity|]. split; [exact H1|].
  split; [reflexivity|].
  exists a2. eexists. split; [reflexivity|]. split; [exact H2|].
  exists a3, s3, c3. split; [reflexivity|].
  split; [now apply generic_description_is_chase|]. split; [reflexivity | exact Hrest].
Qed.

(** The pattern a parsed line was parsed with. *)
Lemma parsed_pattern (now : datetime) (line : string) (t : Transaction) :
  _parse_single_transaction now line = Some t ->
  pattern_used t = "Chase Format" \/ pattern_used t = "Wells Fargo Format".
Proof.
  unfold _parse_single_transaction, patterns. cbn [first_some].
  destruct (re_search (regex (Pattern _ _ "Chase Format")) line) as [g1|] eqn:E1.
  { intros [= <-]. now left. }
  destruct (re_search (regex (Pattern _ _ "Wells Fargo Format")) line) as [g2|] eqn:E2.
  { intros [= <-]. now right. }
  destruct (re_search (regex (Pattern _ _ "Generic Format")) line) as [g3|] eqn:E3;
    [|discriminate].
  exfalso. apply re_search_sound in E3 as (t3 & rest & Hs & Hm).
  apply generic_match_is_chase in Hm.
  destruct (re_search_complete _ _ _ _ _ Hs Hm) as [g Hg]. congruence.
Qed.

Lemma parsed_fields (now : datetime) (line : string) (t : Transaction) :
  _parse_single_transaction now line = Some t ->
  exists p gs,
    In p patterns /\ re_search (regex p) line = Some gs
    /\ t = _extract_transaction_data now gs p line.
Proof.
  unfold _parse_single_transaction. intros H.
  apply first_some_in in H as (p & Hp & H).
  destruct (re_search (regex p) line) as [gs|] eqn:E; [|discriminate].
  injection H as <-. eauto.
Qed.

Lemma fold_left_snoc {A B : Type} (f : A -> B -> A) (l : list B) (x : B) (a : A) :
  fold_left f (l ++ [x])%list a = f (fold_left f l a) x.
Proof. now rewrite fold_left_app. Qed.

Lemma parse_lines_snoc (now : datetime) (lines : list string) (line : string) :
  _parse_transaction_lines now (lines ++ [line])%list
  = match _parse_single_transaction now line with
    | Some parsed =>
        (_parse_transaction_lines now lines ++
         [set_transaction_id parsed
            ("txn_" ++ of_nat (List.length (_parse_transaction_lines now lines) + 1))])%list
    | None => _parse_transaction_lines now lines
    end.
Proof. unfold _parse_transaction_lines. now rewrite fold_left_snoc. Qed.

End ParserFacts.

(** X5. The parser numbers the transactions it returns txn_1, txn_2, ...
    in the order of the lines; the lines that match no pattern are dropped
    without leaving a gap, and each transaction keeps the line it came
    from. *)
Theorem parsed_transactions_are_numbered :
  forall (now : datetime) (transaction_lines : list string),
    let out := DocumentProcessorAgent._parse_transaction_lines now transaction_lines in
    map transaction_id out
    = map (fun i => Some ("txn_" ++ of_nat i)) (seq 1 (List.length out))
    /\ map original_line out = List.filter (parses now) transaction_lines
    /\ List.length out <= List.length transaction_lines.
Proof.
  intros now lines. cbv zeta.
  induction lines as [|line lines IH] using rev_ind.
  - repeat split. simpl. lia.
  - rewrite parse_lines_snoc, List.filter_app, length_app. simpl.
    destruct IH as (Hid & Hline & Hlen). unfold parses at 2.
    destruct (DocumentProcessorAgent._parse_single_transaction now line) as [t|] eqn:E.
    + rewrite !map_app, length_app, seq_app, map_app. simpl.
      rewrite Hid, Hline. split; [|split; [|lia]].
      * now rewrite Nat.add_1_r.
      * f_equal. apply parsed_fields in E as (p & gs & _ & _ & ->). reflexivity.
    + rewrite app_nil_r. repeat split; try assumption. lia.
Qed.

(** X6. The third pattern is never the one used: every line it matches is
    matched by the first, which is tried before it. A parsed transaction
    carries Chase Format or Wells Fargo Format, and starts uncategorized
    with confidence 0.0 and source deterministic. *)
Theorem generic_pattern_is_never_used :
  forall (now : datetime) (transaction_lines : list string),
    Forall (fun t =>
              (pattern_used t = "Chase Format" \/ pattern_used t = "Wells Fargo Format")
              /\ fresh t)
           (DocumentProcessorAgent._parse_transaction_lines now transaction_lines).
Proof.
  intros now lines. apply parse_lines_invariant. intros line t H i. split.
  - simpl. eapply parsed_pattern; eauto.
  - apply parsed_fields in H as (p & gs & _ & _ & ->). repeat split.
Qed.

(** ** Substitution *)

Section Substitution.

(** Where every text the pattern accepts has a character, a match has a
    length of one or more. *)
Lemma match_is_nonempty (qs : list quant) (s a rest : string) :
  s = a ++ rest -> quants_accept qs a ->
  (forall a', quants_accept qs a' -> a' <> EmptyString) ->
  exists n, match_length qs s = Some (S n).
Proof.
  intros Hs Ha Hne. unfold match_length.
  destruct (match_quants_complete qs s a rest (fun a _ => Some (String.length a)) Hs Ha)
    as [r Hr]; [eauto|].
  rewrite Hr. apply match_quants_sound in Hr as (a' & rest' & _ & Ha' & [= <-]).
  apply Hne in Ha'. destruct a' as [|c a']; [contradiction | simpl; eauto].
Qed.

(** The characters left by a substitution: those of the replacement, and
    those of the text at which no match starts. *)
Lemma sub_from_class (P Q : ascii -> bool) (qs : list quant) (repl : string) :
  str_all Q repl = true ->
  (forall c s, P c = true -> Q c = false -> exists n, match_length qs (String c s) = Some (S n)) ->
  forall skip s, str_all P s = true -> str_all Q (sub_from qs repl skip s) = true.
Proof.
  intros Hrepl Hmatch skip s. revert skip.
  induction s as [|c s IH]; intros skip H; simpl; [reflexivity|].
  simpl in H. apply andb_true_iff in H as [Hc Hs].
  destruct skip as [|n]; [|auto].
  fold (match_length qs (String c s)).
  assert (Hemit : match_length qs (String c s) = None
                  \/ match_length qs (String c s) = Some 0 -> Q c = true).
  { intros Hm. destruct (Q c) eqn:Hq; [reflexivity|].
    destruct (Hmatch c s Hc Hq) as [n Hn]. rewrite Hn in Hm.
    destruct Hm; discriminate. }
  destruct (match_length qs (String c s)) as [[|n]|].
  - simpl. rewrite Hemit by auto. simpl. auto.
  - rewrite str_all_app, Hrepl. simpl. auto.
  - simpl. rewrite Hemit by auto. simpl. auto.
Qed.

End Substitution.

(** ** The fields of a parsed transaction *)

Section ParsedFields.
Import DocumentProcessorAgent.

Ltac char_cases :=
  let c := fresh "c" in
  intros c; destruct c as [[] [] [] [] [] [] [] []]; vm_compute;
  let H := fresh in intros H; first [reflexivity | discriminate H].

(** In each pattern the second group holds no dollar sign and no digit,
    and the fourth digits, commas and points. *)
Lemma patterns_groups (p : pattern) :
  In p patterns ->
  g_description (groups p) = 2 /\ g_balance (groups p) = Some 4
  /\ g_date (groups p) = 1
  /\ groups_within (regex p) [any_char; not_dollar_digit; any_char; balance_char].
Proof.
  assert (Hb : quants_within balance_char unsigned_amount)
    by (repeat constructor; char_cases).
  intros [<- | [<- | [<- | []]]]; (split; [reflexivity|]);
    (split; [reflexivity|]); (split; [reflexivity|]);
    cbn [regex groups_within]; repeat split;
    auto using anything_within;
    repeat constructor;
    first [ apply description_char_no_dollar_digit
          | apply alpha_no_dollar_digit
          | intros c Hc; exact Hc ].
Qed.

Lemma four_groups (Ps : list (ascii -> bool)) (gs : list string)
    (P1 P2 P3 P4 : ascii -> bool) :
  Ps = [P1; P2; P3; P4] ->
  Forall2 (fun P a => str_all P a = true) Ps gs ->
  exists g1 g2 g3 g4,
    gs = [g1; g2; g3; g4]
    /\ str_all P1 g1 = true /\ str_all P2 g2 = true
    /\ str_all P3 g3 = true /\ str_all P4 g4 = true.
Proof.
  intros -> H.
  inversion H as [|? g1 ? l1 H1 T1]; subst.
  inversion T1 as [|? g2 ? l2 H2 T2]; subst.
  inversion T2 as [|? g3 ? l3 H3 T3]; subst.
  inversion T3 as [|? g4 ? l4 H4 T4]; subst.
  inversion T4; subst. exists g1, g2, g3, g4. auto.
Qed.

Lemma space_starts_match (c : ascii) (s : string) :
  is_space c = true -> exists n, match_length [plus is_space] (String c s) = Some (S n).
Proof.
  intros Hc. apply (match_is_nonempty _ _ (String c EmptyString) s); [reflexivity | |].
  - apply single_accepts. unfold quant_accepts. simpl. rewrite Hc. repeat split; lia.
  - intros a' Ha ->. apply single_accepts in Ha as (_ & Hmin & _). simpl in Hmin. lia.
Qed.

Lemma code_starts_match (c : ascii) (s : string) :
  one_of "#*" c = true ->
  exists n, match_length [cls (one_of "#*"); star is_word] (String c s) = Some (S n).
Proof.
  intros Hc. apply (match_is_nonempty _ _ (String c EmptyString) s); [reflexivity | |].
  - simpl. exists (String c EmptyString), EmptyString. split; [reflexivity|]. split.
    + unfold quant_accepts. simpl. rewrite Hc. repeat split; lia.
    + exists EmptyString, EmptyString. split; [reflexivity|].
      split; [now apply accepts_empty | reflexivity].
  - simpl. intros a' (a1 & a2 & -> & (_ & Hmin & _) & _) E. simpl in Hmin.
    destruct a1; [simpl in Hmin; lia | discriminate].
Qed.

(** The cleanup of a description group. *)
Lemma description_is_clean (g : string) :
  str_all not_dollar_digit g = true ->
  let d := strip (re_sub [cls (one_of "#*"); star is_word] EmptyString
                    (re_sub [plus is_space] " " (strip g))) in
  str_all clean_char d = true /\ strip d = d.
Proof.
  intros Hg d. split; [|apply strip_idem].
  apply strip_keeps_class. unfold re_sub.
  apply (sub_from_class
           (fun c => not_dollar_digit c && (negb (is_space c) || Ascii.eqb c " "))
           clean_char).
  - reflexivity.
  - intros c s Hp Hq. apply code_starts_match. unfold clean_char in Hq.
    rewrite Hp in Hq. simpl in Hq. now apply negb_false_iff in Hq.
  - apply (sub_from_class not_dollar_digit).
    + reflexivity.
    + intros c s Hp Hq. apply space_starts_match. rewrite Hp in Hq. simpl in Hq.
      apply orb_false_iff in Hq as [Hq _]. now apply negb_false_iff in Hq.
    + now apply strip_keeps_class.
Qed.

Lemma digits_value_nonneg (s : string) (acc : Z) :
  (0 <= acc)%Z -> (0 <= digits_value acc s)%Z.
Proof.
  revert acc. induction s as [|c s IH]; intros acc H; simpl; [assumption|].
  apply IH. unfold digit_value. lia.
Qed.

Lemma read_number_nonneg (s : string) (q : Q) :
  read_number s = Some q -> (0 <= q)%Q.
Proof.
  unfold read_number.
  destruct (read_digits false s) as [ip r1].
  destruct (match r1 with String "." r => read_digits false r | _ => (EmptyString, r1) end)
    as [fp r2].
  destruct (ip ++ fp) as [|c ds] eqn:E; [discriminate|].
  destruct (read_exponent r2) as [[e [|? ?]]|]; try discriminate.
  intros [= <-]. rewrite Qred_correct.
  apply Qmult_le_0_compat.
  - pose proof (digits_value_nonneg (String c ds) 0%Z (Z.le_refl 0)) as Hz.
    simpl in Hz. unfold Qle. simpl. lia.
  - apply Qpower_0_le. discriminate.
Qed.

Lemma balance_char_plain :
  forall c, balance_char c = true ->
            lower_char c <> "i"%char /\ lower_char c <> "n"%char
            /\ c <> "-"%char /\ c <> "+"%char.
Proof.
  intros c; destruct c as [[] [] [] [] [] [] [] []]; vm_compute; intros H;
    first [discriminate H | repeat split; intros E; discriminate E].
Qed.

(** Digits, commas and points never read as a negative number. *)
Lemma float_of_balance_text (s : string) (x : pyfloat) :
  str_all balance_char s = true -> float_of_string s = Some x -> nonnegative x.
Proof.
  intros H. unfold float_of_string.
  assert (Hstrip : str_all balance_char (strip s) = true) by now apply strip_keeps_class.
  destruct (strip s) as [|c r] eqn:Et.
  - simpl. intros [=].
  - simpl in Hstrip. apply andb_true_iff in Hstrip as [Hc Hr].
    destruct (balance_char_plain c Hc) as (Hi & Hn & Hminus & Hplus).
    assert (Hbody : (match String c r with
                     | String "-" r0 => (true, r0)
                     | String "+" r0 => (false, r0)
                     | _ => (false, String c r)
                     end) = (false, String c r)).
    { destruct c as [[] [] [] [] [] [] [] []]; try reflexivity; contradiction. }
    rewrite Hbody.
    assert (Hinf : String.eqb (lower (String c r)) "inf"
                   || String.eqb (lower (String c r)) "infinity" = false).
    { apply orb_false_iff. split; apply String.eqb_neq; simpl; intros [= E _];
        contradiction. }
    assert (Hnan : String.eqb (lower (String c r)) "nan" = false).
    { apply String.eqb_neq. simpl. intros [= E _]. contradiction. }
    rewrite Hinf, Hnan.
    destruct (read_number (String c r)) as [q|] eqn:Eq; [|discriminate].
    intros [= <-]. apply read_number_nonneg in Eq.
    unfold nonnegative, fge. simpl. now apply Qle_bool_iff.
Qed.

Lemma parse_balance_nonneg (s : string) :
  str_all balance_char s = true -> nonnegative (_parse_amount s).
Proof.
  intros H. unfold _parse_amount.
  destruct (float_of_string _) as [x|] eqn:E; [|reflexivity].
  eapply float_of_balance_text; [|exact E]. now apply sub_from_keeps_class.
Qed.

(** The fields of a parsed transaction, from the groups of its match. *)
Lemma parsed_groups (now : datetime) (line : string) (t : Transaction) :
  _parse_single_transaction now line = Some t ->
  exists g1 g2 g4,
    str_all not_dollar_digit g2 = true
    /\ str_all balance_char g4 = true
    /\ date t = strftime_Y_m_d (_parse_date now g1)
    /\ description t
       = strip (re_sub [cls (one_of "#*"); star is_word] EmptyString
                  (re_sub [plus is_space] " " (strip g2)))
    /\ balance t = _parse_amount g4.
Proof.
  intros H. apply parsed_fields in H as (p & gs & Hp & Hm & ->).
  destruct (patterns_groups p Hp) as (Hd & Hb & Hdate & Hw).
  pose proof (re_search_classes _ _ _ _ Hw Hm) as Hc.
  destruct (four_groups _ _ _ _ _ _ eq_refl Hc) as (g1 & g2 & g3 & g4 & -> & _ & H2 & _ & H4).
  exists g1, g2, g4. unfold _extract_transaction_data. rewrite Hd, Hb, Hdate.
  repeat split; assumption.
Qed.

End ParsedFields.

(** X7. The description of a parsed transaction holds no digit, no dollar
    sign, no hash, no star and no whitespace but the space, and neither
    starts nor ends with a space. *)
Theorem parsed_description_is_clean :
  forall (now : datetime) (transaction_lines : list string),
    Forall (fun t => str_all clean_char (description t) = true
                     /\ strip (description t) = description t)
           (DocumentProcessorAgent._parse_transaction_lines now transaction_lines).
Proof.
  intros now lines. apply parse_lines_invariant. intros line t H i. simpl.
  apply parsed_groups in H as (g1 & g2 & g4 & H2 & _ & _ & -> & _).
  now apply description_is_clean.
Qed.

(** X8. The balance of a parsed transaction is never negative: the balance
    group holds digits, commas and points only, so a minus sign before a
    balance is never read. *)
Theorem parsed_balance_is_nonnegative :
  forall (now : datetime) (transaction_lines : list string),
    Forall (fun t => nonnegative (balance t))
           (DocumentProcessorAgent._parse_transaction_lines now transaction_lines).
Proof.
  intros now lines. apply parse_lines_invariant. intros line t H i. simpl.
  apply parsed_groups in H as (g1 & g2 & g4 & _ & H4 & _ & _ & ->).
  now apply parse_balance_nonneg.
Qed.

Section ParsedDates.
Import DocumentProcessorAgent.

(** The pattern a parsed line was read with is the first that is found
    in it, and the date comes from the first group of its match. *)
Lemma parsed_date_group (now : datetime) (line : string) (t : Transaction) :
  _parse_single_transaction now line = Some t ->
  exists pre p post gs,
    patterns = (pre ++ p :: post)%list
    /\ Forall (fun q => re_search (regex q) line = None) pre
    /\ re_search (regex p) line = Some gs
    /\ original_line t = line
    /\ date t = strftime_Y_m_d (_parse_date now (group gs 1)).
Proof.
  unfold _parse_single_transaction. intros H.
  apply first_some_split in H as (pre & p & post & Hl & Hpre & Hp).
  destruct (re_search (regex p) line) as [gs|] eqn:E; [|discriminate].
  injection Hp as <-. exists pre, p, post, gs.
  split; [exact Hl|]. split.
  { eapply List.Forall_impl; [|exact Hpre]. intros q Hq. simpl in Hq.
    now destruct (re_search (regex q) line). }
  split; [exact E|]. split; [reflexivity|].
  assert (Hin : In p patterns) by (rewrite Hl; apply in_elt).
  destruct (patterns_groups p Hin) as (_ & _ & Hdate & _).
  unfold _extract_transaction_data. cbn [date]. now rewrite Hdate.
Qed.

Lemma parse_date_origin (now : datetime) (g : string) :
  date_of_group now g (_parse_date now g).
Proof.
  unfold _parse_date, date_of_group.
  destruct (first_format g) as [d|] eqn:E; unfold first_format in E.
  - left. apply first_some_split in E as (pre & fmt & post & Hl & Hpre & Hfmt).
    exists pre, fmt, post. auto.
  - right. apply first_some_none in E. auto.
Qed.

Lemma date_of_group_valid (now : datetime) (g : string) (d : datetime) :
  valid_date (year now) (month now) (day now) = true ->
  date_of_group now g d ->
  valid_date (year d) (month d) (day d) = true.
Proof.
  intros Hnow [(pre & fmt & post & _ & _ & H) | [_ ->]]; [|exact Hnow].
  eapply strptime_valid; eauto.
Qed.

End ParsedDates.

(** X9. The date of a parsed transaction is made from the date group of
    the match of the first pattern found in its line: it is the text of the
    date that the first of the four formats able to read the group reads,
    and the text of the current date when no format reads the group (the
    month 13, say). When the current date is a date of the calendar, so is
    the date written; the text is its year, its month in two digits and its
    day in two digits with dashes between, which is YYYY-MM-DD from the year
    1000 on. *)
Theorem parsed_date_is_a_date :
  forall (now : datetime) (transaction_lines : list string),
    valid_date (year now) (month now) (day now) = true ->
    Forall (fun t => exists pre p post gs d,
                DocumentProcessorAgent.patterns = (pre ++ p :: post)%list
                /\ Forall (fun q => re_search (DocumentProcessorAgent.regex q)
                                              (original_line t) = None) pre
                /\ re_search (DocumentProcessorAgent.regex p) (original_line t)
                   = Some gs
                /\ date_of_group now (DocumentProcessorAgent.group gs 1) d
                /\ date t = strftime_Y_m_d d
                /\ valid_date (year d) (month d) (day d) = true
                /\ year_month_day (date t) = Some (year d, month d, day d)
                /\ ((1000 <= year d)%N ->
                    iso_fields (date t) = Some (year d, month d, day d)))
           (DocumentProcessorAgent._parse_transaction_lines now transaction_lines).
Proof.
  intros now lines Hnow. apply parse_lines_invariant. intros line t H i. simpl.
  apply parsed_date_group in H as (pre & p & post & gs & Hl & Hpre & Hp & -> & ->).
  pose proof (parse_date_origin now (DocumentProcessorAgent.group gs 1)) as Ho.
  pose proof (date_of_group_valid now _ _ Hnow Ho) as Hv.
  exists pre, p, post, gs, (DocumentProcessorAgent._parse_date now
                              (DocumentProcessorAgent.group gs 1)).
  split; [exact Hl|]. split; [exact Hpre|]. split; [exact Hp|].
  split; [exact Ho|]. split; [reflexivity|]. split; [exact Hv|].
  split; [now apply strftime_reads_back|].
  intros Hy. now apply strftime_iso.
Qed.

Lemma parsed_date_is_a_date_witness :
  valid_date 2026 11 3 = true
  /\ Forall (fun t => exists pre p post gs d,
                DocumentProcessorAgent.patterns = (pre ++ p :: post)%list
                /\ Forall (fun q => re_search (DocumentProcessorAgent.regex q)
                                              (original_line t) = None) pre
                /\ re_search (DocumentProcessorAgent.regex p) (original_line t)
                   = Some gs
                /\ date_of_group (Datetime 2026 11 3)
                                 (DocumentProcessorAgent.group gs 1) d
                /\ date t = strftime_Y_m_d d
                /\ valid_date (year d) (month d) (day d) = true
                /\ year_month_day (date t) = Some (year d, month d, day d)
                /\ ((1000 <= year d)%N ->
                    iso_fields (date t) = Some (year d, month d, day d)))
       (DocumentProcessorAgent._parse_transaction_lines (Datetime 2026 11 3)
          ["13/45/2024 ACME CORP -$4.50 $1,851.92";
           "03-01-2024 BURGER KING $8.99 $2,136.68"]).
Proof.
  split; [reflexivity|].
  exact (parsed_date_is_a_date (Datetime 2026 11 3)
           ["13/45/2024 ACME CORP -$4.50 $1,851.92";
            "03-01-2024 BURGER KING $8.99 $2,136.68"] eq_refl).
Defined.

(** A date group that no format reads gives the current date. *)
Example impossible_date_becomes_today :
  map date (DocumentProcessorAgent._parse_transaction_lines (Datetime 2026 11 3)
              ["13/45/2024 ACME CORP -$4.50 $1,851.92";
               "03-01-2024 BURGER KING $8.99 $2,136.68"])
  = ["2026-11-03"; "2024-03-01"].
Proof. vm_compute. reflexivity. Qed.

(** ** Keywords that hide other keywords *)

Section Shadowing.
Import MerchantDatabase.

Lemma contains_iff (k s : string) :
  contains k s = true <-> exists pre post, s = pre ++ k ++ post.
Proof.
  induction s as [|c s IH]; simpl.
  - rewrite orb_false_r, startswith_iff. split.
    + intros [rest E]. exists EmptyString, rest. exact E.
    + intros (pre & post & E). destruct pre as [|x pre].
      * exists post. exact E.
      * rewrite append_cons in E. discriminate.
  - rewrite orb_true_iff, startswith_iff, IH. split.
    + intros [[rest E] | (pre & post & E)].
      * exists EmptyString, rest. exact E.
      * exists (String c pre), post. rewrite append_cons. now f_equal.
    + intros (pre & post & E). destruct pre as [|x pre].
      * left. exists post. exact E.
      * right. rewrite append_cons in E. injection E as _ E.
        exists pre, post. exact E.
Qed.

(** A part of a part is a part. *)
Lemma contains_trans (a b d : string) :
  contains a b = true -> contains b d = true -> contains a d = true.
Proof.
  rewrite !contains_iff. intros (p1 & q1 & ->) (p2 & q2 & ->).
  exists (p2 ++ p1), (q1 ++ q2). now rewrite !append_assoc.
Qed.

Lemma categorize_winner (description : string) :
  categorize_transaction description
  = match winner description with
    | Some ck => result_of (cleaned description) ck
    | None => ("uncategorized", zero)
    end.
Proof.
  unfold categorize_transaction, winner. fold (cleaned description).
  rewrite match_categories_find. fold keyword_order.
  now destruct (List.find _ keyword_order).
Qed.

(** With a hit at a position of a list, the first hit is there or
    before. *)
Lemma find_upto {A : Type} (f : A -> bool) (pre post : list A) (x : A) :
  f x = true ->
  exists y, List.find f (pre ++ x :: post)%list = Some y /\ In y (pre ++ [x])%list.
Proof.
  intros Hx. rewrite find_app_first.
  destruct (List.find f pre) as [y|] eqn:E.
  - exists y. split; [reflexivity|]. apply in_or_app. left.
    now apply find_some in E.
  - simpl. rewrite Hx. exists x. split; [reflexivity|].
    apply in_or_app. right. now left.
Qed.

Lemma shadowed_from_sound (earlier later : list (string * string))
    (ck : string * string) :
  In ck (shadowed_from earlier later) ->
  exists mid post ck',
    later = (mid ++ ck :: post)%list
    /\ In ck' (earlier ++ mid)%list
    /\ contains (snd ck') (snd ck) = true.
Proof.
  revert earlier. induction later as [|x later IH]; intros earlier; simpl;
    [intros []|].
  assert (Hrest : In ck (shadowed_from (earlier ++ [x]) later) ->
                  exists mid post ck',
                    x :: later = (mid ++ ck :: post)%list
                    /\ In ck' (earlier ++ mid)%list
                    /\ contains (snd ck') (snd ck) = true).
  { intros H. destruct (IH _ H) as (mid & post & ck' & -> & Hin & Hc).
    exists (x :: mid), post, ck'. split; [reflexivity|]. split; [|exact Hc].
    rewrite <- app_assoc in Hin. exact Hin. }
  destruct (existsb _ earlier) eqn:E; [|exact Hrest].
  intros [-> | H]; [|exact (Hrest H)].
  apply existsb_exists in E as (ck' & Hin & Hc).
  exists [], later, ck'. split; [reflexivity|]. split; [|exact Hc].
  now rewrite app_nil_r.
Qed.

(** A list without repetition splits around one of its members in one
    way. *)
Lemma split_unique {A : Type} (x : A) (pre pre' post post' : list A) :
  List.NoDup (pre ++ x :: post) ->
  (pre ++ x :: post)%list = (pre' ++ x :: post')%list ->
  pre = pre'.
Proof.
  revert pre'. induction pre as [|y pre IH]; intros [|y' pre'] Hnd E;
    simpl in *.
  - reflexivity.
  - injection E as -> E. exfalso. inversion Hnd as [|? ? Hn _]; subst.
    apply Hn. apply in_or_app. right. now left.
  - injection E as -> E. exfalso. inversion Hnd as [|? ? Hn _]; subst.
    apply Hn. apply in_or_app. right. now left.
  - injection E as -> E. f_equal. apply IH; [|exact E].
    now inversion Hnd.
Qed.

Lemma distinct_NoDup (l : list (string * string)) :
  distinct l = true -> List.NoDup l.
Proof.
  induction l as [|x l IH]; simpl; [constructor|].
  rewrite andb_true_iff, negb_true_iff. intros [Hx Hl].
  constructor; [|now apply IH].
  intros Hin. assert (E : existsb (fun y => String.eqb (fst x) (fst y)
                                           && String.eqb (snd x) (snd y)) l = true).
  { apply existsb_exists. exists x. split; [exact Hin|].
    now rewrite !String.eqb_refl. }
  congruence.
Qed.

Lemma keyword_order_NoDup : List.NoDup keyword_order.
Proof. apply distinct_NoDup. vm_compute. reflexivity. Qed.

(** The two definitions, unfolded once. *)
Lemma winner_unfold (description : string) :
  winner description = List.find (hit (cleaned description)) keyword_order.
Proof. unfold winner. reflexivity. Qed.

Lemma shadowed_unfold : shadowed = shadowed_from [] keyword_order.
Proof. unfold shadowed. reflexivity. Qed.

Lemma winner_not_shadowed (description : string) (ck : string * string) :
  In ck shadowed -> winner description <> Some ck.
Proof.
  intros Hs Hw. rewrite shadowed_unfold in Hs. rewrite winner_unfold in Hw.
  destruct (shadowed_from_sound _ _ _ Hs) as (mid & post & ck' & E & Hin & Hc).
  rewrite app_nil_l in Hin.
  destruct (find_split (hit (cleaned description)) keyword_order ck Hw)
    as (pre' & post' & E' & Hpre & Hhit).
  assert (mid = pre').
  { apply (split_unique ck mid pre' post post'); [|congruence].
    rewrite <- E. apply keyword_order_NoDup. }
  subst pre'. rewrite List.Forall_forall in Hpre. specialize (Hpre _ Hin).
  unfold hit in Hpre, Hhit.
  rewrite (contains_trans _ _ _ Hc Hhit) in Hpre. discriminate.
Qed.

Lemma shadowing (description : string) (pre mid post : list (string * string))
    (ck' ck : string * string) :
  keyword_order = (pre ++ ck' :: mid ++ ck :: post)%list ->
  contains (snd ck') (snd ck) = true ->
  contains (snd ck) (cleaned description) = true ->
  In (fst (categorize_transaction description)) (map fst (pre ++ [ck']))%list.
Proof.
  intros E Hc Hk.
  assert (Hhit : hit (cleaned description) ck' = true).
  { unfold hit. exact (contains_trans _ _ _ Hc Hk). }
  destruct (find_upto (hit (cleaned description)) pre (mid ++ ck :: post) ck' Hhit)
    as (y & Hy & Hin).
  rewrite categorize_winner. unfold winner. rewrite E, Hy. simpl.
  now apply in_map.
Qed.

End Shadowing.

(** X10. A keyword that holds an earlier keyword as a part of it never
    decides: whenever it is found in the description so is the earlier one,
    and the category is that of the earlier one or of a pair before it. The
    table has eight such pairs; a description with cable in it, for one, is
    never a utility bill on the strength of that word, it is food,
    groceries or transportation (cab comes first). *)
Theorem earlier_keyword_shadows_later :
  (forall (description : string) (pre mid post : list (string * string))
          (ck' ck : string * string),
      keyword_order = (pre ++ ck' :: mid ++ ck :: post)%list ->
      contains (snd ck') (snd ck) = true ->
      contains (snd ck) (cleaned description) = true ->
      In (fst (MerchantDatabase.categorize_transaction description))
         (map fst (pre ++ [ck']))%list)
  /\ (forall (description : string) (ck : string * string),
      In ck shadowed -> winner description <> Some ck)
  /\ (forall description : string,
      MerchantDatabase.categorize_transaction description
      = match winner description with
        | Some ck => result_of (cleaned description) ck
        | None => ("uncategorized", zero)
        end)
  /\ shadowed
     = [ ("food_dining", "dunkin donuts"); ("groceries", "supermarket");
         ("transportation", "subway"); ("bills_utilities", "cable");
         ("entertainment", "amazon prime"); ("income", "tax refund");
         ("fees", "service charge"); ("fees", "atm fee") ]
  /\ (forall description : string,
      contains "cable" (cleaned description) = true ->
      In (fst (MerchantDatabase.categorize_transaction description))
         ["food_dining"; "groceries"; "transportation"]).
Proof.
  split; [|split; [|split; [|split]]].
  - intros. eapply shadowing; eauto.
  - apply winner_not_shadowed.
  - apply categorize_winner.
  - vm_compute. reflexivity.
  - intros description H.
    assert (E : exists pre mid post,
               keyword_order
               = (pre ++ ("transportation", "cab") :: mid
                      ++ ("bills_utilities", "cable") :: post)%list
               /\ incl (map fst (pre ++ [("transportation", "cab")]))%list
                       ["food_dining"; "groceries"; "transportation"]).
    { exists (firstn 64 keyword_order),
             (firstn 43 (skipn 65 keyword_order)),
             (skipn 109 keyword_order).
      split; [vm_compute; reflexivity|].
      intros c Hc. vm_compute in Hc. vm_compute.
      repeat match goal with
             | H : _ \/ _ |- _ => destruct H as [<- | H]; [tauto|]
             end. destruct Hc. }
    destruct E as (pre & mid & post & E & Hincl).
    apply Hincl.
    exact (shadowing description pre mid post _ _ E eq_refl H).
Qed.

Lemma earlier_keyword_shadows_later_witness :
  contains "cable" (cleaned "COMCAST CABLE #4411") = true
  /\ In (fst (MerchantDatabase.categorize_transaction "COMCAST CABLE #4411"))
        ["food_dining"; "groceries"; "transportation"].
Proof.
  split; [vm_compute; reflexivity|].
  apply (proj2 (proj2 (proj2 (proj2 earlier_keyword_shadows_later)))).
  vm_compute. reflexivity.
Defined.

(** A cable bill is filed under transportation. *)
Example cable_bill_is_transportation :
  MerchantDatabase.categorize_transaction "COMCAST CABLE #4411"
  = ("transportation", Finite 0.80).
Proof. vm_compute. reflexivity. Qed.

(** ** The merchant stage *)

Section MerchantStage.
Import MerchantDatabase DocumentProcessorAgent.

Lemma categorize_one_at (h : heap) (txn r : ref) :
  categorize_one h txn r = if Nat.eqb r txn then keyword_categorized (h r) else h r.
Proof.
  unfold categorize_one, keyword_categorized.
  destruct (Nat.eqb r txn) eqn:E.
  - apply Nat.eqb_eq in E. subst r.
    destruct (categorize_transaction (description (h txn))) as [c x].
    destruct (negb (String.eqb c "uncategorized")); [|reflexivity].
    unfold update. now rewrite Nat.eqb_refl.
  - destruct (categorize_transaction (description (h txn))) as [c x].
    destruct (negb (String.eqb c "uncategorized")); [|reflexivity].
    unfold update. now rewrite E.
Qed.

(** The stage reads the description, which it leaves alone: a second pass
    over a transaction finds what the first wrote. *)
Lemma keyword_categorized_idem (t : Transaction) :
  keyword_categorized (keyword_categorized t) = keyword_categorized t.
Proof.
  unfold keyword_categorized.
  destruct (categorize_transaction (description t)) as [c x] eqn:E.
  destruct (negb (String.eqb c "uncategorized")) eqn:Hc.
  - simpl. rewrite E, Hc. reflexivity.
  - rewrite E, Hc. reflexivity.
Qed.

Lemma stage_fold (transactions : list ref) (h : heap) (r : ref) :
  fold_left categorize_one transactions h r
  = if existsb (Nat.eqb r) transactions then keyword_categorized (h r) else h r.
Proof.
  revert h. induction transactions as [|a l IH]; intros h; simpl; [reflexivity|].
  rewrite IH, categorize_one_at.
  destruct (Nat.eqb r a); simpl; [|reflexivity].
  destruct (existsb (Nat.eqb r) l); [apply keyword_categorized_idem | reflexivity].
Qed.

Lemma existsb_eqb_In (r : ref) (l : list ref) :
  existsb (Nat.eqb r) l = true <-> In r l.
Proof.
  rewrite existsb_exists. split.
  - intros (x & Hx & E). apply Nat.eqb_eq in E. now subst.
  - intros H. exists r. split; [exact H | apply Nat.eqb_refl].
Qed.

Lemma keyword_categorized_keeps (t : Transaction) :
  category t <> "uncategorized" -> category (keyword_categorized t) <> "uncategorized".
Proof.
  unfold keyword_categorized.
  destruct (categorize_transaction (description t)) as [c x].
  destruct (String.eqb c "uncategorized") eqn:E; simpl; [tauto|].
  intros _. now apply String.eqb_neq.
Qed.

End MerchantStage.

(** X11. The merchant stage gives each transaction of the list the category,
    the confidence and the source deterministic of its keyword, when its
    description has one, and leaves it as it is otherwise, however often the
    object occurs in the list; the other objects are not touched. Running
    the stage again changes nothing, and a transaction that had a category
    keeps having one. *)
Theorem basic_categorization_is_idempotent :
  forall (transactions : list ref) (h : heap),
    let h' := snd (DocumentProcessorAgent._apply_basic_categorization transactions h) in
    (forall r, In r transactions -> h' r = keyword_categorized (h r))
    /\ (forall r, ~ In r transactions -> h' r = h r)
    /\ (forall r,
          snd (DocumentProcessorAgent._apply_basic_categorization transactions h') r
          = h' r)
    /\ (forall r, category (h r) <> "uncategorized" ->
                  category (h' r) <> "uncategorized").
Proof.
  intros transactions h h'. subst h'.
  unfold DocumentProcessorAgent._apply_basic_categorization. simpl.
  split; [|split; [|split]].
  - intros r Hr. rewrite stage_fold.
    apply existsb_eqb_In in Hr. now rewrite Hr.
  - intros r Hr. rewrite stage_fold.
    destruct (existsb (Nat.eqb r) transactions) eqn:E; [|reflexivity].
    apply existsb_eqb_In in E. contradiction.
  - intros r. rewrite (stage_fold transactions (fold_left _ _ _)), stage_fold.
    destruct (existsb (Nat.eqb r) transactions); [|reflexivity].
    apply keyword_categorized_idem.
  - intros r Hr. rewrite stage_fold.
    destruct (existsb (Nat.eqb r) transactions); [|exact Hr].
    now apply keyword_categorized_keeps.
Qed.

Lemma basic_categorization_is_idempotent_witness :
  In 1 [1; 0; 1]
  /\ snd (DocumentProcessorAgent._apply_basic_categorization [1; 0; 1]
            (heap_of [sample_unknown; sample_coffee] sample_unknown)) 1
     = keyword_categorized sample_coffee.
Proof.
  split; [simpl; tauto|].
  apply (proj1 (basic_categorization_is_idempotent [1; 0; 1]
                  (heap_of [sample_unknown; sample_coffee] sample_unknown)) 1).
  simpl. tauto.
Defined.

(** ** The entry point of the document processor *)

Section DocumentProcess.
Import MerchantDatabase DocumentProcessorAgent LineFilter DocumentProcessing.

Lemma parse_lines_length (now : datetime) (lines : list string) :
  List.length (_parse_transaction_lines now lines) <= List.length lines.
Proof.
  induction lines as [|line lines IH] using rev_ind; [simpl; lia|].
  rewrite parse_lines_snoc, length_app. simpl.
  destruct (_parse_single_transaction now line); [rewrite length_app; simpl|]; lia.
Qed.

Lemma map_nth_seq {A B : Type} (f : A -> B) (l : list A) (d : A) :
  map (fun r => f (nth r l d)) (seq 0 (List.length l)) = map f l.
Proof.
  induction l as [|x l IH]; [reflexivity|].
  cbn [List.length]. rewrite <- cons_seq, <- seq_shift. cbn [map].
  rewrite map_map. cbn [nth]. now rewrite IH.
Qed.

Lemma partition_length {A : Type} (p : A -> bool) (l : list A) :
  List.length (List.filter (fun x => negb (p x)) l) + List.length (List.filter p l)
  = List.length l.
Proof.
  induction l as [|x l IH]; [reflexivity|].
  simpl. destruct (p x); simpl; lia.
Qed.

(** A keyword match never comes with confidence 0.0. *)
Lemma categorized_confidence (description : string) :
  fst (categorize_transaction description) = "uncategorized"
  <-> snd (categorize_transaction description) = zero.
Proof.
  pose proof (categorizer_rule_holds description) as H.
  destruct (categorize_transaction description) as [c x]. simpl.
  inversion H as [pre c' k post conf E Hpre Hk Ht | Hall]; subst.
  - assert (Hc : c <> "uncategorized").
    { intros ->.
      assert (Hin : In ("uncategorized", k) keyword_order).
      { rewrite E. apply in_or_app. right. now left. }
      revert Hin. generalize k.
      assert (Hno : forallb (fun ck => negb (String.eqb (fst ck) "uncategorized"))
                            keyword_order = true) by (vm_compute; reflexivity).
      rewrite forallb_forall in Hno. intros k0 Hin. specialize (Hno _ Hin).
      simpl in Hno. discriminate. }
    split; [contradiction|].
    intros ->. exfalso. inversion Ht.
  - split; reflexivity.
Qed.

Lemma keyword_categorized_fresh (t : Transaction) :
  fresh t ->
  source (keyword_categorized t) = "deterministic"
  /\ (category (keyword_categorized t) = "uncategorized"
      <-> confidence (keyword_categorized t) = zero).
Proof.
  intros (Hc & Hx & Hs & _). unfold keyword_categorized.
  pose proof (categorized_confidence (description t)) as H.
  destruct (categorize_transaction (description t)) as [c x]. simpl in H.
  destruct (String.eqb c "uncategorized") eqn:E; simpl.
  - split; [exact Hs|]. rewrite Hc, Hx. tauto.
  - split; [reflexivity|]. exact H.
Qed.

Lemma parsed_are_fresh (now : datetime) (lines : list string) :
  Forall fresh (_parse_transaction_lines now lines).
Proof.
  apply parse_lines_invariant. intros line t H i.
  apply parsed_fields in H as (p & gs & _ & _ & ->). repeat split.
Qed.

Lemma process_text (now : datetime) (unallocated : Transaction) (raw_text : string) :
  strip raw_text <> EmptyString ->
  _find_transaction_lines raw_text <> [] ->
  let lines := _find_transaction_lines raw_text in
  let parsed := _parse_transaction_lines now lines in
  let refs := seq 0 (List.length parsed) in
  let h := fold_left categorize_one refs (heap_of parsed unallocated) in
  process now unallocated (Text raw_text)
  = (Processed refs (List.length refs) lines
       (Stats (List.length lines) (List.length parsed)
          (ratio (List.length parsed) (List.length lines))
          (List.length (List.filter (is_categorized h) refs))
          (List.length (List.filter
                          (fun t => String.eqb (category (h t)) "uncategorized") refs))),
     h).
Proof.
  intros Hs Hl. cbv zeta. unfold process.
  apply String.eqb_neq in Hs. rewrite Hs.
  destruct (_find_transaction_lines raw_text) as [|l ls] eqn:E; [contradiction|].
  reflexivity.
Qed.

End DocumentProcess.

(** X12. What the document processor reports about a statement agrees with
    what it returns. It fails when the extraction raises or gives blank text
    and on nothing else; with no candidate line it succeeds with no
    transaction. Otherwise the transactions are distinct objects, one per
    line that parsed, in the order of the lines, each as the merchant stage
    leaves it (source deterministic, and uncategorized exactly when its
    confidence is 0.0); their number is the reported total and the number
    successfully parsed, it is at most the number of lines found, the two
    category counts add up to it, and the count of those needing the
    language model is the size of the batch the content analyzer will
    send. *)
Theorem processor_report_is_consistent :
  forall (now : datetime) (unallocated : Transaction)
         (pdf : DocumentProcessing.extraction),
    match DocumentProcessing.process now unallocated pdf with
    | (DocumentProcessing.Failure error, _) =>
        pdf = DocumentProcessing.Raises error
        \/ exists raw_text,
             pdf = DocumentProcessing.Text raw_text
             /\ strip raw_text = EmptyString /\ error = "No text in PDF"
    | (DocumentProcessing.NoLines raw_text _, _) =>
        pdf = DocumentProcessing.Text raw_text
        /\ strip raw_text <> EmptyString
        /\ LineFilter._find_transaction_lines raw_text = []
    | (DocumentProcessing.Processed transactions total lines stats, h) =>
        exists raw_text,
          pdf = DocumentProcessing.Text raw_text
          /\ lines = LineFilter._find_transaction_lines raw_text
          /\ lines <> []
          /\ transactions = seq 0 total
          /\ map h transactions
             = map keyword_categorized
                   (DocumentProcessorAgent._parse_transaction_lines now lines)
          /\ DocumentProcessing.successfully_parsed stats = total
          /\ DocumentProcessing.lines_found stats = List.length lines
          /\ total <= List.length lines
          /\ DocumentProcessing.categorized_deterministically stats
             + DocumentProcessing.needs_llm stats = total
          /\ DocumentProcessing.needs_llm stats
             = List.length (needs_llm_of h transactions)
          /\ Forall (fun r => source (h r) = "deterministic"
                              /\ (category (h r) = "uncategorized"
                                  <-> confidence (h r) = zero))
                    transactions
    end.
Proof.
  intros now unallocated [message | raw_text].
  { simpl. now left. }
  destruct (String.eqb (strip raw_text) EmptyString) eqn:Hs.
  { unfold DocumentProcessing.process. rewrite Hs.
    right. exists raw_text. apply String.eqb_eq in Hs. auto. }
  apply String.eqb_neq in Hs.
  destruct (LineFilter._find_transaction_lines raw_text) as [|l ls] eqn:Hl.
  { unfold DocumentProcessing.process.
    apply String.eqb_neq in Hs. rewrite Hs, Hl. apply String.eqb_neq in Hs. auto. }
  assert (Hne : LineFilter._find_transaction_lines raw_text <> []) by (rewrite Hl; discriminate).
  rewrite (process_text now unallocated raw_text Hs Hne). cbv zeta.
  set (lines := LineFilter._find_transaction_lines raw_text).
  set (parsed := DocumentProcessorAgent._parse_transaction_lines now lines).
  set (refs := seq 0 (List.length parsed)).
  set (h := fold_left DocumentProcessorAgent.categorize_one refs
              (heap_of parsed unallocated)).
  assert (Hh : forall r, In r refs -> h r = keyword_categorized (nth r parsed unallocated)).
  { intros r Hr. unfold h. rewrite stage_fold.
    apply existsb_eqb_In in Hr. now rewrite Hr. }
  assert (Hlen : List.length refs = List.length parsed) by apply length_seq.
  exists raw_text. split; [reflexivity|]. split; [reflexivity|].
  split; [exact Hne|].
  split; [now rewrite Hlen|].
  split.
  { rewrite <- (map_nth_seq keyword_categorized parsed unallocated).
    apply map_ext_in. exact Hh. }
  cbn [DocumentProcessing.successfully_parsed DocumentProcessing.lines_found
       DocumentProcessing.categorized_deterministically DocumentProcessing.needs_llm].
  split; [now rewrite Hlen|]. split; [reflexivity|].
  split; [rewrite Hlen; apply parse_lines_length|].
  split.
  { apply (partition_length (fun t => String.eqb (category (h t)) "uncategorized") refs). }
  split; [reflexivity|].
  apply List.Forall_forall. intros r Hr. rewrite (Hh r Hr).
  apply keyword_categorized_fresh.
  pose proof (parsed_are_fresh now lines) as Hf. fold parsed in Hf.
  rewrite List.Forall_forall in Hf. apply Hf. apply nth_In.
  apply in_seq in Hr. lia.
Qed.

(** A line that looks like a transaction and matches no pattern: the
    processor succeeds with nothing. *)
Example success_without_transactions :
  forall (now : datetime) (unallocated : Transaction),
    fst (DocumentProcessing.process now unallocated
           (DocumentProcessing.Text "02/01/2024 DUNKIN DONUTS 8901 -$4.50 $1,851.92"))
    = DocumentProcessing.Processed [] 0
        ["02/01/2024 DUNKIN DONUTS 8901 -$4.50 $1,851.92"]
        (DocumentProcessing.Stats 1 0 (Finite 0) 0 0).
Proof. intros now unallocated. vm_compute. reflexivity. Qed.

(** ** The batch of the content analyzer *)

Section Batch.
Import ContentAnalyzerAgent.

Lemma cat_lookup_entry (cats : list TransactionCategory.t) (k : string) :
  cat_lookup_of cats !! k = entry_for cats k.
Proof.
  unfold cat_lookup_of, entry_for.
  induction cats as [|c cats IH] using rev_ind; [apply lookup_empty|].
  rewrite fold_left_app, rev_app_distr. simpl.
  destruct (String.eqb (TransactionCategory.transaction_id c) k) eqn:E.
  - apply String.eqb_eq in E. rewrite E. apply lookup_insert_eq.
  - apply String.eqb_neq in E. rewrite lookup_insert_ne by exact E. exact IH.
Qed.

(** With one element per object, the loop leaves at each object what the
    write of its element makes of it. *)
Lemma loop_exact {A : Type} (target : A -> ref) (write : A -> Transaction -> Transaction)
    (ys : list A) (h : heap) (y : A) :
  List.NoDup (map target ys) -> In y ys ->
  fold_left (fun h0 y0 => update h0 (target y0) (write y0)) ys h (target y)
  = write y (h (target y)).
Proof.
  revert h. induction ys as [|y0 ys IH]; intros h Hnd Hin; [destruct Hin|].
  simpl in Hnd. inversion Hnd as [|? ? Hnotin Hnd']; subst. simpl.
  destruct Hin as [-> | Hin].
  - rewrite loop_untouched; [apply update_same|].
    intros y' Hy' E. apply Hnotin. rewrite <- E. now apply in_map.
  - rewrite IH by assumption. f_equal. apply update_other.
    intros E. apply Hnotin. rewrite <- E. now apply in_map.
Qed.

Lemma nth_error_combine_seq {A : Type} (l : list A) (s i : nat) (x : A) :
  nth_error l i = Some x -> In (s + i, x) (combine (seq s (List.length l)) l).
Proof.
  revert s i. induction l as [|y l IH]; intros s [|i] H; simpl in H; try discriminate.
  - injection H as ->. rewrite Nat.add_0_r. now left.
  - right. replace (s + S i) with (S s + i) by lia. now apply IH.
Qed.

Lemma nth_error_enumerate {A : Type} (l : list A) (i : nat) (x : A) :
  nth_error l i = Some x -> In (i, x) (enumerate l).
Proof. intros H. apply (nth_error_combine_seq l 0 i x H). Qed.

Lemma map_snd_combine_seq {A : Type} (l : list A) (s : nat) :
  map snd (combine (seq s (List.length l)) l) = l.
Proof.
  revert s. induction l as [|y l IH]; intros s; [reflexivity|].
  simpl. now rewrite IH.
Qed.

Lemma map_fst_combine_seq {A : Type} (l : list A) (s : nat) :
  map fst (combine (seq s (List.length l)) l) = seq s (List.length l).
Proof.
  revert s. induction l as [|y l IH]; intros s; [reflexivity|].
  simpl. now rewrite IH.
Qed.

(** An accepted response is applied by position. *)
Lemma heap_after_exact conv llm (needs_llm : list ref) (h : heap)
    (cats : list TransactionCategory.t) (i : nat) (r : ref) :
  List.NoDup needs_llm ->
  accepted conv (llm (request_for h needs_llm)) = Some cats ->
  nth_error needs_llm i = Some r ->
  heap_after conv llm needs_llm h r
  = match entry_for cats (txn_id i) with
    | Some cat => apply_entry cat (h r)
    | None => incomplete (h r)
    end.
Proof.
  intros Hnd Hok Hi. unfold heap_after. rewrite Hok, llm_categorization_loop.
  change r with (snd (i, r)) at 1.
  rewrite (loop_exact snd (write_of (cat_lookup_of cats))).
  - unfold write_of. simpl. rewrite cat_lookup_entry.
    now destruct (entry_for cats (txn_id i)).
  - unfold enumerate. now rewrite map_snd_combine_seq.
  - now apply nth_error_enumerate.
Qed.

Lemma NoDup_filter {A : Type} (p : A -> bool) (l : list A) :
  List.NoDup l -> List.NoDup (List.filter p l).
Proof.
  induction 1 as [|x l Hx Hnd IH]; simpl; [constructor|].
  destruct (p x); [|exact IH].
  constructor; [|exact IH]. intros Hin. apply Hx.
  now apply filter_In in Hin as [Hin _].
Qed.

Lemma of_nat_inj (n m : nat) : of_nat n = of_nat m -> n = m.
Proof.
  unfold of_nat. intros E. apply Unsigned.to_uint_inj.
  apply (f_equal NilEmpty.uint_of_string) in E.
  rewrite !NilEmpty.usu in E. now injection E.
Qed.

Lemma txn_id_inj (n m : nat) : txn_id n = txn_id m -> n = m.
Proof.
  unfold txn_id. cbv [String.append]. intros E. injection E as E.
  now apply of_nat_inj.
Qed.

Lemma batch_ids (h : heap) (needs_llm : list ref) :
  map s_id (batch (request_for h needs_llm))
  = map txn_id (seq 0 (List.length needs_llm)).
Proof.
  unfold request_for, transaction_data_of, enumerate. simpl.
  rewrite map_map. simpl.
  transitivity (map txn_id (map fst (combine (seq 0 (List.length needs_llm)) needs_llm))).
  - now rewrite map_map.
  - now rewrite map_fst_combine_seq.
Qed.

Lemma batch_sent (h : heap) (needs_llm : list ref) :
  map sent (batch (request_for h needs_llm))
  = map (fun r => sent_of (h r)) needs_llm.
Proof.
  unfold request_for, transaction_data_of, enumerate. simpl.
  rewrite map_map. unfold sent, sent_of. simpl.
  transitivity (map (fun r => (description (h r), amount (h r), is_debit (h r), date (h r)))
                    (map snd (combine (seq 0 (List.length needs_llm)) needs_llm))).
  - now rewrite map_map.
  - now rewrite map_snd_combine_seq.
Qed.

Lemma NoDup_map_inj {A B : Type} (f : A -> B) (l : list A) :
  (forall x y, f x = f y -> x = y) -> List.NoDup l -> List.NoDup (map f l).
Proof.
  intros Hinj. induction 1 as [|x l Hx Hnd IH]; simpl; constructor; [|exact IH].
  intros Hin. apply in_map_iff in Hin as (y & E & Hy).
  apply Hinj in E. now subst.
Qed.

Lemma accepted_in_range conv (reply : llm_reply) (cats : list TransactionCategory.t) :
  accepted conv reply = Some cats -> Forall in_unit_interval cats.
Proof.
  unfold accepted, validate_response.
  destruct reply as [| | |[| | | | |members]]; try discriminate.
  destruct (member "categorizations" members) as [[| | | |entries|]|]; try discriminate.
  intros H. now apply validate_entries_sound in H.
Qed.

Lemma heap_after_analyzed conv llm (needs_llm : list ref) (h : heap) (r : ref) :
  In r needs_llm -> analyzed (heap_after conv llm needs_llm h r).
Proof.
  intros Hin. unfold heap_after.
  destruct (accepted conv (llm (request_for h needs_llm))) as [cats|] eqn:E.
  - rewrite llm_categorization_loop.
    apply (loop_last_write snd (write_of (cat_lookup_of cats)) analyzed).
    + destruct (enumerate_covers _ _ Hin) as [i Hi]. exists (i, r). auto.
    + intros [i x] t _ _. unfold write_of. simpl.
      destruct (cat_lookup_of cats !! txn_id i) as [cat|] eqn:El.
      * apply cat_lookup_sound in El as [Hc _].
        apply accepted_in_range in E. rewrite List.Forall_forall in E.
        destruct (E _ Hc) as [Hge Hle].
        unfold analyzed. simpl.
        split; [now left|]. split; [discriminate|]. split; assumption.
      * unfold analyzed. simpl.
        split; [now right|]. split; [discriminate|]. split; reflexivity.
  - rewrite fallback_categorization_loop.
    apply (loop_last_write id (fun _ => unavailable) analyzed).
    + exists r. auto.
    + intros y t _ _. unfold analyzed. simpl.
      split; [now right|]. split; [discriminate|]. split; reflexivity.
Qed.

(** With no entry that says uncategorized, the batch leaves categorized. *)
Lemma heap_after_categorized conv llm (transactions : list ref) (h : heap) (r : ref) :
  (forall cats,
      accepted conv (llm (request_for h (needs_llm_of h transactions))) = Some cats ->
      Forall (fun cat => TransactionCategory.category cat <> "uncategorized") cats) ->
  In r transactions ->
  category (heap_after conv llm (needs_llm_of h transactions) h r) <> "uncategorized".
Proof.
  intros Hcats Hin.
  destruct (String.eqb (category (h r)) "uncategorized") eqn:E.
  - apply String.eqb_eq in E.
    assert (Hneeds : In r (needs_llm_of h transactions)) by (apply in_needs_llm; auto).
    destruct (batch_category conv llm _ h r Hneeds)
      as [-> | (cats & cat & Hok & Hcat & ->)]; [discriminate|].
    specialize (Hcats cats Hok). rewrite List.Forall_forall in Hcats. now apply Hcats.
  - apply String.eqb_neq in E.
    rewrite heap_after_untouched; [assumption|].
    intros Hneeds. apply in_needs_llm in Hneeds as [_ Hu]. contradiction.
Qed.

Lemma filter_all_true {A : Type} (p : A -> bool) (l : list A) :
  (forall x, In x l -> p x = true) -> List.filter p l = l.
Proof.
  induction l as [|x l IH]; intros H; simpl; [reflexivity|].
  rewrite (H x) by now left. f_equal. apply IH. intros y Hy. apply H. now right.
Qed.

Lemma filter_all_false {A : Type} (p : A -> bool) (l : list A) :
  (forall x, In x l -> p x = false) -> List.filter p l = [].
Proof.
  induction l as [|x l IH]; intros H; simpl; [reflexivity|].
  rewrite (H x) by now left. apply IH. intros y Hy. apply H. now right.
Qed.

Lemma process_output (conv : conversions) (llm : request -> llm_reply)
    (transactions : list ref) (a : agent) :
  fst (process conv llm transactions a)
  = (List.filter (fun t => negb (is_uncategorized (objs a) t)) transactions
     ++ needs_llm_of (objs a) transactions)%list.
Proof.
  rewrite process_eq.
  destruct (needs_llm_of (objs a) transactions); simpl; [now rewrite app_nil_r|].
  reflexivity.
Qed.

End Batch.

(** X13. An accepted response is applied by position in the batch: the
    transaction at position i of the batch gets the category, confidence
    and reasoning of the last entry of the response that carries the
    identifier txn_i, with source llm, and the default of an incomplete
    response when no entry carries it. The identifier the transaction
    itself carries plays no part; the transactions of the batch being
    distinct objects. *)
Theorem entries_apply_by_position :
  forall conv llm (transactions : list ref) (a : ContentAnalyzerAgent.agent)
         (cats : list TransactionCategory.t),
    let h := ContentAnalyzerAgent.objs a in
    let needs_llm := needs_llm_of h transactions in
    List.NoDup needs_llm ->
    accepted conv (llm (request_for h needs_llm)) = Some cats ->
    forall (i : nat) (r : ref),
      nth_error needs_llm i = Some r ->
      ContentAnalyzerAgent.objs
        (snd (ContentAnalyzerAgent.process conv llm transactions a)) r
      = match entry_for cats (ContentAnalyzerAgent.txn_id i) with
        | Some cat => ContentAnalyzerAgent.apply_entry cat (h r)
        | None => ContentAnalyzerAgent.incomplete (h r)
        end.
Proof.
  intros conv llm transactions a cats h needs_llm Hnd Hok i r Hi.
  rewrite process_heap. now apply heap_after_exact.
Qed.

Lemma entries_apply_by_position_witness :
  List.NoDup (needs_llm_of (ContentAnalyzerAgent.objs sample_agent) [0; 1; 2])
  /\ transaction_id sample_transfer = Some "txn_3"
  /\ ContentAnalyzerAgent.objs
       (snd (ContentAnalyzerAgent.process ContentAnalyzerAgent.exact
               sample_llm_twice [0; 1; 2] sample_agent)) 2
     = ContentAnalyzerAgent.apply_entry
         (TransactionCategory.Make "txn_1" "fees" (Finite 0.6) "second")
         sample_transfer.
Proof.
  split; [|split; [reflexivity|]].
  - vm_compute. repeat constructor; simpl; intuition discriminate.
  - apply (entries_apply_by_position ContentAnalyzerAgent.exact sample_llm_twice
             [0; 1; 2] sample_agent
             [ TransactionCategory.Make "txn_1" "shopping" (Finite 0.7) "first";
               TransactionCategory.Make "txn_3" "income" (Finite 0.9) "by its own number";
               TransactionCategory.Make "txn_1" "fees" (Finite 0.6) "second" ]
             ltac:(vm_compute; repeat constructor; simpl; intuition discriminate)
             ltac:(vm_compute; reflexivity) 1 2 ltac:(vm_compute; reflexivity)).
Defined.

(** X14. The content analyzer returns the transactions that had a category
    first and those of the batch after them, each group in the order it came
    in. A transaction outside the batch is not changed in any key. The
    request tells of the transactions of the batch only: their description,
    amount, direction and date, in order, under the identifiers txn_0,
    txn_1, ..., which differ from one another. *)
Theorem analyzer_touches_only_the_batch :
  forall conv llm (transactions : list ref) (a : ContentAnalyzerAgent.agent),
    let h := ContentAnalyzerAgent.objs a in
    let needs_llm := needs_llm_of h transactions in
    let result := ContentAnalyzerAgent.process conv llm transactions a in
    fst result
    = (List.filter (fun t => negb (ContentAnalyzerAgent.is_uncategorized h t))
                   transactions ++ needs_llm)%list
    /\ (forall r, ~ In r needs_llm ->
                  ContentAnalyzerAgent.objs (snd result) r = h r)
    /\ map sent (ContentAnalyzerAgent.batch (request_for h needs_llm))
       = map (fun r => sent_of (h r)) needs_llm
    /\ map ContentAnalyzerAgent.s_id
           (ContentAnalyzerAgent.batch (request_for h needs_llm))
       = map ContentAnalyzerAgent.txn_id (seq 0 (List.length needs_llm))
    /\ List.NoDup (map ContentAnalyzerAgent.s_id
                       (ContentAnalyzerAgent.batch (request_for h needs_llm))).
Proof.
  intros conv llm transactions a h needs_llm result.
  split; [apply process_output|].
  split.
  { intros r Hr. unfold result. rewrite process_heap.
    now apply heap_after_untouched. }
  split; [apply batch_sent|].
  split; [apply batch_ids|].
  rewrite batch_ids. apply NoDup_map_inj; [apply txn_id_inj | apply List.seq_NoDup].
Qed.

Lemma analyzer_touches_only_the_batch_witness :
  ~ In 1 (needs_llm_of (ContentAnalyzerAgent.objs sample_agent) [0; 1; 2])
  /\ ContentAnalyzerAgent.objs
       (snd (ContentAnalyzerAgent.process ContentAnalyzerAgent.exact
               sample_llm_twice [0; 1; 2] sample_agent)) 1
     = sample_coffee.
Proof.
  assert (H : ~ In 1 (needs_llm_of (ContentAnalyzerAgent.objs sample_agent) [0; 1; 2])).
  { vm_compute. intuition discriminate. }
  split; [exact H|].
  exact (proj1 (proj2 (analyzer_touches_only_the_batch ContentAnalyzerAgent.exact
                         sample_llm_twice [0; 1; 2] sample_agent)) 1 H).
Defined.

(** X15. Whatever the reply, a transaction of the batch leaves the analyzer
    with source llm or fallback, with a reasoning, and with a confidence
    between 0 and 1. *)
Theorem batch_leaves_analyzed :
  forall conv llm (transactions : list ref) (a : ContentAnalyzerAgent.agent) (r : ref),
    In r (needs_llm_of (ContentAnalyzerAgent.objs a) transactions) ->
    analyzed (ContentAnalyzerAgent.objs
                (snd (ContentAnalyzerAgent.process conv llm transactions a)) r).
Proof.
  intros conv llm transactions a r Hr. rewrite process_heap.
  now apply heap_after_analyzed.
Qed.

Lemma batch_leaves_analyzed_witness :
  In 0 (needs_llm_of (ContentAnalyzerAgent.objs sample_agent) [0; 1; 2])
  /\ analyzed (ContentAnalyzerAgent.objs
                 (snd (ContentAnalyzerAgent.process ContentAnalyzerAgent.exact
                         sample_llm_twice [0; 1; 2] sample_agent)) 0).
Proof.
  assert (H : In 0 (needs_llm_of (ContentAnalyzerAgent.objs sample_agent) [0; 1; 2])).
  { vm_compute. now left. }
  split; [exact H|].
  exact (batch_leaves_analyzed ContentAnalyzerAgent.exact sample_llm_twice
           [0; 1; 2] sample_agent 0 H).
Defined.

(** X16. Once the analyzer has run, and unless an accepted entry said
    uncategorized itself, running it again on what it returned sends
    nothing to the language model, whatever model it is given: it returns
    the same list and leaves the transactions, the call counter and the
    log of requests as they are. *)
Theorem second_run_makes_no_call :
  forall conv llm llm' (transactions : list ref) (a : ContentAnalyzerAgent.agent),
    let h := ContentAnalyzerAgent.objs a in
    let result := ContentAnalyzerAgent.process conv llm transactions a in
    (forall cats,
        accepted conv (llm (request_for h (needs_llm_of h transactions))) = Some cats ->
        Forall (fun cat => TransactionCategory.category cat <> "uncategorized") cats) ->
    ContentAnalyzerAgent.process conv llm' (fst result) (snd result)
    = (fst result, snd result).
Proof.
  intros conv llm llm' transactions a h result Hcats.
  assert (Hall : forall r, In r (fst result) ->
                 ContentAnalyzerAgent.is_uncategorized
                   (ContentAnalyzerAgent.objs (snd result)) r = false).
  { intros r Hr. unfold ContentAnalyzerAgent.is_uncategorized.
    apply String.eqb_neq. unfold result. rewrite process_heap.
    apply heap_after_categorized; [exact Hcats|].
    eapply Permutation_in; [|exact Hr].
    apply Permutation_sym, process_returns_all. }
  rewrite (process_eq conv llm' (fst result) (snd result)).
  unfold needs_llm_of. rewrite (filter_all_false _ _ Hall).
  rewrite filter_all_true; [reflexivity|].
  intros r Hr. now rewrite (Hall r Hr).
Qed.

Lemma second_run_makes_no_call_witness :
  (forall cats,
      accepted ContentAnalyzerAgent.exact
        (sample_llm "shopping" 0.8
           (request_for (ContentAnalyzerAgent.objs sample_agent)
              (needs_llm_of (ContentAnalyzerAgent.objs sample_agent) [0; 1; 2])))
      = Some cats ->
      Forall (fun cat => TransactionCategory.category cat <> "uncategorized") cats)
  /\ ContentAnalyzerAgent.requests
       (snd (ContentAnalyzerAgent.process ContentAnalyzerAgent.exact sample_llm_twice
               (fst (ContentAnalyzerAgent.process ContentAnalyzerAgent.exact
                       (sample_llm "shopping" 0.8) [0; 1; 2] sample_agent))
               (snd (ContentAnalyzerAgent.process ContentAnalyzerAgent.exact
                       (sample_llm "shopping" 0.8) [0; 1; 2] sample_agent))))
     = ContentAnalyzerAgent.requests
         (snd (ContentAnalyzerAgent.process ContentAnalyzerAgent.exact
                 (sample_llm "shopping" 0.8) [0; 1; 2] sample_agent)).
Proof.
  assert (H : forall cats,
      accepted ContentAnalyzerAgent.exact
        (sample_llm "shopping" 0.8
           (request_for (ContentAnalyzerAgent.objs sample_agent)
              (needs_llm_of (ContentAnalyzerAgent.objs sample_agent) [0; 1; 2])))
      = Some cats ->
      Forall (fun cat => TransactionCategory.category cat <> "uncategorized") cats).
  { intros cats E. vm_compute in E. injection E as <-.
    repeat constructor. simpl. discriminate. }
  split; [exact H|].
  rewrite (second_run_makes_no_call ContentAnalyzerAgent.exact
             (sample_llm "shopping" 0.8) sample_llm_twice [0; 1; 2] sample_agent H).
  reflexivity.
Defined.

(** ** The insights of the language model *)

Section Insights.
Import LineFilter AnalysisGeneratorAgent.



End Insights.



(** A response of blank lines: the call is made, an empty list comes back,
    and the counter stays where it was. *)
Example blank_response_is_not_counted :
  AnalysisGeneratorAgent.ai_insights_step true true
    (AnalysisGeneratorAgent.Returns (Some (String "010" ("   " ++ String "010" " "))))
    (AnalysisGeneratorAgent.Agent 0 1)
  = (Some [], AnalysisGeneratorAgent.Agent 0 2).
Proof. vm_compute. reflexivity. Qed.
